(** * Stock consistency of the UMKM business manager

    A shallow embedding of the three handlers that change a product's
    [stock_quantity] (server/src/handlers/create_inventory_movement.ts,
    create_transaction.ts and update_transaction.ts), of the zod schemas
    that guard them in server/src/index.ts, and of the four tables they
    read and write (server/src/db/schema.ts).

    Modelling conventions.
    - The database is an explicit [Store]; a handler is a function from a
      store to a result and a new store.  A thrown [Error] leaves the
      store as it is at the point of the throw; only [db_transaction]
      undoes writes.
    - [integer] columns and zod [int()] numbers are mathematical integers
      ([Z]).
    - A [numeric(10,2)] column holds hundredths ([Z]).  A JavaScript
      number that carries an amount is the rational that its [toString]
      prints ([number]); storing it rounds it to hundredths, half away
      from zero ([numeric_10_2]), and [parseFloat] reads the hundredths
      back.  Arithmetic on numbers is exact.  The result in double
      precision is stored as the same hundredths when the operands are
      amounts in whole cents that the columns can hold, and what is proved
      of a computed amount is proved for such operands.
    - An INSERT or UPDATE does not fail.  The database refuses a value
      outside the range of its column ([integer], [numeric(10,2)]) and a
      row that breaks a foreign key; these failures of the storage layer
      are not modelled, and a property that tells what a call has stored
      is stated for a call that returns.
    - [NOW()], [new Date()] and [defaultNow()] read the clock; the time of
      a call is the argument [now] of each handler.
    - A serial sequence yields an id that no row of its table has, as
      ids are taken from the sequence only; an insert does not fail on
      its primary key.
    - A string is the sequence of its UTF-8 bytes.
    - One request runs at a time. *)

From Stdlib Require Import ZArith Lia QArith.
From stdpp Require Import gmap list option strings pretty sorting.

Local Open Scope Z_scope.

(** ** Enumerations (db/schema.ts, pgEnum) *)

Inductive TransactionStatus := pending | completed | cancelled.

(** ['in'], ['out'], ['adjustment']. *)
Inductive InventoryMovementType := mv_in | mv_out | mv_adjustment.

#[global] Instance TransactionStatus_eq_dec : EqDecision TransactionStatus.
Proof. solve_decision. Defined.

#[global] Instance InventoryMovementType_eq_dec : EqDecision InventoryMovementType.
Proof. solve_decision. Defined.

(** ** Numbers and amounts *)

(** A JavaScript number that carries an amount. *)
Definition number : Type := Q.

(** The nearest integer, the farther from zero of two that are as near. *)
Definition round_half_away (x : Q) : Z :=
  Z.sgn (Qnum x) * ((2 * Z.abs (Qnum x) + Zpos (Qden x)) / (2 * Zpos (Qden x))).

(** The hundredths that a [numeric(10,2)] column holds for
    [x.toString()]. *)
Definition numeric_10_2 (x : number) : Z := round_half_away (x * 100)%Q.

(** [parseFloat] of the text of a [numeric(10,2)] column. *)
Definition parseFloat (hundredths : Z) : number := hundredths # 100.

(** zod's [positive()] and [nonnegative()]. *)
Definition positive_number (x : number) : bool := negb (Qle_bool x 0).

Definition nonnegative_number (x : number) : bool := Qle_bool 0 x.

(** [x] is an amount in whole cents. *)
Definition whole_cents (x : number) : Prop := (x == parseFloat (numeric_10_2 x))%Q.

#[global] Instance number_eq_dec : EqDecision number.
Proof. unfold number. solve_decision. Defined.

#[global] Instance whole_cents_dec x : Decision (whole_cents x).
Proof. unfold whole_cents. apply Qeq_dec. Defined.

(** ** Rows

    [products] and [transactions] are keyed by their primary key, which is
    the key of the map and not a field of the row; [transaction_items] and
    [inventory_movements] are kept in insertion order and carry their
    serial [id]. *)

Module Product.
Record t := mk {
  name : string;
  description : option string;
  price : Z;
  stock_quantity : Z;
  min_stock_level : Z;
  category : option string;
  sku : option string;
  is_active : bool;
  created_at : Z;
  updated_at : Z }.

(** [.set({ stock_quantity: q, updated_at: now })] *)
Definition set_stock (q now : Z) (p : t) : t :=
  {| name := name p; description := description p; price := price p;
     stock_quantity := q; min_stock_level := min_stock_level p;
     category := category p; sku := sku p; is_active := is_active p;
     created_at := created_at p; updated_at := now |}.
End Product.

Module Transaction.
Record t := mk {
  customer_id : option Z;
  user_id : Z;
  total_amount : Z;
  discount_amount : Z;
  final_amount : Z;
  status : TransactionStatus;
  payment_method : option string;
  notes : option string;
  created_at : Z;
  updated_at : Z }.
End Transaction.

Module TransactionItem.
Record t := mk {
  id : Z;
  transaction_id : Z;
  product_id : Z;
  quantity : Z;
  unit_price : Z;
  total_price : Z;
  created_at : Z }.
End TransactionItem.

Module InventoryMovement.
Record t := mk {
  id : Z;
  product_id : Z;
  movement_type : InventoryMovementType;
  quantity : Z;
  reference_type : option string;
  reference_id : option Z;
  notes : option string;
  created_at : Z }.
End InventoryMovement.

(** ** The store *)

Record Store := mkStore {
  productsTable : gmap Z Product.t;
  transactionsTable : gmap Z Transaction.t;
  transactionItemsTable : list TransactionItem.t;
  inventoryMovementsTable : list InventoryMovement.t;
  (* the serial sequences behind the [id] columns *)
  transactions_id_seq : Z;
  transaction_items_id_seq : Z;
  inventory_movements_id_seq : Z }.

(** ** Errors and the handler monad *)

Inductive Error :=
  | ProductNotFound (product_id : Z)
  | TransactionNotFound (transaction_id : Z)
  | InsufficientStock (available required : Z)
  | ZodError
  | TypeError.

Inductive Result (A : Type) :=
  | Ok (a : A)
  | Throw (e : Error).
Arguments Ok {A} a.
Arguments Throw {A} e.

Definition Db (A : Type) : Type := Store -> Result A * Store.

Definition ret {A} (a : A) : Db A := fun st => (Ok a, st).

Definition throw {A} (e : Error) : Db A := fun st => (Throw e, st).

Definition bind {A B} (m : Db A) (k : A -> Db B) : Db B :=
  fun st =>
    match m st with
    | (Ok a, st') => k a st'
    | (Throw e, st') => (Throw e, st')
    end.

Declare Scope db_scope.
Delimit Scope db_scope with db.
Notation "'let!' x ':=' m 'in' k" := (bind m (fun x => k))
  (at level 10, x pattern, m at level 100, k at level 200) : db_scope.
Notation "m ';;;' k" := (bind m (fun _ => k))
  (at level 100, k at level 200, right associativity) : db_scope.
Local Open Scope db_scope.

(** [for (const x of xs) { await body(x) }] *)
Fixpoint for_of {A} (xs : list A) (body : A -> Db unit) : Db unit :=
  match xs with
  | [] => ret tt
  | x :: rest => body x ;;; for_of rest body
  end.

(** [db.transaction(async (tx) => body)]: the writes of [body] are kept
    when it returns and undone when it throws.  A sequence is not reset by
    a rollback. *)
Definition rollback (before after : Store) : Store :=
  {| productsTable := productsTable before;
     transactionsTable := transactionsTable before;
     transactionItemsTable := transactionItemsTable before;
     inventoryMovementsTable := inventoryMovementsTable before;
     transactions_id_seq := transactions_id_seq after;
     transaction_items_id_seq := transaction_items_id_seq after;
     inventory_movements_id_seq := inventory_movements_id_seq after |}.

Definition db_transaction {A} (body : Db A) : Db A :=
  fun st =>
    match body st with
    | (Ok a, st') => (Ok a, st')
    | (Throw e, st') => (Throw e, rollback st st')
    end.

(** ** Statements *)

(** [select().from(productsTable).where(eq(productsTable.id, id))]; the
    result has one row or none. *)
Definition select_product (id : Z) : Db (option Product.t) :=
  fun st => (Ok (productsTable st !! id), st).

(** [update(productsTable).set(...).where(eq(productsTable.id, id))];
    [set] is given the row so that it can also stand for an SQL expression
    over the stored value. *)
Definition update_product (id : Z) (set : Product.t -> Product.t) : Db unit :=
  fun st =>
    (Ok tt,
     {| productsTable := alter set id (productsTable st);
        transactionsTable := transactionsTable st;
        transactionItemsTable := transactionItemsTable st;
        inventoryMovementsTable := inventoryMovementsTable st;
        transactions_id_seq := transactions_id_seq st;
        transaction_items_id_seq := transaction_items_id_seq st;
        inventory_movements_id_seq := inventory_movements_id_seq st |}).

(** [insert(inventoryMovementsTable).values(...).returning()]; [values] is
    given the fresh [id]. *)
Definition insert_inventory_movement (values : Z -> InventoryMovement.t)
  : Db InventoryMovement.t :=
  fun st =>
    let row := values (inventory_movements_id_seq st) in
    (Ok row,
     {| productsTable := productsTable st;
        transactionsTable := transactionsTable st;
        transactionItemsTable := transactionItemsTable st;
        inventoryMovementsTable := inventoryMovementsTable st ++ [row];
        transactions_id_seq := transactions_id_seq st;
        transaction_items_id_seq := transaction_items_id_seq st;
        inventory_movements_id_seq := inventory_movements_id_seq st + 1 |}).

Definition insert_transaction_item (values : Z -> TransactionItem.t)
  : Db TransactionItem.t :=
  fun st =>
    let row := values (transaction_items_id_seq st) in
    (Ok row,
     {| productsTable := productsTable st;
        transactionsTable := transactionsTable st;
        transactionItemsTable := transactionItemsTable st ++ [row];
        inventoryMovementsTable := inventoryMovementsTable st;
        transactions_id_seq := transactions_id_seq st;
        transaction_items_id_seq := transaction_items_id_seq st + 1;
        inventory_movements_id_seq := inventory_movements_id_seq st |}).

Definition insert_transaction (row : Transaction.t) : Db (Z * Transaction.t) :=
  fun st =>
    let id := transactions_id_seq st in
    (Ok (id, row),
     {| productsTable := productsTable st;
        transactionsTable := <[id := row]> (transactionsTable st);
        transactionItemsTable := transactionItemsTable st;
        inventoryMovementsTable := inventoryMovementsTable st;
        transactions_id_seq := transactions_id_seq st + 1;
        transaction_items_id_seq := transaction_items_id_seq st;
        inventory_movements_id_seq := inventory_movements_id_seq st |}).

Definition select_transaction (id : Z) : Db (option Transaction.t) :=
  fun st => (Ok (transactionsTable st !! id), st).

(** [select().from(transactionItemsTable)
      .where(eq(transactionItemsTable.transaction_id, id))] *)
Definition select_transaction_items (id : Z) : Db (list TransactionItem.t) :=
  fun st =>
    (Ok (filter (fun it => TransactionItem.transaction_id it = id)
                (transactionItemsTable st)), st).

(** [update(transactionsTable).set(...).where(eq(transactionsTable.id, id))
      .returning()] *)
Definition update_transaction (id : Z) (set : Transaction.t -> Transaction.t)
  : Db (option Transaction.t) :=
  fun st =>
    let table := alter set id (transactionsTable st) in
    (Ok (table !! id),
     {| productsTable := productsTable st;
        transactionsTable := table;
        transactionItemsTable := transactionItemsTable st;
        inventoryMovementsTable := inventoryMovementsTable st;
        transactions_id_seq := transactions_id_seq st;
        transaction_items_id_seq := transaction_items_id_seq st;
        inventory_movements_id_seq := inventory_movements_id_seq st |}).

(** ** schema.ts: the inputs and what zod checks beyond their types

    The fields of an input carry the initials of its type:
    [cim_quantity] is [quantity] of [CreateInventoryMovementInput],
    [cti_] stands for an element of [items], [ct_] for
    [CreateTransactionInput] and [ut_] for [UpdateTransactionInput]. *)

Record CreateInventoryMovementInput := {
  cim_product_id : Z;
  cim_movement_type : InventoryMovementType;
  cim_quantity : Z;
  cim_reference_type : option string;
  cim_reference_id : option Z;
  cim_notes : option string }.

(** [createInventoryMovementInputSchema]: a number, an enum member, an
    integer and three nullable fields; nothing is asked of the sign of
    [quantity], and zero is an integer. *)
Definition createInventoryMovementInputSchema (input : CreateInventoryMovementInput) : bool :=
  true.

Record CreateTransactionItemInput := {
  cti_product_id : Z;
  cti_quantity : Z;
  cti_unit_price : number }.

Record CreateTransactionInput := {
  ct_customer_id : option Z;
  ct_user_id : Z;
  ct_total_amount : number;
  ct_discount_amount : number;
  ct_payment_method : option string;
  ct_notes : option string;
  ct_items : list CreateTransactionItemInput }.

(** [total_amount] positive, [discount_amount] nonnegative, every item
    with a positive [quantity] and a positive [unit_price]. *)
Definition createTransactionInputSchema (input : CreateTransactionInput) : bool :=
  positive_number (ct_total_amount input)
  && nonnegative_number (ct_discount_amount input)
  && forallb (fun item => (0 <? cti_quantity item)
                          && positive_number (cti_unit_price item))
             (ct_items input).

(** An optional field is [None] when the key is absent ([undefined]); a
    nullable and optional one is [Some None] when it is [null]. *)
Record UpdateTransactionInput := {
  ut_id : Z;
  ut_customer_id : option (option Z);
  ut_total_amount : option number;
  ut_discount_amount : option number;
  ut_status : option TransactionStatus;
  ut_payment_method : option (option string);
  ut_notes : option (option string) }.

Definition updateTransactionInputSchema (input : UpdateTransactionInput) : bool :=
  match ut_total_amount input with
  | Some t => positive_number t
  | None => true
  end
  && match ut_discount_amount input with
     | Some d => nonnegative_number d
     | None => true
     end.

(** ** handlers/create_inventory_movement.ts *)

(** The [stockChange] of a movement (lines 22-31). *)
Definition stockChange (movement_type : InventoryMovementType) (quantity : Z) : Z :=
  match movement_type with
  | mv_in => quantity
  | mv_out => - Z.abs quantity
  | mv_adjustment => quantity
  end.

Definition createInventoryMovement (now : Z) (input : CreateInventoryMovementInput)
  : Db InventoryMovement.t :=
  db_transaction (
    let! product := select_product (cim_product_id input) in
    match product with
    | None => throw (ProductNotFound (cim_product_id input))
    | Some product =>
      let currentStock := Product.stock_quantity product in
      let stockChange := stockChange (cim_movement_type input) (cim_quantity input) in
      let newStock := currentStock + stockChange in
      if newStock <? 0 then
        throw (InsufficientStock currentStock (Z.abs stockChange))
      else
        let! movement := insert_inventory_movement (fun id =>
          {| InventoryMovement.id := id;
             InventoryMovement.product_id := cim_product_id input;
             InventoryMovement.movement_type := cim_movement_type input;
             InventoryMovement.quantity := cim_quantity input;
             InventoryMovement.reference_type := cim_reference_type input;
             InventoryMovement.reference_id := cim_reference_id input;
             InventoryMovement.notes := cim_notes input;
             InventoryMovement.created_at := now |}) in
        update_product (cim_product_id input) (Product.set_stock newStock now) ;;;
        ret movement
    end).

(** [notes || null]: an absent or empty note is stored as [null]. *)
Definition notes_or_null (notes : option string) : option string :=
  match notes with
  | Some s => if decide (s = "") then None else Some s
  | None => None
  end.

Definition adjustInventory (now : Z) (productId quantity : Z) (notes : option string)
  : Db InventoryMovement.t :=
  createInventoryMovement now
    {| cim_product_id := productId;
       cim_movement_type := mv_adjustment;
       cim_quantity := quantity;
       cim_reference_type := Some "manual";
       cim_reference_id := None;
       cim_notes := notes_or_null notes |}.

(** ** handlers/create_transaction.ts *)

(** The body of the loop over [input.items] (lines 36-86). *)
Definition sell_item (now : Z) (transaction : Z * Transaction.t)
    (item : CreateTransactionItemInput) : Db unit :=
  (* Verify product exists and has sufficient stock *)
  let! productQuery := select_product (cti_product_id item) in
  match productQuery with
  | None => throw (ProductNotFound (cti_product_id item))
  | Some product =>
    if Product.stock_quantity product <? cti_quantity item then
      throw (InsufficientStock (Product.stock_quantity product) (cti_quantity item))
    else
      let totalPrice := (cti_unit_price item * inject_Z (cti_quantity item))%Q in
      insert_transaction_item (fun id =>
        {| TransactionItem.id := id;
           TransactionItem.transaction_id := fst transaction;
           TransactionItem.product_id := cti_product_id item;
           TransactionItem.quantity := cti_quantity item;
           TransactionItem.unit_price := numeric_10_2 (cti_unit_price item);
           TransactionItem.total_price := numeric_10_2 totalPrice;
           TransactionItem.created_at := now |}) ;;;
      (* 3. Update product stock quantity *)
      let newStockQuantity := Product.stock_quantity product - cti_quantity item in
      update_product (cti_product_id item) (Product.set_stock newStockQuantity now) ;;;
      (* 4. Create inventory movement record *)
      insert_inventory_movement (fun id =>
        {| InventoryMovement.id := id;
           InventoryMovement.product_id := cti_product_id item;
           InventoryMovement.movement_type := mv_out;
           InventoryMovement.quantity := - cti_quantity item;
           InventoryMovement.reference_type := Some "transaction";
           InventoryMovement.reference_id := Some (fst transaction);
           InventoryMovement.notes :=
             Some ("Sale via transaction #" +:+ pretty (fst transaction));
           InventoryMovement.created_at := now |}) ;;;
      ret tt
  end.

(** What runs inside [db.transaction] (lines 9-94). *)
Definition createTransaction_body (now : Z) (input : CreateTransactionInput)
  : Db (Z * Transaction.t) :=
  let finalAmount := (ct_total_amount input - ct_discount_amount input)%Q in
  (* 1. Create transaction record *)
  let! transaction := insert_transaction
    {| Transaction.customer_id := ct_customer_id input;
       Transaction.user_id := ct_user_id input;
       Transaction.total_amount := numeric_10_2 (ct_total_amount input);
       Transaction.discount_amount := numeric_10_2 (ct_discount_amount input);
       Transaction.final_amount := numeric_10_2 finalAmount;
       Transaction.status := completed;
       Transaction.payment_method := ct_payment_method input;
       Transaction.notes := ct_notes input;
       Transaction.created_at := now;
       Transaction.updated_at := now |} in
  (* 2. Create transaction items and update inventory *)
  for_of (ct_items input) (sell_item now transaction) ;;;
  ret transaction.

Definition createTransaction (now : Z) (input : CreateTransactionInput)
  : Db (Z * Transaction.t) :=
  db_transaction (createTransaction_body now input).

(** ** handlers/update_transaction.ts *)

(** The loop body of the completed -> cancelled branch (lines 104-124). *)
Definition restore_item (now transactionId : Z) (item : TransactionItem.t) : Db unit :=
  update_product (TransactionItem.product_id item) (fun p =>
    Product.set_stock (Product.stock_quantity p + TransactionItem.quantity item) now p) ;;;
  insert_inventory_movement (fun id =>
    {| InventoryMovement.id := id;
       InventoryMovement.product_id := TransactionItem.product_id item;
       InventoryMovement.movement_type := mv_in;
       InventoryMovement.quantity := TransactionItem.quantity item;
       InventoryMovement.reference_type := Some "transaction_cancellation";
       InventoryMovement.reference_id := Some transactionId;
       InventoryMovement.notes :=
         Some ("Stock restored from cancelled transaction " +:+ pretty transactionId);
       InventoryMovement.created_at := now |}) ;;;
  ret tt.

(** The loop body of the cancelled -> completed branch (lines 130-164). *)
Definition reduce_item (now transactionId : Z) (item : TransactionItem.t) : Db unit :=
  let! product := select_product (TransactionItem.product_id item) in
  match product with
  | None => throw (ProductNotFound (TransactionItem.product_id item))
  | Some product =>
    if Product.stock_quantity product <? TransactionItem.quantity item then
      throw (InsufficientStock (Product.stock_quantity product)
                               (TransactionItem.quantity item))
    else
      update_product (TransactionItem.product_id item) (fun p =>
        Product.set_stock (Product.stock_quantity p - TransactionItem.quantity item) now p) ;;;
      insert_inventory_movement (fun id =>
        {| InventoryMovement.id := id;
           InventoryMovement.product_id := TransactionItem.product_id item;
           InventoryMovement.movement_type := mv_out;
           InventoryMovement.quantity := TransactionItem.quantity item;
           InventoryMovement.reference_type := Some "transaction_completion";
           InventoryMovement.reference_id := Some transactionId;
           InventoryMovement.notes :=
             Some ("Stock reduced for completed transaction " +:+ pretty transactionId);
           InventoryMovement.created_at := now |}) ;;;
      ret tt
  end.

Definition handleStatusChange (now transactionId : Z)
    (currentStatus newStatus : TransactionStatus) : Db unit :=
  if decide (currentStatus = newStatus) then ret tt else
  let! items := select_transaction_items transactionId in
  if decide (length items = 0%nat) then ret tt else
  (if decide (currentStatus = completed /\ newStatus = cancelled)
   then for_of items (restore_item now transactionId)
   else ret tt) ;;;
  (if decide (currentStatus = cancelled /\ newStatus = completed)
   then for_of items (reduce_item now transactionId)
   else ret tt).

(** The [updateData] object applied to the stored row; [final_amount] is
    the value computed from the row read at the start of the call. *)
Definition updateData (now : Z) (input : UpdateTransactionInput) (final_amount : number)
    (row : Transaction.t) : Transaction.t :=
  {| Transaction.customer_id :=
       default (Transaction.customer_id row) (ut_customer_id input);
     Transaction.user_id := Transaction.user_id row;
     Transaction.total_amount :=
       default (Transaction.total_amount row) (numeric_10_2 <$> ut_total_amount input);
     Transaction.discount_amount :=
       default (Transaction.discount_amount row)
               (numeric_10_2 <$> ut_discount_amount input);
     Transaction.final_amount :=
       if decide (ut_total_amount input <> None \/ ut_discount_amount input <> None)
       then numeric_10_2 final_amount else Transaction.final_amount row;
     Transaction.status := default (Transaction.status row) (ut_status input);
     Transaction.payment_method :=
       default (Transaction.payment_method row) (ut_payment_method input);
     Transaction.notes := default (Transaction.notes row) (ut_notes input);
     Transaction.created_at := Transaction.created_at row;
     Transaction.updated_at := now |}.

Definition updateTransaction (now : Z) (input : UpdateTransactionInput)
  : Db (Z * Transaction.t) :=
  let! currentTransaction := select_transaction (ut_id input) in
  match currentTransaction with
  | None => throw (TransactionNotFound (ut_id input))
  | Some current =>
    let currentStatus := Transaction.status current in
    let newStatus := default currentStatus (ut_status input) in
    (* Handle inventory adjustments if status is changing *)
    (match ut_status input with
     | Some status =>
       if decide (status <> currentStatus)
       then handleStatusChange now (ut_id input) currentStatus newStatus
       else ret tt
     | None => ret tt
     end) ;;;
    let final_amount :=
      if decide (ut_total_amount input <> None \/ ut_discount_amount input <> None)
      then
        let total :=
          default (parseFloat (Transaction.total_amount current))
                  (ut_total_amount input) in
        let discount :=
          default (parseFloat (Transaction.discount_amount current))
                  (ut_discount_amount input) in
        (total - discount)%Q
      else parseFloat (Transaction.final_amount current) in
    let! result := update_transaction (ut_id input) (updateData now input final_amount) in
    match result with
    | Some transaction => ret (ut_id input, transaction)
    | None => throw TypeError
    end
  end.

(** ** index.ts: a procedure parses its input with the schema and then
    calls the handler *)

Module appRouter.
Definition createInventoryMovement (now : Z) (input : CreateInventoryMovementInput)
  : Db InventoryMovement.t :=
  if createInventoryMovementInputSchema input
  then createInventoryMovement now input else throw ZodError.

Definition adjustInventory (now : Z) (productId quantity : Z) (notes : option string)
  : Db InventoryMovement.t :=
  adjustInventory now productId quantity notes.

Definition createTransaction (now : Z) (input : CreateTransactionInput)
  : Db (Z * Transaction.t) :=
  if createTransactionInputSchema input
  then createTransaction now input else throw ZodError.

Definition updateTransaction (now : Z) (input : UpdateTransactionInput)
  : Db (Z * Transaction.t) :=
  if updateTransactionInputSchema input
  then updateTransaction now input else throw ZodError.
End appRouter.

(** * Vocabulary of the properties *)

(** ** Reading the store *)

(** The [stock_quantity] of a product, if the store has the product. *)
Definition stock_of (st : Store) (product_id : Z) : option Z :=
  Product.stock_quantity <$> productsTable st !! product_id.

(** Two stores with the same rows in the four tables. *)
Definition same_rows (st st' : Store) : Prop :=
  productsTable st' = productsTable st
  /\ transactionsTable st' = transactionsTable st
  /\ transactionItemsTable st' = transactionItemsTable st
  /\ inventoryMovementsTable st' = inventoryMovementsTable st.

(** ** The invariant of the stock subsystem *)

(** No product has a negative stock, every line item has a positive
    quantity, and every line item is of a product of the store. *)
Record consistent (st : Store) : Prop := {
  stock_nonneg :
    forall id p, productsTable st !! id = Some p -> 0 <= Product.stock_quantity p;
  items_positive :
    Forall (fun it => 0 < TransactionItem.quantity it) (transactionItemsTable st);
  items_have_products :
    Forall (fun it => is_Some (productsTable st !! TransactionItem.product_id it))
           (transactionItemsTable st) }.

(** ** Requests *)

(** The four procedures of the router that write stock. *)
Inductive Request :=
  | CreateInventoryMovement (now : Z) (input : CreateInventoryMovementInput)
  | AdjustInventory (now : Z) (productId quantity : Z) (notes : option string)
  | CreateTransaction (now : Z) (input : CreateTransactionInput)
  | UpdateTransaction (now : Z) (input : UpdateTransactionInput).

(** The store after a request, whether it was answered or rejected. *)
Definition serve (st : Store) (r : Request) : Store :=
  match r with
  | CreateInventoryMovement now input =>
      snd (appRouter.createInventoryMovement now input st)
  | AdjustInventory now productId quantity notes =>
      snd (appRouter.adjustInventory now productId quantity notes st)
  | CreateTransaction now input => snd (appRouter.createTransaction now input st)
  | UpdateTransaction now input => snd (appRouter.updateTransaction now input st)
  end.

Definition serve_all (st : Store) (rs : list Request) : Store := foldl serve st rs.

(** ** A shop to run the handlers in *)

Module Shop.
Definition product (name : string) (stock : Z) : Product.t :=
  {| Product.name := name; Product.description := None; Product.price := 1000;
     Product.stock_quantity := stock; Product.min_stock_level := 0;
     Product.category := None; Product.sku := None; Product.is_active := true;
     Product.created_at := 0; Product.updated_at := 0 |}.

(** Products 1 and 2 with the given stocks, and nothing else. *)
Definition opened (stock1 stock2 : Z) : Store :=
  {| productsTable := {[ 1 := product "Product 1" stock1;
                         2 := product "Product 2" stock2 ]};
     transactionsTable := ∅;
     transactionItemsTable := [];
     inventoryMovementsTable := [];
     transactions_id_seq := 1;
     transaction_items_id_seq := 1;
     inventory_movements_id_seq := 1 |}.

Definition movement (product_id : Z) (movement_type : InventoryMovementType)
    (quantity : Z) : CreateInventoryMovementInput :=
  {| cim_product_id := product_id; cim_movement_type := movement_type;
     cim_quantity := quantity; cim_reference_type := None;
     cim_reference_id := None; cim_notes := None |}.

Definition item (product_id quantity : Z) : CreateTransactionItemInput :=
  {| cti_product_id := product_id; cti_quantity := quantity;
     cti_unit_price := 10%Q |}.

Definition sale (items : list CreateTransactionItemInput) : CreateTransactionInput :=
  {| ct_customer_id := None; ct_user_id := 1; ct_total_amount := 60%Q;
     ct_discount_amount := 0%Q; ct_payment_method := Some "cash";
     ct_notes := None; ct_items := items |}.

Definition set_status (id : Z) (status : TransactionStatus) : UpdateTransactionInput :=
  {| ut_id := id; ut_customer_id := None; ut_total_amount := None;
     ut_discount_amount := None; ut_status := Some status;
     ut_payment_method := None; ut_notes := None |}.

(** The row [createTransaction] stores for a sale. *)
Definition sale_row (input : CreateTransactionInput) (now : Z) : Transaction.t :=
  {| Transaction.customer_id := ct_customer_id input;
     Transaction.user_id := ct_user_id input;
     Transaction.total_amount := numeric_10_2 (ct_total_amount input);
     Transaction.discount_amount := numeric_10_2 (ct_discount_amount input);
     Transaction.final_amount :=
       numeric_10_2 (ct_total_amount input - ct_discount_amount input)%Q;
     Transaction.status := completed;
     Transaction.payment_method := ct_payment_method input;
     Transaction.notes := ct_notes input;
     Transaction.created_at := now;
     Transaction.updated_at := now |}.

(** Thirty units out of product 1, and the row the call returns when it
    is the first movement of the shop. *)
Definition thirty_out : Db InventoryMovement.t :=
  createInventoryMovement 1 (movement 1 mv_out 30).

Definition thirty_out_row : InventoryMovement.t :=
  {| InventoryMovement.id := 1;
     InventoryMovement.product_id := 1;
     InventoryMovement.movement_type := mv_out;
     InventoryMovement.quantity := 30;
     InventoryMovement.reference_type := None;
     InventoryMovement.reference_id := None;
     InventoryMovement.notes := None;
     InventoryMovement.created_at := 1 |}.
End Shop.

Module Duplicate.
(** A sale with two lines of product 1 (1 and 5 units) out of a stock
    of 9, cancelled, after which 6 units leave the shelf by hand. *)
Definition history : list Request :=
  [ CreateTransaction 1 (Shop.sale [Shop.item 1 1; Shop.item 1 5]);
    UpdateTransaction 2 (Shop.set_status 1 cancelled);
    CreateInventoryMovement 3 (Shop.movement 1 mv_out 6) ].

Definition before : Store := serve_all (Shop.opened 9 0) history.

Definition completion : Db (Z * Transaction.t) :=
  appRouter.updateTransaction 4 (Shop.set_status 1 completed).
End Duplicate.

Module Partial.
(** A sale of one unit each of products 1 and 2, cancelled, after which
    the last unit of product 2 leaves the shelf by hand. *)
Definition history : list Request :=
  [ CreateTransaction 1 (Shop.sale [Shop.item 1 1; Shop.item 2 1]);
    UpdateTransaction 2 (Shop.set_status 1 cancelled);
    CreateInventoryMovement 3 (Shop.movement 2 mv_out 1) ].

Definition before : Store := serve_all (Shop.opened 100 1) history.

Definition completion : Db (Z * Transaction.t) :=
  appRouter.updateTransaction 4 (Shop.set_status 1 completed).
End Partial.

(** ** Statements about handlers *)

(** The statement under test for C3: the [quantity] of the row returned
    and stored by a successful call is the change of the product's stock,
    and is negative for an ['out'] movement. *)
Definition ledger_quantity_is_delta (now : Z) (input : CreateInventoryMovementInput)
    (st : Store) : Prop :=
  forall m st',
    createInventoryMovement now input st = (Ok m, st') ->
    (forall before after,
       stock_of st (cim_product_id input) = Some before ->
       stock_of st' (cim_product_id input) = Some after ->
       InventoryMovement.quantity m = after - before)
    /\ (cim_movement_type input = mv_out -> InventoryMovement.quantity m < 0).

(** The line items of a transaction, in the order the handler reads them. *)
Definition items_of (st : Store) (transactionId : Z) : list TransactionItem.t :=
  filter (fun it => TransactionItem.transaction_id it = transactionId)
         (transactionItemsTable st).

(** The two status changes with an inventory action: completed to
    cancelled and cancelled to completed. *)
Definition crosses_boundary (from : TransactionStatus) (to : option TransactionStatus)
  : bool :=
  match from, to with
  | completed, Some cancelled => true
  | cancelled, Some completed => true
  | _, _ => false
  end.

(** The operands in effect after a patch: the patched value when the patch
    has one, the stored value otherwise. *)
Definition effective_total (input : UpdateTransactionInput) (current : Transaction.t)
  : number :=
  match ut_total_amount input with
  | Some total => total
  | None => parseFloat (Transaction.total_amount current)
  end.

Definition effective_discount (input : UpdateTransactionInput) (current : Transaction.t)
  : number :=
  match ut_discount_amount input with
  | Some discount => discount
  | None => parseFloat (Transaction.discount_amount current)
  end.

(** The statement under test for C7: the [final_amount] stored by a
    successful call is the effective total minus the effective discount
    when the patch has one of the two, and the one stored before when it
    has neither. *)
Definition final_amount_is_difference (now : Z) (input : UpdateTransactionInput)
    (st : Store) : Prop :=
  forall id t st' current,
    updateTransaction now input st = (Ok (id, t), st') ->
    transactionsTable st !! ut_id input = Some current ->
    (ut_total_amount input <> None \/ ut_discount_amount input <> None ->
     (parseFloat (Transaction.final_amount t)
      == effective_total input current - effective_discount input current)%Q)
    /\ (ut_total_amount input = None -> ut_discount_amount input = None ->
        Transaction.final_amount t = Transaction.final_amount current).

(** The amounts of a patch are in whole cents. *)
Definition patch_in_cents (input : UpdateTransactionInput) : Prop :=
  from_option whole_cents True (ut_total_amount input)
  /\ from_option whole_cents True (ut_discount_amount input).

Module Discount.
(** One sale of 60.00 without discount, then a patch that sets the
    discount to 10.00 and the payment method. *)
Definition before : Store :=
  serve (Shop.opened 100 50) (CreateTransaction 1 (Shop.sale [Shop.item 1 2])).

Definition patch : UpdateTransactionInput :=
  {| ut_id := 1; ut_customer_id := None; ut_total_amount := None;
     ut_discount_amount := Some 10%Q; ut_status := None;
     ut_payment_method := Some (Some "credit_card"); ut_notes := None |}.

Definition patched : Transaction.t :=
  {| Transaction.customer_id := None;
     Transaction.user_id := 1;
     Transaction.total_amount := 6000;
     Transaction.discount_amount := 1000;
     Transaction.final_amount := 5000;
     Transaction.status := completed;
     Transaction.payment_method := Some "credit_card";
     Transaction.notes := None;
     Transaction.created_at := 1;
     Transaction.updated_at := 2 |}.
End Discount.

Module HalfCent.
(** The same sale, then a patch that sets the discount to half a cent. *)
Definition patch : UpdateTransactionInput :=
  {| ut_id := 1; ut_customer_id := None; ut_total_amount := None;
     ut_discount_amount := Some 0.005%Q; ut_status := None;
     ut_payment_method := None; ut_notes := None |}.

Definition patched : Transaction.t :=
  {| Transaction.customer_id := None;
     Transaction.user_id := 1;
     Transaction.total_amount := 6000;
     Transaction.discount_amount := 1;
     Transaction.final_amount := 6000;
     Transaction.status := completed;
     Transaction.payment_method := Some "cash";
     Transaction.notes := None;
     Transaction.created_at := 1;
     Transaction.updated_at := 2 |}.
End HalfCent.

Module Pending.
(** A sale put back to pending. *)
Definition before : Store :=
  serve_all (Shop.opened 100 50)
    [ CreateTransaction 1 (Shop.sale [Shop.item 1 1; Shop.item 2 1]);
      UpdateTransaction 2 (Shop.set_status 1 pending) ].
End Pending.

(** The units of a product on the lines of a transaction. *)
Fixpoint units_of (product_id : Z) (items : list TransactionItem.t) : Z :=
  match items with
  | [] => 0
  | item :: rest =>
    (if decide (TransactionItem.product_id item = product_id)
     then TransactionItem.quantity item else 0)
    + units_of product_id rest
  end.

(** [rows] are ledger rows written for [items], one per line and in the
    order of the lines, with the given type and reference. *)
Definition ledger_rows_for (movement_type : InventoryMovementType)
    (reference_type : string) (transactionId : Z)
    (items : list TransactionItem.t) (rows : list InventoryMovement.t) : Prop :=
  Forall2 (fun item m =>
             InventoryMovement.product_id m = TransactionItem.product_id item
             /\ InventoryMovement.movement_type m = movement_type
             /\ InventoryMovement.quantity m = TransactionItem.quantity item
             /\ InventoryMovement.reference_type m = Some reference_type
             /\ InventoryMovement.reference_id m = Some transactionId)
          items rows.

Module RoundTrip.
(** A sale of 30 units of product 1 out of a stock of 100, as in the
    scenarios of the design. *)
Definition before : Store :=
  serve (Shop.opened 100 50) (CreateTransaction 1 (Shop.sale [Shop.item 1 30])).

(** The sale is cancelled and then completed again. *)
Definition after_cancel : Store :=
  snd (updateTransaction 2 (Shop.set_status 1 cancelled) before).

Definition after_complete : Store :=
  snd (updateTransaction 3 (Shop.set_status 1 completed) after_cancel).

(** The row of the sale with another status, last written at [now]. *)
Definition row (status : TransactionStatus) (now : Z) : Transaction.t :=
  {| Transaction.customer_id := None;
     Transaction.user_id := 1;
     Transaction.total_amount := 6000;
     Transaction.discount_amount := 0;
     Transaction.final_amount := 6000;
     Transaction.status := status;
     Transaction.payment_method := Some "cash";
     Transaction.notes := None;
     Transaction.created_at := 1;
     Transaction.updated_at := now |}.
End RoundTrip.

(** * The rest of the stock subsystem *)

(** ** Relations between the store before and after a computation *)

(** [m] takes every store to one that is [R]-related to it, whether it
    returns or throws. *)
Definition keeps {A} (R : Store -> Store -> Prop) (m : Db A) : Prop :=
  forall st, R st (snd (m st)).

(** ** The ledger read as changes of stock *)

(** The change of stock that a ledger row stands for, read with the
    handler's own [stockChange]: the quantity of an ['in'] or
    ['adjustment'] row, minus the magnitude of the quantity of an ['out']
    row. *)
Definition row_delta (m : InventoryMovement.t) : Z :=
  stockChange (InventoryMovement.movement_type m) (InventoryMovement.quantity m).

(** The sum of the changes of the rows of one product. *)
Fixpoint ledger_total (product_id : Z) (rows : list InventoryMovement.t) : Z :=
  match rows with
  | [] => 0
  | m :: rest =>
    (if decide (InventoryMovement.product_id m = product_id) then row_delta m else 0)
    + ledger_total product_id rest
  end.

(** The stock a product would have without its ledger rows. *)
Definition unledgered (st : Store) (product_id : Z) : option Z :=
  (fun s => s - ledger_total product_id (inventoryMovementsTable st))
    <$> stock_of st product_id.

(** Every product has the same stock without its ledger rows in both
    stores. *)
Definition same_unledgered (st st' : Store) : Prop :=
  forall product_id, unledgered st' product_id = unledgered st product_id.

(** ** A day in the shop *)

Module Day.
(** A sale of two lines of product 1 and one of product 2, a delivery, a
    cancellation, a manual removal, a completion that is rejected at its
    second line, a correction, a sale that the schema rejects and a sale
    that is rolled back at its second line. *)
Definition requests : list Request :=
  [ CreateTransaction 1 (Shop.sale [Shop.item 1 1; Shop.item 1 5; Shop.item 2 2]);
    CreateInventoryMovement 2 (Shop.movement 2 mv_in 10);
    UpdateTransaction 3 (Shop.set_status 1 cancelled);
    CreateInventoryMovement 4 (Shop.movement 1 mv_out 6);
    UpdateTransaction 5 (Shop.set_status 1 completed);
    AdjustInventory 6 2 (-3) (Some "damage");
    CreateTransaction 7 (Shop.sale [Shop.item 1 0]);
    CreateTransaction 8 (Shop.sale [Shop.item 2 1; Shop.item 1 100]) ].

Definition morning : Store := Shop.opened 9 4.

Definition evening : Store := serve_all morning requests.
End Day.

(** ** What the write requests leave alone *)

(** The columns of a product other than [stock_quantity] and
    [updated_at]. *)
Definition product_card (p : Product.t)
  : string * option string * Z * Z * option string * option string * bool * Z :=
  (Product.name p, Product.description p, Product.price p,
   Product.min_stock_level p, Product.category p, Product.sku p,
   Product.is_active p, Product.created_at p).

(** [st'] has the ledger rows and the line items of [st], in the same
    order and possibly followed by more, and the same products with the
    same columns other than [stock_quantity] and [updated_at]. *)
Record grows (st st' : Store) : Prop := {
  grows_movements :
    inventoryMovementsTable st `prefix_of` inventoryMovementsTable st';
  grows_items : transactionItemsTable st `prefix_of` transactionItemsTable st';
  grows_products :
    forall product_id,
      product_card <$> productsTable st' !! product_id
      = product_card <$> productsTable st !! product_id }.

(** ** Sequences and ids *)

(** Every sequence is ahead of the ids of its table, and the ids of the
    line items and of the ledger rows are pairwise distinct. *)
Record fresh (st : Store) : Prop := {
  fresh_transactions :
    forall id t, transactionsTable st !! id = Some t -> id < transactions_id_seq st;
  fresh_items :
    Forall (fun it => TransactionItem.id it < transaction_items_id_seq st)
           (transactionItemsTable st);
  fresh_items_distinct : NoDup (TransactionItem.id <$> transactionItemsTable st);
  fresh_movements :
    Forall (fun m => InventoryMovement.id m < inventory_movements_id_seq st)
           (inventoryMovementsTable st);
  fresh_movements_distinct : NoDup (InventoryMovement.id <$> inventoryMovementsTable st) }.

(** No sequence of [st'] is behind the one of [st], and [st'] is fresh
    if [st] is. *)
Record advances (st st' : Store) : Prop := {
  advances_transactions : transactions_id_seq st <= transactions_id_seq st';
  advances_items : transaction_items_id_seq st <= transaction_items_id_seq st';
  advances_movements : inventory_movements_id_seq st <= inventory_movements_id_seq st';
  advances_fresh : fresh st -> fresh st' }.

(** ** What a sale writes *)

(** The units of a product on the lines of a sale. *)
Fixpoint ordered (product_id : Z) (items : list CreateTransactionItemInput) : Z :=
  match items with
  | [] => 0
  | item :: rest =>
    (if decide (cti_product_id item = product_id) then cti_quantity item else 0)
    + ordered product_id rest
  end.

(** [row] is the line item stored for [item]; its total price is the
    unit price times the quantity when the unit price of the item is in
    whole cents. *)
Definition line_of (transactionId now : Z) (item : CreateTransactionItemInput)
    (row : TransactionItem.t) : Prop :=
  TransactionItem.transaction_id row = transactionId
  /\ TransactionItem.product_id row = cti_product_id item
  /\ TransactionItem.quantity row = cti_quantity item
  /\ TransactionItem.unit_price row = numeric_10_2 (cti_unit_price item)
  /\ (whole_cents (cti_unit_price item) ->
      TransactionItem.total_price row
      = TransactionItem.unit_price row * TransactionItem.quantity row)
  /\ TransactionItem.created_at row = now.

(** [m] is the ledger row stored for [item]. *)
Definition sold_row_of (transactionId now : Z) (item : CreateTransactionItemInput)
    (m : InventoryMovement.t) : Prop :=
  InventoryMovement.product_id m = cti_product_id item
  /\ InventoryMovement.movement_type m = mv_out
  /\ InventoryMovement.quantity m = - cti_quantity item
  /\ InventoryMovement.reference_type m = Some "transaction"
  /\ InventoryMovement.reference_id m = Some transactionId
  /\ InventoryMovement.created_at m = now.

(** Every line of the sale is of a product of the store whose stock
    covers all the lines of that product. *)
Definition covered (st : Store) (items : list CreateTransactionItemInput) : Prop :=
  forall item,
    item ∈ items ->
    exists s,
      stock_of st (cti_product_id item) = Some s
      /\ ordered (cti_product_id item) items <= s.

Module Counter.
(** Two lines of product 1 and one of product 2 over a stock of 6 and 2. *)
Definition order : CreateTransactionInput :=
  Shop.sale [Shop.item 1 1; Shop.item 2 2; Shop.item 1 5].

Definition before : Store := Shop.opened 6 2.

Definition after : Store := snd (createTransaction 1 order before).

(** A sale without lines. *)
Definition nothing : CreateTransactionInput := Shop.sale [].
End Counter.

(** ** Paths of status changes *)

(** How many times the units of a transaction go back on the shelf when
    its status goes from [from] to [to]: once for completed to cancelled,
    minus once for cancelled to completed, not at all otherwise. *)
Definition restocked (from to : TransactionStatus) : Z :=
  match from, to with
  | completed, cancelled => 1
  | cancelled, completed => -1
  | _, _ => 0
  end.

(** The same, along the statuses that a list of patches sets in turn; a
    patch without status keeps the status. *)
Fixpoint net_restocked (from : TransactionStatus) (patches : list UpdateTransactionInput)
  : Z :=
  match patches with
  | [] => 0
  | input :: rest =>
    let to := default from (ut_status input) in
    restocked from to + net_restocked to rest
  end.

(** [updateTransaction] returns on each patch in turn, at the given
    times, and takes [st] to [st']. *)
Fixpoint updated_by (patches : list (Z * UpdateTransactionInput)) (st st' : Store)
  : Prop :=
  match patches with
  | [] => st' = st
  | (now, input) :: rest =>
    exists r st1,
      updateTransaction now input st = (Ok r, st1) /\ updated_by rest st1 st'
  end.

Module Undo.
(** Fifteen units are taken off a stock of 70 by hand and put back. *)
Definition before : Store := Shop.opened 70 0.

Definition between : Store :=
  snd (adjustInventory 1 1 (-15) (Some "damage") before).

Definition after : Store := snd (adjustInventory 2 1 (- -15) None between).

(** The ledger row of an adjustment of product 1. *)
Definition row (id quantity : Z) (notes : option string) (now : Z)
  : InventoryMovement.t :=
  {| InventoryMovement.id := id;
     InventoryMovement.product_id := 1;
     InventoryMovement.movement_type := mv_adjustment;
     InventoryMovement.quantity := quantity;
     InventoryMovement.reference_type := Some "manual";
     InventoryMovement.reference_id := None;
     InventoryMovement.notes := notes;
     InventoryMovement.created_at := now |}.
End Undo.

Module Reopen.
(** A completed sale of 30 units is cancelled, set to pending and then
    to completed. *)
Definition patches : list (Z * UpdateTransactionInput) :=
  [ (2, Shop.set_status 1 cancelled);
    (3, Shop.set_status 1 pending);
    (4, Shop.set_status 1 completed) ].

Definition after : Store :=
  snd (updateTransaction 4 (Shop.set_status 1 completed)
         (snd (updateTransaction 3 (Shop.set_status 1 pending)
                 (snd (updateTransaction 2 (Shop.set_status 1 cancelled)
                         RoundTrip.before))))).
End Reopen.

(** * Products and the read side

    server/src/handlers/update_product.ts, delete_product.ts,
    get_products.ts, generate_inventory_report.ts and
    get_inventory_movements.ts.

    A [select] without [orderBy] returns its rows in an order that the
    database chooses: the rows of [products] are listed by [map_to_list],
    and no property depends on their order.  An [orderBy] leaves the order
    of rows with equal keys to the database as well: the rows are sorted
    by [merge_sort], and the properties hold for any order of equal
    keys. *)

(** ** Errors of the product handlers *)

Inductive ProductError :=
  | ProductIdNotFound (id : Z)     (* Product with id ${id} not found *)
  | SkuExists (sku : string)       (* SKU '${sku}' already exists for another product *)
  | ProductZodError                (* the input does not parse *)
  | ProductTypeError.              (* result[0] of an empty result *)

(** A product handler returns ([inr]) or throws ([inl]). *)
Definition ProductDb (A : Type) : Type := Store -> (ProductError + A) * Store.

(** [select().from(productsTable).where(cond)], rows with their ids. *)
Definition select_products (cond : Z * Product.t -> Prop)
    `{!forall row, Decision (cond row)} (st : Store) : list (Z * Product.t) :=
  filter cond (map_to_list (productsTable st)).

(** ** update_product.ts *)

(** A field that is [undefined] is [None]; a nullable field that is given
    as [null] is [Some None]. *)
Record UpdateProductInput := mkUpdateProductInput {
  up_id : Z;
  up_name : option string;
  up_description : option (option string);
  up_price : option number;
  up_stock_quantity : option Z;
  up_min_stock_level : option Z;
  up_category : option (option string);
  up_sku : option (option string);
  up_is_active : option bool }.

(** [s.length] for the string whose UTF-8 bytes are [s]: one UTF-16 code
    unit for a character of one, two or three bytes, two for a character
    of four bytes, none for a continuation byte. *)
Fixpoint js_length (s : string) : Z :=
  match s with
  | EmptyString => 0
  | String c rest =>
    let byte := Z.of_N (Ascii.N_of_ascii c) in
    (if byte <? 128 then 1
     else if byte <? 192 then 0
     else if byte <? 240 then 1
     else 2)
    + js_length rest
  end.

(** schema.ts, [updateProductInputSchema]. *)
Definition updateProductInputSchema (input : UpdateProductInput) : bool :=
  from_option (fun name => (1 <=? js_length name) && (js_length name <=? 255))
              true (up_name input)
  && from_option positive_number true (up_price input)
  && from_option (fun q => 0 <=? q) true (up_stock_quantity input)
  && from_option (fun q => 0 <=? q) true (up_min_stock_level input).

(** [updateData]: [updated_at] and the fields that the input provides, the
    price as the column holds it. *)
Definition productUpdateData (now : Z) (input : UpdateProductInput) (p : Product.t)
  : Product.t :=
  {| Product.name := default (Product.name p) (up_name input);
     Product.description := default (Product.description p) (up_description input);
     Product.price := default (Product.price p) (numeric_10_2 <$> up_price input);
     Product.stock_quantity := default (Product.stock_quantity p) (up_stock_quantity input);
     Product.min_stock_level :=
       default (Product.min_stock_level p) (up_min_stock_level input);
     Product.category := default (Product.category p) (up_category input);
     Product.sku := default (Product.sku p) (up_sku input);
     Product.is_active := default (Product.is_active p) (up_is_active input);
     Product.created_at := Product.created_at p;
     Product.updated_at := now |}.

Definition updateProduct (now : Z) (input : UpdateProductInput)
  : ProductDb (Z * Product.t) :=
  fun st =>
    (* Check if product exists *)
    let existingProduct := select_products (fun row => row.1 = up_id input) st in
    if decide (length existingProduct = 0%nat)
    then (inl (ProductIdNotFound (up_id input)), st)
    else
      (* If SKU is being updated, check for uniqueness *)
      let conflict :=
        match up_sku input with
        | Some (Some sku) =>
          let existingSkuProduct :=
            select_products
              (fun row => Product.sku row.2 = Some sku /\ row.1 <> up_id input) st in
          if decide (0 < length existingSkuProduct)%nat then Some sku else None
        | _ => None
        end in
      match conflict with
      | Some sku => (inl (SkuExists sku), st)
      | None =>
        (* Update the product *)
        let st' := snd (update_product (up_id input) (productUpdateData now input) st) in
        match productsTable st' !! up_id input with
        | Some product => (inr (up_id input, product), st')
        | None => (inl ProductTypeError, st')
        end
      end.

(** index.ts, [updateProduct]. *)
Definition appRouter_updateProduct (now : Z) (input : UpdateProductInput)
  : ProductDb (Z * Product.t) :=
  if updateProductInputSchema input
  then updateProduct now input
  else fun st => (inl ProductZodError, st).

(** ** delete_product.ts *)

Record DeleteProductResult := mkDeleteProductResult { success : bool }.

(** [.set({ is_active: false, updated_at: new Date() })] *)
Definition set_inactive (now : Z) (p : Product.t) : Product.t :=
  {| Product.name := Product.name p; Product.description := Product.description p;
     Product.price := Product.price p;
     Product.stock_quantity := Product.stock_quantity p;
     Product.min_stock_level := Product.min_stock_level p;
     Product.category := Product.category p; Product.sku := Product.sku p;
     Product.is_active := false;
     Product.created_at := Product.created_at p; Product.updated_at := now |}.

Definition deleteProduct (now : Z) (id : Z) : ProductDb DeleteProductResult :=
  fun st =>
    (* First, check if the product exists *)
    match select_products (fun row => row.1 = id) st with
    | [] => (inl (ProductIdNotFound id), st)
    | (_, product) :: _ =>
      (* Check if product is already inactive *)
      if negb (Product.is_active product)
      then (inr {| success := true |}, st)
      else
        (* the transaction history is read and takes no part in what
           follows: the product is soft deleted in either case *)
        let transactionHistory :=
          take 1 (filter (fun it => TransactionItem.product_id it = id)
                         (transactionItemsTable st)) in
        let st' := snd (update_product id (set_inactive now) st) in
        (inr {| success := true |}, st')
    end.

(** ** get_products.ts *)

Definition getProducts (st : Store) : list (Z * Product.t) :=
  select_products (fun row => Product.is_active row.2 = true) st.

Definition getProductById (id : Z) (st : Store) : option (Z * Product.t) :=
  match take 1 (select_products
                  (fun row => row.1 = id /\ Product.is_active row.2 = true) st) with
  | [] => None
  | product :: _ => Some product
  end.

Definition getLowStockProducts (st : Store) : list (Z * Product.t) :=
  select_products
    (fun row => Product.stock_quantity row.2 <= Product.min_stock_level row.2
                /\ Product.is_active row.2 = true) st.

(** ** generate_inventory_report.ts *)

Module LowStockProduct.
Record t := mk {
  product_id : Z;
  product_name : string;
  current_stock : Z;
  min_stock_level : Z }.
End LowStockProduct.

Module OutOfStockProduct.
Record t := mk {
  product_id : Z;
  product_name : string }.
End OutOfStockProduct.

(** [total_inventory_value] is in hundredths and exact; the source adds
    floating-point products, whose rounding is not modelled, and no
    property is stated of this field. *)
Module InventoryReport.
Record t := mk {
  total_products : Z;
  low_stock_products : list LowStockProduct.t;
  out_of_stock_products : list OutOfStockProduct.t;
  total_inventory_value : Z }.
End InventoryReport.

Definition generateInventoryReport (st : Store) : InventoryReport.t :=
  (* Get all active products *)
  let products := select_products (fun row => Product.is_active row.2 = true) st in
  let totalProducts := Z.of_nat (length products) in
  let lowStockProducts :=
    (fun row : Z * Product.t =>
       {| LowStockProduct.product_id := row.1;
          LowStockProduct.product_name := Product.name row.2;
          LowStockProduct.current_stock := Product.stock_quantity row.2;
          LowStockProduct.min_stock_level := Product.min_stock_level row.2 |})
    <$> filter (fun row : Z * Product.t =>
                  Product.stock_quantity row.2 <= Product.min_stock_level row.2
                  /\ 0 < Product.stock_quantity row.2) products in
  let outOfStockProducts :=
    (fun row : Z * Product.t =>
       {| OutOfStockProduct.product_id := row.1;
          OutOfStockProduct.product_name := Product.name row.2 |})
    <$> filter (fun row : Z * Product.t => Product.stock_quantity row.2 = 0) products in
  let totalInventoryValue :=
    foldl (fun total (row : Z * Product.t) =>
             total + Product.stock_quantity row.2 * Product.price row.2) 0 products in
  {| InventoryReport.total_products := totalProducts;
     InventoryReport.low_stock_products := lowStockProducts;
     InventoryReport.out_of_stock_products := outOfStockProducts;
     InventoryReport.total_inventory_value := totalInventoryValue |}.

Module LowStockAlert.
Record t := mk {
  id : Z;
  name : string;
  current_stock : Z;
  min_stock_level : Z;
  price : Z;
  category : option string;
  sku : option string }.
End LowStockAlert.

Module OutOfStockAlert.
Record t := mk {
  id : Z;
  name : string;
  price : Z;
  category : option string;
  sku : option string;
  min_stock_level : Z }.
End OutOfStockAlert.

Module StockAlerts.
Record t := mk {
  low_stock : list LowStockAlert.t;
  out_of_stock : list OutOfStockAlert.t }.
End StockAlerts.

Definition getStockAlerts (st : Store) : StockAlerts.t :=
  (* Get products with stock alerts - only active products *)
  let products := select_products (fun row => Product.is_active row.2 = true) st in
  let lowStock :=
    (fun row : Z * Product.t =>
       {| LowStockAlert.id := row.1;
          LowStockAlert.name := Product.name row.2;
          LowStockAlert.current_stock := Product.stock_quantity row.2;
          LowStockAlert.min_stock_level := Product.min_stock_level row.2;
          LowStockAlert.price := Product.price row.2;
          LowStockAlert.category := Product.category row.2;
          LowStockAlert.sku := Product.sku row.2 |})
    <$> filter (fun row : Z * Product.t =>
                  Product.stock_quantity row.2 <= Product.min_stock_level row.2
                  /\ 0 < Product.stock_quantity row.2) products in
  let outOfStock :=
    (fun row : Z * Product.t =>
       {| OutOfStockAlert.id := row.1;
          OutOfStockAlert.name := Product.name row.2;
          OutOfStockAlert.price := Product.price row.2;
          OutOfStockAlert.category := Product.category row.2;
          OutOfStockAlert.sku := Product.sku row.2;
          OutOfStockAlert.min_stock_level := Product.min_stock_level row.2 |})
    <$> filter (fun row : Z * Product.t => Product.stock_quantity row.2 = 0) products in
  {| StockAlerts.low_stock := lowStock; StockAlerts.out_of_stock := outOfStock |}.

(** ** get_inventory_movements.ts *)

Inductive OrderBy := order_by_created_at | order_by_quantity.

Inductive OrderDirection := asc | desc.

(** A key that is absent is [None]. *)
Record GetInventoryMovementsParams := mkGetInventoryMovementsParams {
  gim_product_id : option Z;
  gim_movement_type : option InventoryMovementType;
  gim_start_date : option Z;
  gim_end_date : option Z;
  gim_reference_type : option string;
  gim_reference_id : option Z;
  gim_limit : option Z;
  gim_offset : option Z;
  gim_order_by : option OrderBy;
  gim_order_direction : option OrderDirection }.

(** The conjunction of the conditions that the parameters push; a
    comparison with a [null] column does not hold. *)
Definition conditions (params : GetInventoryMovementsParams) (m : InventoryMovement.t)
  : bool :=
  from_option (fun id => bool_decide (InventoryMovement.product_id m = id))
              true (gim_product_id params)
  && from_option (fun type => bool_decide (InventoryMovement.movement_type m = type))
                 true (gim_movement_type params)
  && from_option (fun date => bool_decide (date <= InventoryMovement.created_at m))
                 true (gim_start_date params)
  && from_option (fun date => bool_decide (InventoryMovement.created_at m <= date))
                 true (gim_end_date params)
  && from_option (fun type => bool_decide (InventoryMovement.reference_type m = Some type))
                 true (gim_reference_type params)
  && from_option (fun id => bool_decide (InventoryMovement.reference_id m = Some id))
                 true (gim_reference_id params).

(** [inventoryMovementsTable[params.order_by]] *)
Definition order_column (order_by : OrderBy) (m : InventoryMovement.t) : Z :=
  match order_by with
  | order_by_created_at => InventoryMovement.created_at m
  | order_by_quantity => InventoryMovement.quantity m
  end.

(** [a] may come before [b] under [orderBy(column)] or
    [orderBy(desc(column))]. *)
Definition ordered_by (order_by : OrderBy) (direction : OrderDirection)
    (a b : InventoryMovement.t) : Prop :=
  match direction with
  | desc => order_column order_by b <= order_column order_by a
  | asc => order_column order_by a <= order_column order_by b
  end.

#[global] Instance ordered_by_dec order_by direction a b :
  Decision (ordered_by order_by direction a b).
Proof. destruct direction; simpl; apply _. Defined.

(** The parameters are followed where [getInventoryMovementsInputSchema]
    has them, at a positive limit and an offset that is not negative;
    what the query builder and the database make of other values is not
    modelled ([None]). *)
Definition getInventoryMovements (input : GetInventoryMovementsParams) (st : Store)
  : option (list InventoryMovement.t) :=
  (* Apply defaults *)
  let limit := default 100 (gim_limit input) in
  let offset := default 0 (gim_offset input) in
  let order_by := default order_by_created_at (gim_order_by input) in
  let order_direction := default desc (gim_order_direction input) in
  let queryWithWhere := filter (fun m => conditions input m) (inventoryMovementsTable st) in
  let queryWithOrder := merge_sort (ordered_by order_by order_direction) queryWithWhere in
  if decide (0 < limit /\ 0 <= offset)
  then Some (take (Z.to_nat limit) (drop (Z.to_nat offset) queryWithOrder))
  else None.

Definition getInventoryMovementsByProduct (productId : Z) (st : Store)
  : list InventoryMovement.t :=
  merge_sort (ordered_by order_by_created_at desc)
    (filter (fun m => InventoryMovement.product_id m = productId)
            (inventoryMovementsTable st)).

(** ** Vocabulary of the product properties *)

(** Another product has the SKU that the input sets. *)
Definition sku_taken (input : UpdateProductInput) (st : Store) : Prop :=
  exists sku id p,
    up_sku input = Some (Some sku)
    /\ id <> up_id input
    /\ productsTable st !! id = Some p
    /\ Product.sku p = Some sku.

(** No two products have the same SKU; the unique constraint of
    [products.sku]. *)
Definition sku_unique (st : Store) : Prop :=
  forall id1 id2 p1 p2 sku,
    productsTable st !! id1 = Some p1 ->
    productsTable st !! id2 = Some p2 ->
    Product.sku p1 = Some sku ->
    Product.sku p2 = Some sku ->
    id1 = id2.

(** The tables other than [products], and the sequences, are the same. *)
Definition same_but_products (st st' : Store) : Prop :=
  transactionsTable st' = transactionsTable st
  /\ transactionItemsTable st' = transactionItemsTable st
  /\ inventoryMovementsTable st' = inventoryMovementsTable st
  /\ transactions_id_seq st' = transactions_id_seq st
  /\ transaction_items_id_seq st' = transaction_items_id_seq st
  /\ inventory_movements_id_seq st' = inventory_movements_id_seq st.

(** The six procedures of the router that write a product, its stock or
    a transaction. *)
Inductive Write :=
  | StockWrite (r : Request)
  | UpdateProduct (now : Z) (input : UpdateProductInput)
  | DeleteProduct (now : Z) (id : Z).

(** The store after a write, whether it was answered or rejected. *)
Definition write (st : Store) (w : Write) : Store :=
  match w with
  | StockWrite r => serve st r
  | UpdateProduct now input => snd (appRouter_updateProduct now input st)
  | DeleteProduct now id => snd (deleteProduct now id st)
  end.

Definition write_all (st : Store) (ws : list Write) : Store := foldl write st ws.

(** No stock and no minimum stock level is negative. *)
Definition levels_nonneg (st : Store) : Prop :=
  forall id p,
    productsTable st !! id = Some p ->
    0 <= Product.stock_quantity p /\ 0 <= Product.min_stock_level p.

Module Catalogue.
(** Four products: two with a SKU, one out of stock, one at its minimum
    level, one inactive. *)
Definition product (name : string) (sku : option string) (stock min_stock : Z)
    (is_active : bool) : Product.t :=
  {| Product.name := name; Product.description := None; Product.price := 1500;
     Product.stock_quantity := stock; Product.min_stock_level := min_stock;
     Product.category := None; Product.sku := sku; Product.is_active := is_active;
     Product.created_at := 0; Product.updated_at := 0 |}.

Definition shelf : Store :=
  {| productsTable := {[ 1 := product "Rice" (Some "RC-1") 5 2 true;
                         2 := product "Sugar" (Some "SG-2") 0 3 true;
                         3 := product "Salt" None 1 4 false;
                         4 := product "Oil" None 2 2 true ]};
     transactionsTable := ∅;
     transactionItemsTable := [];
     inventoryMovementsTable := [];
     transactions_id_seq := 1;
     transaction_items_id_seq := 1;
     inventory_movements_id_seq := 1 |}.

(** Patches of one field. *)
Definition set_sku (id : Z) (sku : string) : UpdateProductInput :=
  {| up_id := id; up_name := None; up_description := None; up_price := None;
     up_stock_quantity := None; up_min_stock_level := None; up_category := None;
     up_sku := Some (Some sku); up_is_active := None |}.

Definition set_stock (id : Z) (stock : Z) : UpdateProductInput :=
  {| up_id := id; up_name := None; up_description := None; up_price := None;
     up_stock_quantity := Some stock; up_min_stock_level := None;
     up_category := None; up_sku := None; up_is_active := None |}.

(** A day of writes: a sale, a SKU that is taken, a SKU that is free, a
    stock count that does not parse, a stock count, a deletion, a sale of
    the deleted product, a deletion of a product that is not there. *)
Definition writes : list Write :=
  [ StockWrite (CreateTransaction 1 (Shop.sale [Shop.item 1 2]));
    UpdateProduct 2 (set_sku 4 "RC-1");
    UpdateProduct 3 (set_sku 4 "OL-4");
    UpdateProduct 4 (set_stock 2 (-1));
    UpdateProduct 5 (set_stock 2 7);
    DeleteProduct 6 1;
    StockWrite (CreateTransaction 7 (Shop.sale [Shop.item 1 3]));
    DeleteProduct 8 9 ].

Definition closed : Store := write_all shelf writes.
End Catalogue.

Module Page.
(** The two latest ['out'] rows of the day in the shop. *)
Definition params : GetInventoryMovementsParams :=
  {| gim_product_id := None; gim_movement_type := Some mv_out; gim_start_date := None;
     gim_end_date := None; gim_reference_type := None; gim_reference_id := None;
     gim_limit := Some 2; gim_offset := None; gim_order_by := None;
     gim_order_direction := None |}.

Definition rows : list InventoryMovement.t :=
  default [] (getInventoryMovements params Day.evening).
End Page.

(** * Properties *)

(** ** Rounding to hundredths *)

Lemma round_half_away_integer x c : (x == inject_Z c)%Q -> round_half_away x = c.
Proof.
  destruct x as [n d]. unfold Qeq, round_half_away. simpl. intros Hx.
  assert (n = c * Zpos d) as -> by lia.
  assert ((2 * Z.abs (c * Z.pos d) + Z.pos d) / (2 * Z.pos d) = Z.abs c) as ->.
  { symmetry. apply (Z.div_unique _ _ _ (Z.pos d)); [lia|]. rewrite Z.abs_mul. lia. }
  rewrite Z.sgn_mul. replace (Z.sgn (Z.pos d)) with 1 by done.
  rewrite Z.mul_1_r. lia.
Qed.

Lemma numeric_10_2_cents x c : (x == parseFloat c)%Q -> numeric_10_2 x = c.
Proof.
  intros Hx. apply round_half_away_integer. rewrite Hx.
  unfold parseFloat, Qeq. simpl. lia.
Qed.

(** What a column holds is read back as it is. *)
Lemma numeric_10_2_parseFloat c : numeric_10_2 (parseFloat c) = c.
Proof. by apply numeric_10_2_cents. Qed.

Lemma whole_cents_parseFloat c : whole_cents (parseFloat c).
Proof. unfold whole_cents. by rewrite numeric_10_2_parseFloat. Qed.

Lemma parseFloat_minus a b : (parseFloat a - parseFloat b == parseFloat (a - b))%Q.
Proof. unfold parseFloat, Qeq. simpl. lia. Qed.

Lemma parseFloat_times a q : (parseFloat a * inject_Z q == parseFloat (a * q))%Q.
Proof. unfold parseFloat, Qeq. simpl. lia. Qed.

(** On amounts in whole cents, rounding the difference or the multiple
    gives the difference or the multiple of the hundredths. *)
Lemma numeric_10_2_minus x y :
  whole_cents x -> whole_cents y ->
  numeric_10_2 (x - y)%Q = numeric_10_2 x - numeric_10_2 y.
Proof.
  unfold whole_cents. intros Hx Hy. apply numeric_10_2_cents.
  by rewrite <- parseFloat_minus, <- Hx, <- Hy.
Qed.

Lemma numeric_10_2_times x q :
  whole_cents x -> numeric_10_2 (x * inject_Z q)%Q = numeric_10_2 x * q.
Proof.
  unfold whole_cents. intros Hx. apply numeric_10_2_cents.
  by rewrite <- parseFloat_times, <- Hx.
Qed.

(** ** Stores and rollbacks *)

Lemma same_rows_refl st : same_rows st st.
Proof. by repeat split. Qed.

Lemma rollback_same_rows st st' : same_rows st (rollback st st').
Proof. by repeat split. Qed.

Lemma rollback_same st : rollback st st = st.
Proof. by destruct st. Qed.

Lemma stock_of_alter st f i j :
  Product.stock_quantity <$> alter f i (productsTable st) !! j =
  if decide (i = j)
  then (fun p => Product.stock_quantity (f p)) <$> productsTable st !! i
  else stock_of st j.
Proof.
  rewrite lookup_alter. case_decide; [|done].
  by destruct (productsTable st !! i).
Qed.

(** ** createInventoryMovement, case by case *)

Section CreateInventoryMovement.
Variables (now : Z) (input : CreateInventoryMovementInput).

Local Abbreviation delta := (stockChange (cim_movement_type input) (cim_quantity input)).

Lemma createInventoryMovement_Ok st m st' :
  createInventoryMovement now input st = (Ok m, st') ->
  exists product,
    productsTable st !! cim_product_id input = Some product
    /\ 0 <= Product.stock_quantity product + delta
    /\ InventoryMovement.product_id m = cim_product_id input
    /\ InventoryMovement.movement_type m = cim_movement_type input
    /\ InventoryMovement.quantity m = cim_quantity input
    /\ inventoryMovementsTable st' = inventoryMovementsTable st ++ [m]
    /\ productsTable st' =
         alter (Product.set_stock (Product.stock_quantity product + delta) now)
               (cim_product_id input) (productsTable st)
    /\ transactionsTable st' = transactionsTable st
    /\ transactionItemsTable st' = transactionItemsTable st.
Proof.
  unfold createInventoryMovement, db_transaction, bind, select_product; simpl.
  destruct (productsTable st !! cim_product_id input) as [product|] eqn:Hp;
    simpl; [|discriminate].
  destruct (Product.stock_quantity product + delta <? 0) eqn:Hneg;
    simpl; [discriminate|].
  intros [= <- <-]; simpl. exists product.
  apply Z.ltb_ge in Hneg. by repeat split.
Qed.

Lemma createInventoryMovement_Throw st e st' :
  createInventoryMovement now input st = (Throw e, st') ->
  st' = st
  /\ (productsTable st !! cim_product_id input = None
        /\ e = ProductNotFound (cim_product_id input)
      \/ exists product,
           productsTable st !! cim_product_id input = Some product
           /\ Product.stock_quantity product + delta < 0
           /\ e = InsufficientStock (Product.stock_quantity product) (Z.abs delta)).
Proof.
  unfold createInventoryMovement, db_transaction, bind, select_product; simpl.
  destruct (productsTable st !! cim_product_id input) as [product|] eqn:Hp; simpl.
  - destruct (Product.stock_quantity product + delta <? 0) eqn:Hneg;
      simpl; [|discriminate].
    intros [= <- <-]. apply Z.ltb_lt in Hneg.
    split; [apply rollback_same|]. right. by exists product.
  - intros [= <- <-]. split; [apply rollback_same|]. by left.
Qed.

Lemma createInventoryMovement_succeeds st product :
  productsTable st !! cim_product_id input = Some product ->
  0 <= Product.stock_quantity product + delta ->
  exists m st', createInventoryMovement now input st = (Ok m, st').
Proof.
  intros Hp Hge.
  unfold createInventoryMovement, db_transaction, bind, select_product; simpl.
  rewrite Hp; simpl.
  apply Z.ltb_ge in Hge. rewrite Hge; simpl. eauto.
Qed.
End CreateInventoryMovement.

(** ** Loops *)

Lemma for_of_invariant {A} (P : Store -> Prop) (body : A -> Db unit) xs st :
  (forall x st0, x ∈ xs -> P st0 -> P (snd (body x st0))) ->
  P st -> P (snd (for_of xs body st)).
Proof.
  revert st. induction xs as [|x xs IH]; intros st Hbody HP; [done|].
  simpl. unfold bind.
  pose proof (Hbody x st ltac:(left) HP) as Hx.
  destruct (body x st) as [[[]|e] st1]; simpl in *; [|done].
  apply IH; [|done]. intros y st0 Hy. apply Hbody. by right.
Qed.

Lemma bind_invariant {A B} (P : Store -> Prop) (m : Db A) (k : A -> Db B) st :
  P (snd (m st)) ->
  (forall a st1, P st1 -> P (snd (k a st1))) ->
  P (snd (bind m k st)).
Proof.
  intros Hm Hk. unfold bind. destruct (m st) as [[a|e] st1]; simpl in *; auto.
Qed.

(** ** The invariant of the stock subsystem *)

Lemma stock_nonneg_alter (m : gmap Z Product.t) f i :
  (forall j p, m !! j = Some p -> 0 <= Product.stock_quantity p) ->
  (forall p, m !! i = Some p -> 0 <= Product.stock_quantity (f p)) ->
  forall j p, alter f i m !! j = Some p -> 0 <= Product.stock_quantity p.
Proof.
  intros Hm Hf j p. rewrite lookup_alter. case_decide as Hij; [|apply Hm].
  destruct (m !! i) as [p0|] eqn:Hp0; [|done].
  intros [= <-]. by apply Hf.
Qed.

Lemma items_have_products_alter (m : gmap Z Product.t) f i items :
  Forall (fun it => is_Some (m !! TransactionItem.product_id it)) items ->
  Forall (fun it => is_Some (alter f i m !! TransactionItem.product_id it)) items.
Proof.
  intros Hm. eapply Forall_impl; [exact Hm|].
  intros it Hit. by apply lookup_alter_is_Some.
Qed.

Lemma consistent_same_rows st st' : same_rows st st' -> consistent st -> consistent st'.
Proof.
  intros (Hp & _ & Hi & _) [Hs Hq Hk]. split.
  - rewrite Hp. exact Hs.
  - rewrite Hi. exact Hq.
  - rewrite Hp, Hi. exact Hk.
Qed.

Lemma consistent_insert_transaction st row :
  consistent st -> consistent (snd (insert_transaction row st)).
Proof. intros [Hs Hq Hk]. by split. Qed.

Lemma consistent_update_transaction st id set :
  consistent st -> consistent (snd (update_transaction id set st)).
Proof. intros [Hs Hq Hk]. by split. Qed.

Lemma consistent_createInventoryMovement now input st :
  consistent st -> consistent (snd (createInventoryMovement now input st)).
Proof.
  intros Hc.
  destruct (createInventoryMovement now input st) as [[m|e] st'] eqn:Hrun; simpl.
  - apply createInventoryMovement_Ok in Hrun
      as (product & Hp & Hge & _ & _ & _ & Hm & Hps & _ & Hi).
    destruct Hc as [Hs Hq Hk]. split.
    + rewrite Hps. apply stock_nonneg_alter; [done|].
      intros p. rewrite Hp. by intros [= <-].
    + by rewrite Hi.
    + rewrite Hps, Hi. by apply items_have_products_alter.
  - apply createInventoryMovement_Throw in Hrun as [-> _]. done.
Qed.

Lemma consistent_sell_item now transaction item st :
  0 < cti_quantity item ->
  consistent st -> consistent (snd (sell_item now transaction item st)).
Proof.
  intros Hq Hc. unfold sell_item, bind, select_product; simpl.
  destruct (productsTable st !! cti_product_id item) as [product|] eqn:Hp;
    simpl; [|done].
  destruct (Product.stock_quantity product <? cti_quantity item) eqn:Hlt;
    simpl; [done|].
  apply Z.ltb_ge in Hlt. destruct Hc as [Hs Hi Hk]. split; simpl.
  - apply stock_nonneg_alter; [done|].
    intros p. rewrite Hp. intros [= <-]. simpl. lia.
  - apply Forall_app. split; [done|]. by repeat constructor.
  - apply Forall_app. split; [by apply items_have_products_alter|].
    repeat constructor. simpl. apply lookup_alter_is_Some. by rewrite Hp.
Qed.

Lemma consistent_createTransaction now input st :
  createTransactionInputSchema input = true ->
  consistent st -> consistent (snd (createTransaction now input st)).
Proof.
  intros Hschema Hc. unfold createTransaction, db_transaction.
  destruct (createTransaction_body now input st) as [[t|e] st'] eqn:Hrun; simpl;
    [|by eapply consistent_same_rows; [apply rollback_same_rows|]].
  replace st' with (snd (createTransaction_body now input st)) by by rewrite Hrun.
  clear Hrun. unfold createTransaction_body.
  apply bind_invariant; [by apply consistent_insert_transaction|].
  intros transaction st1 Hc1.
  apply bind_invariant; [|done].
  apply for_of_invariant; [|done].
  intros item st0 Hin. apply consistent_sell_item.
  unfold createTransactionInputSchema in Hschema.
  apply andb_prop in Hschema as [_ Hitems].
  rewrite forallb_forall in Hitems.
  apply list_elem_of_In, Hitems, andb_prop in Hin as [Hin _]. lia.
Qed.

Lemma consistent_restore_item now transactionId item st :
  0 <= TransactionItem.quantity item ->
  consistent st -> consistent (snd (restore_item now transactionId item st)).
Proof.
  intros Hq [Hs Hi Hk]. unfold restore_item, bind; simpl. split; simpl; [|done|].
  - apply stock_nonneg_alter; [done|].
    intros p Hp. simpl. specialize (Hs _ _ Hp). lia.
  - by apply items_have_products_alter.
Qed.

Lemma consistent_reduce_item now transactionId item st :
  consistent st -> consistent (snd (reduce_item now transactionId item st)).
Proof.
  intros [Hs Hi Hk]. unfold reduce_item, bind, select_product; simpl.
  destruct (productsTable st !! TransactionItem.product_id item) as [product|] eqn:Hp;
    simpl; [|done].
  destruct (Product.stock_quantity product <? TransactionItem.quantity item) eqn:Hlt;
    simpl; [done|].
  apply Z.ltb_ge in Hlt. split; simpl; [|done|].
  - apply stock_nonneg_alter; [done|].
    intros p. rewrite Hp. intros [= <-]. simpl. lia.
  - by apply items_have_products_alter.
Qed.

Lemma bind_select_transaction_items {B} id (k : list TransactionItem.t -> Db B) st :
  bind (select_transaction_items id) k st =
  k (filter (fun it => TransactionItem.transaction_id it = id)
            (transactionItemsTable st)) st.
Proof. reflexivity. Qed.

Lemma bind_select_transaction {B} id (k : option Transaction.t -> Db B) st :
  bind (select_transaction id) k st = k (transactionsTable st !! id) st.
Proof. reflexivity. Qed.

Lemma consistent_handleStatusChange now transactionId currentStatus newStatus st :
  consistent st ->
  consistent (snd (handleStatusChange now transactionId currentStatus newStatus st)).
Proof.
  intros Hc. unfold handleStatusChange.
  case_decide; [done|].
  rewrite bind_select_transaction_items.
  set (items := filter _ _).
  assert (Forall (fun it => 0 < TransactionItem.quantity it) items) as Hitems.
  { apply Forall_forall. intros it [_ Hin]%list_elem_of_filter.
    pose proof (items_positive _ Hc) as Hall.
    by apply (proj1 (Forall_forall _ _) Hall). }
  case_decide; [done|].
  apply bind_invariant.
  - case_decide; [|done].
    apply for_of_invariant; [|done].
    intros item st0 Hin. apply consistent_restore_item.
    apply (proj1 (Forall_forall _ _) Hitems) in Hin. lia.
  - intros _ st2 Hc2. case_decide; [|done].
    apply for_of_invariant; [|done].
    intros item st0 _. apply consistent_reduce_item.
Qed.

Lemma consistent_updateTransaction now input st :
  consistent st -> consistent (snd (updateTransaction now input st)).
Proof.
  intros Hc. unfold updateTransaction.
  rewrite bind_select_transaction.
  destruct (transactionsTable st !! ut_id input) as [current|]; [|done].
  apply bind_invariant.
  - destruct (ut_status input) as [status|]; [|done].
    case_decide; [|done]. by apply consistent_handleStatusChange.
  - intros _ st1 Hc1. apply bind_invariant.
    + by apply consistent_update_transaction.
    + intros [transaction|] st2 Hc2; done.
Qed.

(** ** Requests *)

Lemma consistent_serve st r : consistent st -> consistent (serve st r).
Proof.
  intros Hc. destruct r as [now input|now productId quantity notes|now input|now input];
    simpl.
  - unfold appRouter.createInventoryMovement. simpl.
    by apply consistent_createInventoryMovement.
  - by apply consistent_createInventoryMovement.
  - unfold appRouter.createTransaction.
    destruct (createTransactionInputSchema input) eqn:Hschema; [|done].
    by apply consistent_createTransaction.
  - unfold appRouter.updateTransaction.
    destruct (updateTransactionInputSchema input); [|done].
    by apply consistent_updateTransaction.
Qed.

(** After any sequence of requests, served or rejected, the invariant
    holds: in particular no product has a negative stock. *)
Lemma consistent_serve_all rs st : consistent st -> consistent (serve_all st rs).
Proof.
  revert st. induction rs as [|r rs IH]; intros st Hc; [done|].
  simpl. apply IH. by apply consistent_serve.
Qed.

Lemma stock_nonneg_serve_all rs st product_id q :
  consistent st -> stock_of (serve_all st rs) product_id = Some q -> 0 <= q.
Proof.
  intros Hc Hq. apply (consistent_serve_all rs) in Hc. unfold stock_of in Hq.
  destruct (productsTable (serve_all st rs) !! product_id) as [p|] eqn:Hp; [|done].
  injection Hq as <-. by eapply stock_nonneg.
Qed.

(** ** Stock never negative, and what a failed request leaves behind *)

(** C1: the stock of a product stays at or above zero through the
    requests, but a request that would take it below zero does not always
    leave it where it was.  Product 1 holds 3 units and the cancelled
    transaction 1 has two lines of it, of 1 and 5 units; completing the
    transaction again would take the stock to -3.  The request is rejected
    once the second line is reached, and the stock is then 2: the first
    line has been taken and is not given back. *)
Theorem rejected_completion_keeps_first_line :
  stock_of Duplicate.before 1 = Some 3
  /\ fst (Duplicate.completion Duplicate.before) = Throw (InsufficientStock 2 5)
  /\ stock_of (snd (Duplicate.completion Duplicate.before)) 1 = Some 2.
Proof. vm_compute. done. Qed.

(** ** Status changes are not atomic *)

(** C2: a status change from cancelled to completed that fails on a later
    line item is not rolled back.  Transaction 1 is cancelled and has one
    unit each of product 1 (stock 100) and product 2 (stock 0).  The
    request is rejected at the second line; the unit of product 1 stays
    deducted and its ledger row stays, while the row of the transaction
    itself is left as it was. *)
Theorem rejected_completion_is_not_rolled_back :
  (Transaction.status <$> transactionsTable Partial.before !! 1 = Some cancelled
   /\ stock_of Partial.before 1 = Some 100
   /\ stock_of Partial.before 2 = Some 0
   /\ length (inventoryMovementsTable Partial.before) = 5%nat)
  /\ fst (Partial.completion Partial.before) = Throw (InsufficientStock 0 1)
  /\ stock_of (snd (Partial.completion Partial.before)) 1 = Some 99
  /\ (InventoryMovement.reference_type
        <$> last (inventoryMovementsTable (snd (Partial.completion Partial.before))))
     = Some (Some "transaction_completion")
  /\ length (inventoryMovementsTable (snd (Partial.completion Partial.before))) = 6%nat
  /\ transactionsTable (snd (Partial.completion Partial.before))
     = transactionsTable Partial.before.
Proof. vm_compute. done. Qed.

(** ** What the ledger row of a manual movement holds *)

(** C3, as stated, fails: 30 units out of a stock of 100 lower the stock
    to 70, and the row returned and stored has the quantity 30, which is
    neither the change of the stock nor negative. *)
Lemma out_movement_stored_unsigned :
  fst (Shop.thirty_out (Shop.opened 100 0)) = Ok Shop.thirty_out_row
  /\ stock_of (Shop.opened 100 0) 1 = Some 100
  /\ stock_of (snd (Shop.thirty_out (Shop.opened 100 0))) 1 = Some 70
  /\ last (inventoryMovementsTable (snd (Shop.thirty_out (Shop.opened 100 0))))
     = Some Shop.thirty_out_row
  /\ InventoryMovement.quantity Shop.thirty_out_row = 30
  /\ ~ ledger_quantity_is_delta 1 (Shop.movement 1 mv_out 30) (Shop.opened 100 0).
Proof.
  repeat split; [by vm_compute..|].
  intros Hclaim.
  destruct (Hclaim Shop.thirty_out_row (snd (Shop.thirty_out (Shop.opened 100 0))))
    as [_ Hneg]; [by vm_compute|].
  specialize (Hneg eq_refl). simpl in Hneg. lia.
Qed.

(** C3, amended: the row returned by a successful call is the one
    appended to the ledger, and its [quantity] is the quantity of the
    input as supplied.  The change applied to the stock is that quantity
    for ['in'] and ['adjustment'] rows and minus its absolute value for
    ['out'] rows. *)
Theorem ledger_quantity_is_input now input st m st' :
  createInventoryMovement now input st = (Ok m, st') ->
  inventoryMovementsTable st' = inventoryMovementsTable st ++ [m]
  /\ InventoryMovement.quantity m = cim_quantity input
  /\ exists before,
       stock_of st (cim_product_id input) = Some before
       /\ stock_of st' (cim_product_id input)
          = Some (before + match InventoryMovement.movement_type m with
                           | mv_out => - Z.abs (InventoryMovement.quantity m)
                           | mv_in | mv_adjustment => InventoryMovement.quantity m
                           end).
Proof.
  intros (product & Hp & _ & _ & Hty & Hq & Hm & Hps & _)%createInventoryMovement_Ok.
  repeat split; [done..|].
  exists (Product.stock_quantity product). unfold stock_of.
  rewrite Hps, lookup_alter_eq, Hp, Hty, Hq. simpl. split; [done|].
  by destruct (cim_movement_type input).
Qed.

(** The amended C3 on 30 units out of a stock of 100. *)
Lemma ledger_quantity_is_input_witness :
  inventoryMovementsTable (snd (Shop.thirty_out (Shop.opened 100 0)))
  = inventoryMovementsTable (Shop.opened 100 0) ++ [Shop.thirty_out_row]
  /\ InventoryMovement.quantity Shop.thirty_out_row = 30
  /\ exists before,
       stock_of (Shop.opened 100 0) 1 = Some before
       /\ stock_of (snd (Shop.thirty_out (Shop.opened 100 0))) 1
          = Some (before + - Z.abs (InventoryMovement.quantity Shop.thirty_out_row)).
Proof.
  apply (ledger_quantity_is_input 1 (Shop.movement 1 mv_out 30) (Shop.opened 100 0)
           Shop.thirty_out_row (snd (Shop.thirty_out (Shop.opened 100 0)))).
  vm_compute. reflexivity.
Defined.

(** ** The sign of an ['in'] movement *)

(** C4: an ['in'] movement with a negative quantity is neither rejected
    nor turned into its magnitude.  With 10 units in stock, an ['in']
    movement of -5 is accepted, lowers the stock to 5, and is stored as an
    ['in'] row of quantity -5; the ['out'] branch takes the absolute value
    of what it is given. *)
Theorem negative_in_movement_lowers_stock :
  stockChange mv_in (-5) = -5
  /\ stockChange mv_out (-5) = -5
  /\ stockChange mv_out 5 = -5
  /\ (exists m st',
        appRouter.createInventoryMovement 1 (Shop.movement 1 mv_in (-5)) (Shop.opened 10 0)
        = (Ok m, st')
        /\ InventoryMovement.movement_type m = mv_in
        /\ InventoryMovement.quantity m = -5
        /\ stock_of st' 1 = Some 5).
Proof.
  repeat split.
  eexists _, _. split; [vm_compute; reflexivity|]. by vm_compute.
Qed.

(** ** A sale is created whole or not at all *)

Lemma for_of_Throw {A} (body : A -> Db unit) xs st e st' :
  for_of xs body st = (Throw e, st') ->
  exists x st0, x ∈ xs /\ body x st0 = (Throw e, st').
Proof.
  revert st. induction xs as [|x xs IH]; intros st; simpl; [discriminate|].
  unfold bind. destruct (body x st) as [[[]|e0] st1] eqn:Hx.
  - intros (y & st0 & Hy & Hrun)%IH. exists y, st0. split; [by right|done].
  - intros [= <- <-]. exists x, st. split; [by left|done].
Qed.

Lemma sell_item_Throw now transaction item st e st' :
  sell_item now transaction item st = (Throw e, st') ->
  e = ProductNotFound (cti_product_id item)
  \/ exists available,
       available < cti_quantity item
       /\ e = InsufficientStock available (cti_quantity item).
Proof.
  unfold sell_item, bind, select_product; simpl.
  destruct (productsTable st !! cti_product_id item) as [product|]; simpl.
  - destruct (Product.stock_quantity product <? cti_quantity item) eqn:Hlt;
      simpl; [|discriminate].
    intros [= <- <-]. right. exists (Product.stock_quantity product).
    split; [by apply Z.ltb_lt|done].
  - intros [= <- <-]. by left.
Qed.

(** C5: when [createTransaction] fails, it fails on one of its items, whose
    product is missing or short of stock, and the four tables hold the rows
    they held before the call: no transaction, no item, no movement is
    added and no product is changed, whatever was written for the items
    before the failing one. *)
Theorem createTransaction_all_or_nothing now input st e st' :
  createTransaction now input st = (Throw e, st') ->
  same_rows st st'
  /\ exists item,
       item ∈ ct_items input
       /\ (e = ProductNotFound (cti_product_id item)
           \/ exists available,
                available < cti_quantity item
                /\ e = InsufficientStock available (cti_quantity item)).
Proof.
  unfold createTransaction, db_transaction.
  destruct (createTransaction_body now input st) as [[t|e0] st1] eqn:Hbody;
    [discriminate|].
  intros [= <- <-]. split; [apply rollback_same_rows|].
  revert Hbody. unfold createTransaction_body, bind at 1. simpl.
  unfold bind.
  match goal with |- context [ for_of ?xs ?body ?s ] =>
    destruct (for_of xs body s) as [[[]|e1] st2] eqn:Hloop end; [discriminate|].
  intros [= <- <-].
  apply for_of_Throw in Hloop as (item & st0 & Hin & Hitem).
  exists item. split; [done|]. by eapply sell_item_Throw.
Qed.

(** C5 on a sale of products 1 and 2 when product 2 is out of stock. *)
Lemma createTransaction_all_or_nothing_witness :
  same_rows (Shop.opened 100 0)
    (snd (createTransaction 1 (Shop.sale [Shop.item 1 1; Shop.item 2 1])
            (Shop.opened 100 0)))
  /\ exists item,
       item ∈ [Shop.item 1 1; Shop.item 2 1]
       /\ (InsufficientStock 0 1 = ProductNotFound (cti_product_id item)
           \/ exists available,
                available < cti_quantity item
                /\ InsufficientStock 0 1 = InsufficientStock available (cti_quantity item)).
Proof.
  apply (createTransaction_all_or_nothing 1
           (Shop.sale [Shop.item 1 1; Shop.item 2 1]) (Shop.opened 100 0)).
  vm_compute. reflexivity.
Defined.

(** Without the enclosing [db.transaction] the same sale leaves its first
    line behind: the rollback is what C5 rests on. *)
Lemma createTransaction_body_writes_before_failing :
  fst (createTransaction_body 1 (Shop.sale [Shop.item 1 1; Shop.item 2 1])
         (Shop.opened 100 0)) = Throw (InsufficientStock 0 1)
  /\ stock_of (snd (createTransaction_body 1 (Shop.sale [Shop.item 1 1; Shop.item 2 1])
                      (Shop.opened 100 0))) 1 = Some 99.
Proof. vm_compute. done. Qed.

(** ** A movement of nothing *)

(** Neither the schema nor the handler looks at whether the quantity is
    zero: a movement of quantity zero on a product whose stock is not
    negative is accepted, appends one ledger row of quantity zero and
    leaves the stock of every product as it was. *)
Lemma zero_quantity_recorded now input st product :
  cim_quantity input = 0 ->
  productsTable st !! cim_product_id input = Some product ->
  0 <= Product.stock_quantity product ->
  exists m st',
    appRouter.createInventoryMovement now input st = (Ok m, st')
    /\ InventoryMovement.quantity m = 0
    /\ inventoryMovementsTable st' = inventoryMovementsTable st ++ [m]
    /\ forall product_id, stock_of st' product_id = stock_of st product_id.
Proof.
  intros Hzero Hp Hstock.
  assert (stockChange (cim_movement_type input) (cim_quantity input) = 0) as Hdelta.
  { rewrite Hzero. by destruct (cim_movement_type input). }
  destruct (createInventoryMovement_succeeds now input st product Hp) as (m & st' & Hrun);
    [lia|].
  exists m, st'. split; [done|].
  apply createInventoryMovement_Ok in Hrun
    as (product' & Hp' & _ & _ & _ & Hq & Hm & Hps & _).
  rewrite Hp in Hp'. injection Hp' as <-.
  repeat split; [congruence|done|].
  intros j. unfold stock_of at 1. rewrite Hps, stock_of_alter. case_decide; [|done].
  subst j. unfold stock_of. rewrite Hp. simpl. f_equal. lia.
Qed.

(** C9: a movement of quantity zero is not rejected.  An adjustment of
    zero units of product 1, which has 10 units, passes the schema and the
    handler: the call returns a ledger row of quantity zero, which is the
    one row of the ledger afterwards, and the stock is still 10. *)
Theorem zero_adjustment_accepted :
  createInventoryMovementInputSchema (Shop.movement 1 mv_adjustment 0) = true
  /\ exists m st',
       appRouter.createInventoryMovement 1 (Shop.movement 1 mv_adjustment 0)
         (Shop.opened 10 0) = (Ok m, st')
       /\ InventoryMovement.quantity m = 0
       /\ inventoryMovementsTable st' = [m]
       /\ stock_of st' 1 = Some 10.
Proof.
  split; [done|].
  destruct (zero_quantity_recorded 1 (Shop.movement 1 mv_adjustment 0) (Shop.opened 10 0)
              (Shop.product "Product 1" 10)) as (m & st' & Hrun & Hq & Hm & Hs);
    [done|by vm_compute|simpl; lia|].
  exists m, st'. rewrite Hs. by repeat split.
Qed.

(** ** The status machine *)

Lemma crosses_boundary_spec from to :
  crosses_boundary from (Some to) = true
  <-> (from = completed /\ to = cancelled) \/ (from = cancelled /\ to = completed).
Proof.
  destruct from, to; simpl; split; try discriminate; try tauto;
    intros [[? ?]|[? ?]]; discriminate.
Qed.

Lemma bind_ret_tt (m : Db unit) st : bind m (fun _ => ret tt) st = m st.
Proof. unfold bind, ret. by destruct (m st) as [[[]|e] st1]. Qed.

Lemma handleStatusChange_restore now transactionId st :
  handleStatusChange now transactionId completed cancelled st
  = for_of (items_of st transactionId) (restore_item now transactionId) st.
Proof.
  unfold handleStatusChange. case_decide; [done|].
  rewrite bind_select_transaction_items. fold (items_of st transactionId).
  case_decide as Hlen.
  - by destruct (items_of st transactionId).
  - rewrite decide_True by done.
    rewrite (decide_False (P := _ /\ _)) by (intros [? _]; done).
    apply bind_ret_tt.
Qed.

Lemma handleStatusChange_reduce now transactionId st :
  handleStatusChange now transactionId cancelled completed st
  = for_of (items_of st transactionId) (reduce_item now transactionId) st.
Proof.
  unfold handleStatusChange. case_decide; [done|].
  rewrite bind_select_transaction_items. fold (items_of st transactionId).
  case_decide as Hlen.
  - by destruct (items_of st transactionId).
  - rewrite (decide_False (P := _ /\ _)) by (intros [? _]; done).
    rewrite decide_True by done. done.
Qed.

Lemma handleStatusChange_other now transactionId currentStatus newStatus st :
  crosses_boundary currentStatus (Some newStatus) = false ->
  handleStatusChange now transactionId currentStatus newStatus st = (Ok tt, st).
Proof.
  intros Hoff. unfold handleStatusChange. case_decide; [done|].
  rewrite bind_select_transaction_items.
  case_decide; [done|].
  rewrite !decide_False; [done|..];
    intros [-> ->]; discriminate.
Qed.

(** A status change writes neither transactions nor line items. *)
Lemma handleStatusChange_frame now transactionId currentStatus newStatus st :
  transactionsTable (snd (handleStatusChange now transactionId currentStatus newStatus st))
  = transactionsTable st
  /\ transactionItemsTable
       (snd (handleStatusChange now transactionId currentStatus newStatus st))
     = transactionItemsTable st.
Proof.
  set (P := fun st0 => transactionsTable st0 = transactionsTable st
                       /\ transactionItemsTable st0 = transactionItemsTable st).
  assert (forall xs st0, P st0 ->
            P (snd (for_of xs (restore_item now transactionId) st0))) as Hrestore.
  { intros xs st0 HP. apply for_of_invariant; [|done]. by intros x st1 _ HP1. }
  assert (forall xs st0, P st0 ->
            P (snd (for_of xs (reduce_item now transactionId) st0))) as Hreduce.
  { intros xs st0 HP. apply for_of_invariant; [|done].
    intros x st1 _ HP1. unfold reduce_item, bind, select_product; simpl.
    destruct (productsTable st1 !! _); simpl; [|done].
    by destruct (_ <? _). }
  change (P (snd (handleStatusChange now transactionId currentStatus newStatus st))).
  unfold handleStatusChange. case_decide; [done|].
  rewrite bind_select_transaction_items.
  case_decide; [done|].
  apply bind_invariant.
  - case_decide; [by apply Hrestore|done].
  - intros _ st1 HP1. case_decide; [by apply Hreduce|done].
Qed.

(** ** updateTransaction, when it answers *)

Lemma alter_lookup_Some {A} (f : A -> A) (m : gmap Z A) i x :
  m !! i = Some x -> alter f i m = <[i := f x]> m.
Proof.
  intros Hx. apply map_eq. intros j. rewrite lookup_alter, lookup_insert.
  case_decide; [by rewrite Hx|done].
Qed.

Lemma updateTransaction_Ok now input st r st' :
  updateTransaction now input st = (Ok r, st') ->
  exists current,
    transactionsTable st !! ut_id input = Some current
    /\ r = (ut_id input,
            updateData now input
              (if decide (ut_total_amount input <> None \/ ut_discount_amount input <> None)
               then (effective_total input current
                     - effective_discount input current)%Q
               else parseFloat (Transaction.final_amount current))
              current)
    /\ transactionsTable st' = <[ut_id input := snd r]> (transactionsTable st)
    /\ transactionItemsTable st' = transactionItemsTable st.
Proof.
  unfold updateTransaction. rewrite bind_select_transaction.
  destruct (transactionsTable st !! ut_id input) as [current|] eqn:Hcur;
    [|discriminate].
  unfold bind at 1.
  match goal with |- context [ match ?m st with _ => _ end ] =>
    assert (transactionsTable (snd (m st)) = transactionsTable st
            /\ transactionItemsTable (snd (m st)) = transactionItemsTable st)
      as [Ht Hi];
    [|destruct (m st) as [[[]|e] st1]; [|discriminate]]
  end.
  { destruct (ut_status input) as [status|]; [|done].
    case_decide; [|done]. apply handleStatusChange_frame. }
  simpl in Ht, Hi. unfold bind, update_transaction. simpl.
  rewrite lookup_alter_eq, Ht, Hcur. simpl.
  intros [= <- <-]. exists current. simpl.
  repeat split; [|done]. by apply alter_lookup_Some.
Qed.

(** A call that throws has written no field of any transaction and no
    line item. *)
Lemma updateTransaction_Throw now input st e st' :
  updateTransaction now input st = (Throw e, st') ->
  transactionsTable st' = transactionsTable st
  /\ transactionItemsTable st' = transactionItemsTable st.
Proof.
  unfold updateTransaction. rewrite bind_select_transaction.
  destruct (transactionsTable st !! ut_id input) as [current|] eqn:Hcur;
    [|by intros [= <- <-]].
  unfold bind at 1.
  match goal with |- context [ match ?m st with _ => _ end ] =>
    assert (transactionsTable (snd (m st)) = transactionsTable st
            /\ transactionItemsTable (snd (m st)) = transactionItemsTable st)
      as [Ht Hi];
    [|destruct (m st) as [[[]|e0] st1]; [|by intros [= <- <-]]]
  end.
  { destruct (ut_status input) as [status|]; [|done].
    case_decide; [|done]. apply handleStatusChange_frame. }
  simpl in Ht, Hi. unfold bind, update_transaction. simpl.
  rewrite lookup_alter_eq, Ht, Hcur. simpl. discriminate.
Qed.

(** ** final_amount follows its operands *)

(** C7, as stated, fails: a discount of half a cent passes the schema,
    the columns are rounded one by one, and the sale of 60.00 is stored
    with a discount of 0.01 and a [final_amount] of 60.00, which is
    neither 60 - 0.005 nor 60.00 - 0.01. *)
Lemma half_cent_discount_breaks_final_amount :
  updateTransactionInputSchema HalfCent.patch = true
  /\ transactionsTable Discount.before !! 1
     = Some (Shop.sale_row (Shop.sale [Shop.item 1 2]) 1)
  /\ fst (appRouter.updateTransaction 2 HalfCent.patch Discount.before)
     = Ok (1, HalfCent.patched)
  /\ transactionsTable (snd (appRouter.updateTransaction 2 HalfCent.patch Discount.before))
       !! 1
     = Some HalfCent.patched
  /\ Transaction.final_amount HalfCent.patched
     <> Transaction.total_amount HalfCent.patched
        - Transaction.discount_amount HalfCent.patched
  /\ ~ final_amount_is_difference 2 HalfCent.patch Discount.before.
Proof.
  split_and!; [by vm_compute..|simpl; lia|].
  intros Hclaim.
  pose proof (Hclaim 1 HalfCent.patched
                (snd (updateTransaction 2 HalfCent.patch Discount.before))
                (Shop.sale_row (Shop.sale [Shop.item 1 2]) 1)) as Hfinal.
  apply proj1 in Hfinal; [|vm_compute; reflexivity..].
  apply (fun H => H (or_intror (Some_ne_None 0.005%Q))) in Hfinal.
  vm_compute in Hfinal. lia.
Qed.

(** C7, amended: after a successful [updateTransaction] whose patch gives
    its amounts in whole cents, the stored row is the one returned; if
    the patch has [total_amount] or [discount_amount], its [final_amount]
    is the effective total minus the effective discount, which are also
    the operands stored with it; if the patch has neither, its
    [final_amount] is the one stored before. *)
Theorem final_amount_recomputed now input st id t st' :
  updateTransaction now input st = (Ok (id, t), st') ->
  patch_in_cents input ->
  exists current,
    transactionsTable st !! ut_id input = Some current
    /\ transactionsTable st' !! ut_id input = Some t
    /\ (parseFloat (Transaction.total_amount t) == effective_total input current)%Q
    /\ (parseFloat (Transaction.discount_amount t) == effective_discount input current)%Q
    /\ (ut_total_amount input <> None \/ ut_discount_amount input <> None ->
        Transaction.final_amount t
        = Transaction.total_amount t - Transaction.discount_amount t
        /\ (parseFloat (Transaction.final_amount t)
            == effective_total input current - effective_discount input current)%Q)
    /\ (ut_total_amount input = None -> ut_discount_amount input = None ->
        Transaction.final_amount t = Transaction.final_amount current).
Proof.
  intros (current & Hcur & [= -> ->] & Htable & _)%updateTransaction_Ok
         [Htotal Hdiscount].
  exists current. simpl in Htable.
  split; [done|]. split; [by rewrite Htable, lookup_insert_eq|].
  assert (whole_cents (effective_total input current)
          /\ numeric_10_2 (effective_total input current)
             = default (Transaction.total_amount current)
                       (numeric_10_2 <$> ut_total_amount input)) as [Hct Het].
  { unfold effective_total. destruct (ut_total_amount input) as [total|]; simpl in *.
    - done.
    - split; [apply whole_cents_parseFloat|apply numeric_10_2_parseFloat]. }
  assert (whole_cents (effective_discount input current)
          /\ numeric_10_2 (effective_discount input current)
             = default (Transaction.discount_amount current)
                       (numeric_10_2 <$> ut_discount_amount input)) as [Hcd Hed].
  { unfold effective_discount.
    destruct (ut_discount_amount input) as [discount|]; simpl in *.
    - done.
    - split; [apply whole_cents_parseFloat|apply numeric_10_2_parseFloat]. }
  simpl. rewrite <- Het, <- Hed. split_and!.
  - symmetry. apply Hct.
  - symmetry. apply Hcd.
  - intros Hpatched. rewrite !decide_True by done.
    rewrite numeric_10_2_minus by done. split; [done|].
    unfold whole_cents in Hct, Hcd.
    by rewrite <- parseFloat_minus, <- Hct, <- Hcd.
  - intros Hnt Hnd. by rewrite decide_False by (intros [?|?]; done).
Qed.

(** C7 on a patch of the discount of a sale of 60.00. *)
Lemma final_amount_recomputed_witness :
  exists current,
    transactionsTable Discount.before !! 1 = Some current
    /\ transactionsTable (snd (updateTransaction 2 Discount.patch Discount.before)) !! 1
       = Some Discount.patched
    /\ (parseFloat (Transaction.total_amount Discount.patched)
        == effective_total Discount.patch current)%Q
    /\ (parseFloat (Transaction.discount_amount Discount.patched)
        == effective_discount Discount.patch current)%Q
    /\ (ut_total_amount Discount.patch <> None \/ ut_discount_amount Discount.patch <> None ->
        Transaction.final_amount Discount.patched
        = Transaction.total_amount Discount.patched
          - Transaction.discount_amount Discount.patched
        /\ (parseFloat (Transaction.final_amount Discount.patched)
            == effective_total Discount.patch current
               - effective_discount Discount.patch current)%Q)
    /\ (ut_total_amount Discount.patch = None -> ut_discount_amount Discount.patch = None ->
        Transaction.final_amount Discount.patched = Transaction.final_amount current).
Proof.
  apply (final_amount_recomputed 2 Discount.patch Discount.before 1 Discount.patched
           (snd (updateTransaction 2 Discount.patch Discount.before))).
  - vm_compute. reflexivity.
  - split; vm_compute; reflexivity.
Defined.

(** ** Status changes off the completed/cancelled boundary *)

(** C8: when the stored status and the status of the patch are not
    (completed, cancelled) and not (cancelled, completed) -- the patch has
    no status, or the same status, or one of the two is pending --
    [updateTransaction] leaves the rows of [products] and of
    [inventory_movements] as they were, and it answers whenever the
    transaction exists. *)
Theorem no_inventory_action_off_boundary now input st :
  (forall current,
     transactionsTable st !! ut_id input = Some current ->
     crosses_boundary (Transaction.status current) (ut_status input) = false) ->
  productsTable (snd (updateTransaction now input st)) = productsTable st
  /\ inventoryMovementsTable (snd (updateTransaction now input st))
     = inventoryMovementsTable st
  /\ (is_Some (transactionsTable st !! ut_id input) ->
      exists r, fst (updateTransaction now input st) = Ok r).
Proof.
  intros Hoff.
  destruct (updateTransaction now input st) as [r st'] eqn:Hrun. simpl.
  revert Hrun. unfold updateTransaction. rewrite bind_select_transaction.
  destruct (transactionsTable st !! ut_id input) as [current|] eqn:Hcur.
  2:{ intros [= <- <-]. repeat split. by intros [? ?]. }
  specialize (Hoff current eq_refl).
  assert ((match ut_status input with
           | Some status =>
             if decide (status <> Transaction.status current)
             then handleStatusChange now (ut_id input) (Transaction.status current)
                    (default (Transaction.status current) (ut_status input))
             else ret tt
           | None => ret tt
           end) st = (Ok tt, st)) as Hstatus.
  { destruct (ut_status input) as [status|]; [|done].
    case_decide; [|done]. by apply handleStatusChange_other. }
  unfold bind at 1. rewrite Hstatus.
  unfold bind, update_transaction. simpl.
  rewrite lookup_alter_eq, Hcur. simpl.
  intros [= <- <-]. repeat split. eauto.
Qed.

(** C8 on a pending transaction set to completed. *)
Lemma no_inventory_action_off_boundary_witness :
  productsTable (snd (updateTransaction 3 (Shop.set_status 1 completed) Pending.before))
  = productsTable Pending.before
  /\ inventoryMovementsTable
       (snd (updateTransaction 3 (Shop.set_status 1 completed) Pending.before))
     = inventoryMovementsTable Pending.before
  /\ (is_Some (transactionsTable Pending.before !! 1) ->
      exists r,
        fst (updateTransaction 3 (Shop.set_status 1 completed) Pending.before) = Ok r).
Proof.
  apply (no_inventory_action_off_boundary 3 (Shop.set_status 1 completed) Pending.before).
  intros current Hcur. vm_compute in Hcur. injection Hcur as <-. reflexivity.
Defined.

(** ** What a patch leaves alone *)

(** C10: a successful [updateTransaction] replaces the row of its
    transaction and no other row of [transactions], and writes no line
    item.  In the new row [user_id] and [created_at] are the stored ones,
    each patchable field is the value of the patch (an amount as its
    column holds it) when the patch has the field and the stored value
    when it has not, [final_amount] is the
    stored one when the patch has neither amount, and [updated_at] is the
    time of the call. *)
Theorem updateTransaction_touches_only_the_patch now input st id t st' :
  updateTransaction now input st = (Ok (id, t), st') ->
  exists current,
    transactionsTable st !! ut_id input = Some current
    /\ id = ut_id input
    /\ transactionsTable st' = <[id := t]> (transactionsTable st)
    /\ transactionItemsTable st' = transactionItemsTable st
    /\ Transaction.user_id t = Transaction.user_id current
    /\ Transaction.created_at t = Transaction.created_at current
    /\ Transaction.customer_id t
       = default (Transaction.customer_id current) (ut_customer_id input)
    /\ Transaction.total_amount t
       = default (Transaction.total_amount current)
                 (numeric_10_2 <$> ut_total_amount input)
    /\ Transaction.discount_amount t
       = default (Transaction.discount_amount current)
                 (numeric_10_2 <$> ut_discount_amount input)
    /\ Transaction.status t = default (Transaction.status current) (ut_status input)
    /\ Transaction.payment_method t
       = default (Transaction.payment_method current) (ut_payment_method input)
    /\ Transaction.notes t = default (Transaction.notes current) (ut_notes input)
    /\ (ut_total_amount input = None -> ut_discount_amount input = None ->
        Transaction.final_amount t = Transaction.final_amount current)
    /\ Transaction.updated_at t = now.
Proof.
  intros (current & Hcur & [= -> ->] & Htable & Hitems)%updateTransaction_Ok.
  exists current. simpl in Htable. repeat split; try done.
  intros Htotal Hdiscount. simpl. rewrite Htotal, Hdiscount.
  by rewrite !decide_False by (intros [?|?]; done).
Qed.

(** C10 on a patch of the discount and the payment method. *)
Lemma updateTransaction_touches_only_the_patch_witness :
  exists current,
    transactionsTable Discount.before !! ut_id Discount.patch = Some current
    /\ 1 = ut_id Discount.patch
    /\ transactionsTable (snd (updateTransaction 2 Discount.patch Discount.before))
       = <[1 := Discount.patched]> (transactionsTable Discount.before)
    /\ transactionItemsTable (snd (updateTransaction 2 Discount.patch Discount.before))
       = transactionItemsTable Discount.before
    /\ Transaction.user_id Discount.patched = Transaction.user_id current
    /\ Transaction.created_at Discount.patched = Transaction.created_at current
    /\ Transaction.customer_id Discount.patched
       = default (Transaction.customer_id current) (ut_customer_id Discount.patch)
    /\ Transaction.total_amount Discount.patched
       = default (Transaction.total_amount current)
                 (numeric_10_2 <$> ut_total_amount Discount.patch)
    /\ Transaction.discount_amount Discount.patched
       = default (Transaction.discount_amount current)
                 (numeric_10_2 <$> ut_discount_amount Discount.patch)
    /\ Transaction.status Discount.patched
       = default (Transaction.status current) (ut_status Discount.patch)
    /\ Transaction.payment_method Discount.patched
       = default (Transaction.payment_method current) (ut_payment_method Discount.patch)
    /\ Transaction.notes Discount.patched
       = default (Transaction.notes current) (ut_notes Discount.patch)
    /\ (ut_total_amount Discount.patch = None -> ut_discount_amount Discount.patch = None ->
        Transaction.final_amount Discount.patched = Transaction.final_amount current)
    /\ Transaction.updated_at Discount.patched = 2.
Proof.
  apply (updateTransaction_touches_only_the_patch 2 Discount.patch Discount.before 1
           Discount.patched (snd (updateTransaction 2 Discount.patch Discount.before))).
  vm_compute. reflexivity.
Defined.

(** ** Cancelling and completing again *)

Lemma units_of_nonneg product_id items :
  Forall (fun it => 0 <= TransactionItem.quantity it) items ->
  0 <= units_of product_id items.
Proof.
  induction 1 as [|item rest Hq _ IH]; simpl; [done|]. case_decide; lia.
Qed.

Lemma restore_loop now transactionId items st :
  exists st' rows,
    for_of items (restore_item now transactionId) st = (Ok tt, st')
    /\ (forall product_id,
          stock_of st' product_id
          = (fun s => s + units_of product_id items) <$> stock_of st product_id)
    /\ inventoryMovementsTable st' = inventoryMovementsTable st ++ rows
    /\ ledger_rows_for mv_in "transaction_cancellation" transactionId items rows
    /\ transactionsTable st' = transactionsTable st
    /\ transactionItemsTable st' = transactionItemsTable st.
Proof.
  revert st. induction items as [|item rest IH]; intros st.
  - exists st, []. simpl. repeat split; [|by rewrite app_nil_r|constructor].
    intros j. destruct (stock_of st j); simpl; f_equal; lia.
  - simpl. unfold bind at 1.
    destruct (restore_item now transactionId item st) as [r st1] eqn:Hitem.
    unfold restore_item, bind in Hitem. simpl in Hitem.
    injection Hitem as <- <-.
    match goal with |- context [ for_of rest _ ?s ] =>
      destruct (IH s) as (st' & rows & Hrun & Hstock & Hrows & Hfor & Ht & Hi) end.
    eexists st', (_ :: rows). split; [exact Hrun|].
    simpl in Hrows, Ht, Hi. repeat split; [|by rewrite Hrows, <- app_assoc| |done..].
    + intros j. rewrite Hstock. unfold stock_of at 1. simpl.
      rewrite stock_of_alter. unfold stock_of. case_decide as Hj.
      * subst j. destruct (productsTable st !! _); simpl; f_equal; lia.
      * destruct (productsTable st !! j); simpl; f_equal; lia.
    + by constructor.
Qed.

Lemma reduce_loop now transactionId items st :
  Forall (fun it => 0 <= TransactionItem.quantity it) items ->
  (forall item, item ∈ items ->
     exists s, stock_of st (TransactionItem.product_id item) = Some s
               /\ units_of (TransactionItem.product_id item) items <= s) ->
  exists st' rows,
    for_of items (reduce_item now transactionId) st = (Ok tt, st')
    /\ (forall product_id,
          stock_of st' product_id
          = (fun s => s - units_of product_id items) <$> stock_of st product_id)
    /\ inventoryMovementsTable st' = inventoryMovementsTable st ++ rows
    /\ ledger_rows_for mv_out "transaction_completion" transactionId items rows
    /\ transactionsTable st' = transactionsTable st
    /\ transactionItemsTable st' = transactionItemsTable st.
Proof.
  revert st. induction items as [|item rest IH]; intros st Hq Hstock.
  - exists st, []. simpl. repeat split; [|by rewrite app_nil_r|constructor].
    intros j. destruct (stock_of st j); simpl; f_equal; lia.
  - apply Forall_cons in Hq as [Hq Hqs].
    pose proof (units_of_nonneg (TransactionItem.product_id item) rest Hqs) as Hrest.
    destruct (Hstock item ltac:(left)) as (s & Hs & Hle).
    simpl in Hle. rewrite decide_True in Hle by done.
    unfold stock_of in Hs.
    destruct (productsTable st !! TransactionItem.product_id item)
      as [product|] eqn:Hp; [|done].
    injection Hs as Hs.
    simpl. unfold bind at 1.
    destruct (reduce_item now transactionId item st) as [r st1] eqn:Hitem.
    unfold reduce_item, bind, select_product in Hitem. simpl in Hitem.
    rewrite Hp in Hitem. simpl in Hitem.
    rewrite (proj2 (Z.ltb_ge _ _)) in Hitem by lia. simpl in Hitem.
    injection Hitem as <- <-.
    match goal with |- context [ for_of rest _ ?s ] =>
      destruct (IH s Hqs) as (st' & rows & Hrun & Hstock' & Hrows & Hfor & Ht & Hi) end.
    { intros other Hother.
      destruct (Hstock other ltac:(by right)) as (s' & Hs' & Hle').
      unfold stock_of at 1. simpl. rewrite stock_of_alter. simpl in Hle'.
      case_decide as Hsame.
      - rewrite <- Hsame, Hp. simpl. eexists; split; [done|].
        rewrite <- Hsame in Hs', Hle'. unfold stock_of in Hs'. rewrite Hp in Hs'.
        injection Hs' as <-. lia.
      - exists s'. split; [done|]. lia. }
    eexists st', (_ :: rows). split; [exact Hrun|].
    simpl in Hrows, Ht, Hi. repeat split; [|by rewrite Hrows, <- app_assoc| |done..].
    + intros j. rewrite Hstock'. unfold stock_of at 1. simpl.
      rewrite stock_of_alter. unfold stock_of. case_decide as Hj.
      * subst j. rewrite Hp. simpl. f_equal. lia.
      * destruct (productsTable st !! j); simpl; f_equal; lia.
    + by constructor.
Qed.

(** A status change whose inventory action succeeds is followed by the
    write of the row. *)
Lemma updateTransaction_after_status_change now input st current status st1 :
  transactionsTable st !! ut_id input = Some current ->
  ut_status input = Some status ->
  status <> Transaction.status current ->
  handleStatusChange now (ut_id input) (Transaction.status current) status st
  = (Ok tt, st1) ->
  exists t st',
    updateTransaction now input st = (Ok (ut_id input, t), st')
    /\ Transaction.status t = status
    /\ transactionsTable st' = <[ut_id input := t]> (transactionsTable st)
    /\ productsTable st' = productsTable st1
    /\ transactionItemsTable st' = transactionItemsTable st
    /\ inventoryMovementsTable st' = inventoryMovementsTable st1.
Proof.
  intros Hcur Hstatus Hne Hrun.
  pose proof (handleStatusChange_frame now (ut_id input) (Transaction.status current)
                status st) as [Ht Hi].
  rewrite Hrun in Ht, Hi. simpl in Ht, Hi.
  unfold updateTransaction. rewrite bind_select_transaction, Hcur, Hstatus. simpl.
  rewrite decide_True by done.
  unfold bind at 1. rewrite Hrun.
  unfold bind, update_transaction. simpl.
  rewrite lookup_alter_eq, Ht, Hcur. simpl.
  eexists _, _. split; [reflexivity|]. simpl.
  repeat split; [by rewrite Hstatus|by apply alter_lookup_Some|done].
Qed.

(** What a loop of the cancelled -> completed branch that succeeds has
    written. *)
Lemma reduce_loop_Ok now transactionId items st st' :
  for_of items (reduce_item now transactionId) st = (Ok tt, st') ->
  exists rows,
    (forall product_id,
       stock_of st' product_id
       = (fun s => s - units_of product_id items) <$> stock_of st product_id)
    /\ inventoryMovementsTable st' = inventoryMovementsTable st ++ rows
    /\ ledger_rows_for mv_out "transaction_completion" transactionId items rows.
Proof.
  revert st. induction items as [|item rest IH]; intros st; simpl.
  - intros [= <-]. exists []. split_and!; [|by rewrite app_nil_r|constructor].
    intros j. destruct (stock_of st j); simpl; f_equal; lia.
  - unfold bind at 1.
    destruct (reduce_item now transactionId item st) as [[[]|e] s1] eqn:Hitem;
      [|discriminate].
    intros Hrest. destruct (IH _ Hrest) as (rows & Hstock & Hrows & Hfor).
    unfold reduce_item, bind, select_product in Hitem. simpl in Hitem.
    destruct (productsTable st !! TransactionItem.product_id item)
      as [product|] eqn:Hp; simpl in Hitem; [|discriminate].
    destruct (Product.stock_quantity product <? TransactionItem.quantity item);
      simpl in Hitem; [discriminate|].
    injection Hitem as <-. simpl in Hrows.
    eexists (_ :: rows). split_and!.
    + intros j. rewrite Hstock. unfold stock_of at 1. simpl.
      rewrite stock_of_alter. unfold stock_of. case_decide as Hj.
      * subst j. rewrite Hp. simpl. f_equal. lia.
      * destruct (productsTable st !! j); simpl; f_equal; lia.
    + by rewrite Hrows, <- app_assoc.
    + by constructor.
Qed.

(** C6: take a completed transaction and change its status to cancelled
    and then back to completed.  When both calls return, the stock of
    every product is what it was at the start, and the ledger has grown
    by one ['in'] row per line item with reference
    ['transaction_cancellation'] followed by one ['out'] row per line item
    with reference ['transaction_completion'], that is by twice the number
    of line items. *)
Theorem cancel_then_complete_restores_stock
    now1 now2 input1 input2 st current r1 st1 r2 st2 :
  transactionsTable st !! ut_id input1 = Some current ->
  Transaction.status current = completed ->
  ut_status input1 = Some cancelled ->
  ut_id input2 = ut_id input1 ->
  ut_status input2 = Some completed ->
  updateTransaction now1 input1 st = (Ok r1, st1) ->
  updateTransaction now2 input2 st1 = (Ok r2, st2) ->
  exists ins outs,
    (forall product_id, stock_of st2 product_id = stock_of st product_id)
    /\ inventoryMovementsTable st2 = inventoryMovementsTable st ++ ins ++ outs
    /\ length ins = length (items_of st (ut_id input1))
    /\ length outs = length (items_of st (ut_id input1))
    /\ ledger_rows_for mv_in "transaction_cancellation" (ut_id input1)
         (items_of st (ut_id input1)) ins
    /\ ledger_rows_for mv_out "transaction_completion" (ut_id input1)
         (items_of st (ut_id input1)) outs.
Proof.
  intros Hcur Hcompleted Hstatus1 Hid Hstatus2 Hrun1 Hrun2.
  set (id := ut_id input1) in *. set (items := items_of st id) in *.
  (* completed -> cancelled *)
  destruct (restore_loop now1 id items st)
    as (sa & ins & Hrestore & Hstock_a & Hrows_a & Hins & Ht_a & Hi_a).
  destruct (updateTransaction_after_status_change now1 input1 st current cancelled sa)
    as (t1 & st1' & Hrun1' & Hst1 & Ht1 & Hp1 & Hi1 & Hm1);
    [done|done|by rewrite Hcompleted| |].
  { rewrite Hcompleted. fold id. by rewrite handleStatusChange_restore. }
  rewrite Hrun1 in Hrun1'. injection Hrun1' as -> ->.
  (* cancelled -> completed *)
  assert (items_of st1' id = items) as Hitems1.
  { unfold items, items_of. by rewrite Hi1. }
  assert (forall j, stock_of st1' j = stock_of sa j) as Hstock1.
  { intros j. unfold stock_of. by rewrite Hp1. }
  assert (transactionsTable st1' !! ut_id input2 = Some t1) as Hcur2.
  { by rewrite Hid, Ht1, lookup_insert_eq. }
  destruct (for_of items (reduce_item now2 id) st1') as [[[]|e] sb] eqn:Hreduce.
  - destruct (reduce_loop_Ok _ _ _ _ _ Hreduce) as (outs & Hstock_b & Hrows_b & Houts).
    destruct (updateTransaction_after_status_change now2 input2 st1' t1 completed sb)
      as (t2 & st2' & Hrun2' & Hst2 & Ht2 & Hp2 & Hi2 & Hm2);
      [done|done|by rewrite Hst1| |].
    { rewrite Hst1, Hid. fold id.
      by rewrite handleStatusChange_reduce, Hitems1. }
    rewrite Hrun2 in Hrun2'. injection Hrun2' as -> ->.
    exists ins, outs. split_and!.
    + intros j. unfold stock_of at 1. rewrite Hp2.
      change (stock_of sb j = stock_of st j).
      rewrite Hstock_b, Hstock1, Hstock_a.
      destruct (stock_of st j); simpl; f_equal; lia.
    + by rewrite Hm2, Hrows_b, Hm1, Hrows_a, app_assoc.
    + symmetry. by eapply Forall2_length.
    + symmetry. by eapply Forall2_length.
    + done.
    + done.
  - exfalso. revert Hrun2.
    unfold updateTransaction. rewrite bind_select_transaction, Hcur2, Hstatus2. simpl.
    rewrite decide_True by by rewrite Hst1.
    unfold bind at 1. rewrite Hst1, Hid. fold id.
    by rewrite handleStatusChange_reduce, Hitems1, Hreduce.
Qed.

(** C6 on a sale of 30 units out of a stock of 100. *)
Lemma cancel_then_complete_restores_stock_witness :
  exists ins outs,
    (forall product_id,
       stock_of RoundTrip.after_complete product_id
       = stock_of RoundTrip.before product_id)
    /\ inventoryMovementsTable RoundTrip.after_complete
       = inventoryMovementsTable RoundTrip.before ++ ins ++ outs
    /\ length ins = length (items_of RoundTrip.before 1)
    /\ length outs = length (items_of RoundTrip.before 1)
    /\ ledger_rows_for mv_in "transaction_cancellation" 1
         (items_of RoundTrip.before 1) ins
    /\ ledger_rows_for mv_out "transaction_completion" 1
         (items_of RoundTrip.before 1) outs.
Proof.
  apply (cancel_then_complete_restores_stock 2 3 (Shop.set_status 1 cancelled)
           (Shop.set_status 1 completed) RoundTrip.before
           (Shop.sale_row (Shop.sale [Shop.item 1 30]) 1)
           (1, RoundTrip.row cancelled 2) RoundTrip.after_cancel
           (1, RoundTrip.row completed 3) RoundTrip.after_complete).
  - vm_compute. reflexivity.
  - reflexivity.
  - reflexivity.
  - reflexivity.
  - reflexivity.
  - vm_compute. reflexivity.
  - vm_compute. reflexivity.
Defined.

(** * Properties of the rest of the stock subsystem *)

(** ** Computations that keep a relation *)

Section Keeps.
Context (R : Store -> Store -> Prop) `{!Reflexive R, !Transitive R}.

Lemma keeps_ret {A} (a : A) : keeps R (ret a).
Proof. intros st. simpl. reflexivity. Qed.

Lemma keeps_throw {A} e : keeps R (throw (A := A) e).
Proof. intros st. simpl. reflexivity. Qed.

Lemma keeps_bind {A B} (m : Db A) (k : A -> Db B) :
  keeps R m -> (forall a, keeps R (k a)) -> keeps R (bind m k).
Proof.
  intros Hm Hk st. unfold bind. specialize (Hm st).
  destruct (m st) as [[a|e] st1]; simpl in *; [|done].
  by etrans; [|apply Hk].
Qed.

Lemma keeps_for_of {A} (xs : list A) (body : A -> Db unit) :
  (forall x, x ∈ xs -> keeps R (body x)) -> keeps R (for_of xs body).
Proof.
  induction xs as [|x xs IH]; intros Hbody; [apply keeps_ret|].
  simpl. apply keeps_bind; [apply Hbody; by left|].
  intros _. apply IH. intros y Hy. apply Hbody. by right.
Qed.

Lemma keeps_db_transaction {A} (m : Db A) :
  (forall st st', R st st' -> R st (rollback st st')) ->
  keeps R m -> keeps R (db_transaction m).
Proof.
  intros Hroll Hm st. unfold db_transaction. specialize (Hm st).
  destruct (m st) as [[a|e] st1]; simpl in *; [done|]. by apply Hroll.
Qed.

Lemma keeps_select_product id : keeps R (select_product id).
Proof. intros st. simpl. reflexivity. Qed.

Lemma keeps_select_transaction id : keeps R (select_transaction id).
Proof. intros st. simpl. reflexivity. Qed.

Lemma keeps_select_transaction_items id : keeps R (select_transaction_items id).
Proof. intros st. simpl. reflexivity. Qed.
End Keeps.

Lemma rel_bind {A B} (R : Store -> Store -> Prop) `{!Transitive R}
    (m : Db A) (k : A -> Db B) st :
  R st (snd (m st)) ->
  (forall a st1, R st1 (snd (k a st1))) ->
  R st (snd (bind m k st)).
Proof.
  intros Hm Hk. unfold bind. destruct (m st) as [[a|e] st1]; simpl in *; [|done].
  by etrans; [|apply Hk].
Qed.

Lemma opened_consistent stock1 stock2 :
  0 <= stock1 -> 0 <= stock2 -> consistent (Shop.opened stock1 stock2).
Proof.
  intros H1 H2. split; [|constructor..].
  intros id p Hp. simpl in Hp.
  apply lookup_insert_Some in Hp as [[_ <-]|[_ Hp]]; [done|].
  by apply lookup_singleton_Some in Hp as [_ <-].
Qed.

(** ** The ledger and the stock move together *)

Lemma ledger_total_app product_id rows1 rows2 :
  ledger_total product_id (rows1 ++ rows2)
  = ledger_total product_id rows1 + ledger_total product_id rows2.
Proof. induction rows1 as [|m rows1 IH]; simpl; [done|]. rewrite IH. lia. Qed.

#[local] Instance same_unledgered_refl : Reflexive same_unledgered.
Proof. by intros st j. Qed.

#[local] Instance same_unledgered_trans : Transitive same_unledgered.
Proof. intros st1 st2 st3 H12 H23 j. by rewrite H23. Qed.

Lemma same_unledgered_rows st st' :
  productsTable st' = productsTable st ->
  inventoryMovementsTable st' = inventoryMovementsTable st ->
  same_unledgered st st'.
Proof. intros Hp Hm j. unfold unledgered, stock_of. by rewrite Hp, Hm. Qed.

(** One ledger row and the matching change of one product. *)
Lemma same_unledgered_step st st' m :
  inventoryMovementsTable st' = inventoryMovementsTable st ++ [m] ->
  (forall j,
     stock_of st' j
     = if decide (InventoryMovement.product_id m = j)
       then (fun s => s + row_delta m) <$> stock_of st j
       else stock_of st j) ->
  same_unledgered st st'.
Proof.
  intros Hm Hs j. unfold unledgered.
  rewrite Hm, ledger_total_app, Hs. simpl.
  case_decide; destruct (stock_of st j); simpl; f_equal; lia.
Qed.

Lemma same_unledgered_createInventoryMovement now input :
  keeps same_unledgered (createInventoryMovement now input).
Proof.
  intros st.
  destruct (createInventoryMovement now input st) as [[m|e] st'] eqn:Hrun; simpl.
  - apply createInventoryMovement_Ok in Hrun
      as (product & Hp & _ & Hid & Hty & Hq & Hm & Hps & _).
    apply (same_unledgered_step _ _ m); [done|].
    intros j. unfold stock_of at 1. rewrite Hps, stock_of_alter, Hid.
    case_decide; [|done]. subst j. unfold stock_of, row_delta.
    by rewrite Hp, Hty, Hq.
  - apply createInventoryMovement_Throw in Hrun as [-> _]. reflexivity.
Qed.

Lemma same_unledgered_sell_item now transaction item :
  0 <= cti_quantity item ->
  keeps same_unledgered (sell_item now transaction item).
Proof.
  intros Hq st. unfold sell_item, bind, select_product; simpl.
  destruct (productsTable st !! cti_product_id item) as [product|] eqn:Hp;
    simpl; [|reflexivity].
  destruct (Product.stock_quantity product <? cti_quantity item); simpl;
    [reflexivity|].
  eapply same_unledgered_step; [reflexivity|]. simpl.
  intros j. unfold stock_of at 1. simpl. rewrite stock_of_alter.
  case_decide; [|done]. subst j. unfold stock_of, row_delta. rewrite Hp. simpl.
  f_equal. lia.
Qed.

Lemma same_unledgered_restore_item now transactionId item :
  keeps same_unledgered (restore_item now transactionId item).
Proof.
  intros st. unfold restore_item, bind; simpl.
  eapply same_unledgered_step; [reflexivity|]. simpl.
  intros j. unfold stock_of at 1. simpl. rewrite stock_of_alter.
  case_decide; [|done]. subst j. unfold stock_of.
  by destruct (productsTable st !! _).
Qed.

Lemma same_unledgered_reduce_item now transactionId item :
  0 <= TransactionItem.quantity item ->
  keeps same_unledgered (reduce_item now transactionId item).
Proof.
  intros Hq st. unfold reduce_item, bind, select_product; simpl.
  destruct (productsTable st !! TransactionItem.product_id item) as [product|] eqn:Hp;
    simpl; [|reflexivity].
  destruct (Product.stock_quantity product <? TransactionItem.quantity item); simpl;
    [reflexivity|].
  eapply same_unledgered_step; [reflexivity|]. simpl.
  intros j. unfold stock_of at 1. simpl. rewrite stock_of_alter.
  case_decide; [|done]. subst j. unfold stock_of, row_delta. rewrite Hp. simpl.
  f_equal. lia.
Qed.

Lemma same_unledgered_createTransaction now input :
  Forall (fun item => 0 <= cti_quantity item) (ct_items input) ->
  keeps same_unledgered (createTransaction now input).
Proof.
  intros Hq. apply (keeps_db_transaction same_unledgered).
  { intros st st' _. by apply same_unledgered_rows. }
  unfold createTransaction_body.
  apply (keeps_bind same_unledgered).
  { intros st. by apply same_unledgered_rows. }
  intros transaction. apply (keeps_bind same_unledgered); [|intros; apply (keeps_ret same_unledgered)].
  apply (keeps_for_of same_unledgered).
  intros item Hin. apply same_unledgered_sell_item.
  by apply (proj1 (Forall_forall _ _) Hq).
Qed.

Lemma same_unledgered_handleStatusChange now transactionId currentStatus newStatus st :
  consistent st ->
  same_unledgered st
    (snd (handleStatusChange now transactionId currentStatus newStatus st)).
Proof.
  intros Hc. unfold handleStatusChange. case_decide; [reflexivity|].
  rewrite bind_select_transaction_items.
  set (items := filter _ _).
  assert (forall item, item ∈ items -> 0 <= TransactionItem.quantity item) as Hitems.
  { intros it [_ Hin]%list_elem_of_filter.
    pose proof (proj1 (Forall_forall _ _) (items_positive _ Hc) it Hin) as Hpos.
    simpl in Hpos. lia. }
  case_decide; [reflexivity|].
  apply (keeps_bind same_unledgered).
  - case_decide; [|apply (keeps_ret same_unledgered)].
    apply (keeps_for_of same_unledgered). intros item _.
    apply same_unledgered_restore_item.
  - intros _. case_decide; [|apply (keeps_ret same_unledgered)].
    apply (keeps_for_of same_unledgered). intros item Hin.
    apply same_unledgered_reduce_item. by apply Hitems.
Qed.

Lemma same_unledgered_updateTransaction now input st :
  consistent st -> same_unledgered st (snd (updateTransaction now input st)).
Proof.
  intros Hc. unfold updateTransaction. rewrite bind_select_transaction.
  destruct (transactionsTable st !! ut_id input) as [current|]; [|reflexivity].
  apply (rel_bind same_unledgered).
  - destruct (ut_status input) as [status|]; [|reflexivity].
    case_decide; [|reflexivity]. by apply same_unledgered_handleStatusChange.
  - intros _ st1. apply (rel_bind same_unledgered).
    + by apply same_unledgered_rows.
    + intros [t|] st2; reflexivity.
Qed.

Lemma same_unledgered_serve st r :
  consistent st -> same_unledgered st (serve st r).
Proof.
  intros Hc. destruct r as [now input|now productId quantity notes|now input|now input];
    simpl.
  - apply same_unledgered_createInventoryMovement.
  - apply same_unledgered_createInventoryMovement.
  - unfold appRouter.createTransaction.
    destruct (createTransactionInputSchema input) eqn:Hschema; [|reflexivity].
    apply same_unledgered_createTransaction.
    apply andb_prop in Hschema as [_ Hitems].
    apply Forall_forall. intros item Hin%list_elem_of_In.
    rewrite forallb_forall in Hitems.
    apply Hitems, andb_prop in Hin as [Hin _]. lia.
  - unfold appRouter.updateTransaction.
    destruct (updateTransactionInputSchema input); [|reflexivity].
    by apply same_unledgered_updateTransaction.
Qed.

(** X1: start from a store with no negative stock, line items of
    positive quantity and line items of products of the store.  Through
    any sequence of requests to the four procedures that write stock,
    served or rejected, the stock of every product moves with its ledger:
    the stock less the sum of the changes its ledger rows stand for is
    what it was at the start.  A row stands for its quantity when it
    is ['in'] or ['adjustment'] and for minus the magnitude of its quantity
    when it is ['out'], whichever sign the handler stored it with. *)
Theorem ledger_agrees_with_stock rs st :
  consistent st ->
  forall product_id,
    unledgered (serve_all st rs) product_id = unledgered st product_id.
Proof.
  revert st. induction rs as [|r rs IH]; intros st Hc j; [done|].
  simpl. rewrite IH by by apply consistent_serve.
  by apply same_unledgered_serve.
Qed.

(** X1 for product 1 over a day with two rejected requests. *)
Lemma ledger_agrees_with_stock_witness :
  unledgered Day.evening 1 = unledgered Day.morning 1.
Proof.
  apply (ledger_agrees_with_stock Day.requests Day.morning).
  apply opened_consistent; lia.
Defined.

(** ** What holds of the statements holds of the requests *)

Section Writes.
Context (R : Store -> Store -> Prop) `{!Reflexive R, !Transitive R}.
Hypothesis R_update_product :
  forall id set,
    (forall p, product_card (set p) = product_card p) ->
    keeps R (update_product id set).
Hypothesis R_insert_inventory_movement :
  forall values,
    (forall id, InventoryMovement.id (values id) = id) ->
    keeps R (insert_inventory_movement values).
Hypothesis R_insert_transaction_item :
  forall values,
    (forall id, TransactionItem.id (values id) = id) ->
    keeps R (insert_transaction_item values).
Hypothesis R_insert_transaction : forall row, keeps R (insert_transaction row).
Hypothesis R_update_transaction : forall id set, keeps R (update_transaction id set).
Hypothesis R_rollback : forall st st', R st st' -> R st (rollback st st').

Lemma writes_createInventoryMovement now input :
  keeps R (createInventoryMovement now input).
Proof.
  apply (keeps_db_transaction R); [done|].
  apply (keeps_bind R); [apply (keeps_select_product R)|].
  intros [product|]; [|apply (keeps_throw R)].
  cbv zeta. destruct (_ <? _); [apply (keeps_throw R)|].
  apply (keeps_bind R); [by apply R_insert_inventory_movement|].
  intros movement. apply (keeps_bind R); [by apply R_update_product|].
  intros _. apply (keeps_ret R).
Qed.

Lemma writes_sell_item now transaction item : keeps R (sell_item now transaction item).
Proof.
  apply (keeps_bind R); [apply (keeps_select_product R)|].
  intros [product|]; [|apply (keeps_throw R)].
  destruct (_ <? _); [apply (keeps_throw R)|].
  apply (keeps_bind R); [by apply R_insert_transaction_item|]. intros _.
  apply (keeps_bind R); [by apply R_update_product|]. intros _.
  apply (keeps_bind R); [by apply R_insert_inventory_movement|]. intros _.
  apply (keeps_ret R).
Qed.

Lemma writes_createTransaction now input : keeps R (createTransaction now input).
Proof.
  apply (keeps_db_transaction R); [done|].
  apply (keeps_bind R); [apply R_insert_transaction|]. intros transaction.
  apply (keeps_bind R); [|intros; apply (keeps_ret R)].
  apply (keeps_for_of R). intros item _. apply writes_sell_item.
Qed.

Lemma writes_restore_item now transactionId item :
  keeps R (restore_item now transactionId item).
Proof.
  apply (keeps_bind R); [by apply R_update_product|]. intros _.
  apply (keeps_bind R); [by apply R_insert_inventory_movement|]. intros _.
  apply (keeps_ret R).
Qed.

Lemma writes_reduce_item now transactionId item :
  keeps R (reduce_item now transactionId item).
Proof.
  apply (keeps_bind R); [apply (keeps_select_product R)|].
  intros [product|]; [|apply (keeps_throw R)].
  destruct (_ <? _); [apply (keeps_throw R)|].
  apply (keeps_bind R); [by apply R_update_product|]. intros _.
  apply (keeps_bind R); [by apply R_insert_inventory_movement|]. intros _.
  apply (keeps_ret R).
Qed.

Lemma writes_handleStatusChange now transactionId currentStatus newStatus :
  keeps R (handleStatusChange now transactionId currentStatus newStatus).
Proof.
  unfold handleStatusChange. case_decide; [apply (keeps_ret R)|].
  apply (keeps_bind R); [apply (keeps_select_transaction_items R)|].
  intros items. case_decide; [apply (keeps_ret R)|].
  apply (keeps_bind R).
  - case_decide; [|apply (keeps_ret R)].
    apply (keeps_for_of R). intros item _. apply writes_restore_item.
  - intros _. case_decide; [|apply (keeps_ret R)].
    apply (keeps_for_of R). intros item _. apply writes_reduce_item.
Qed.

Lemma writes_updateTransaction now input : keeps R (updateTransaction now input).
Proof.
  apply (keeps_bind R); [apply (keeps_select_transaction R)|].
  intros [current|]; [|apply (keeps_throw R)].
  apply (keeps_bind R).
  - destruct (ut_status input) as [status|]; [|apply (keeps_ret R)].
    case_decide; [|apply (keeps_ret R)]. apply writes_handleStatusChange.
  - intros _. apply (keeps_bind R); [apply R_update_transaction|].
    intros [t|]; [apply (keeps_ret R)|apply (keeps_throw R)].
Qed.

Lemma writes_serve st r : R st (serve st r).
Proof.
  destruct r as [now input|now productId quantity notes|now input|now input]; simpl.
  - apply writes_createInventoryMovement.
  - apply writes_createInventoryMovement.
  - unfold appRouter.createTransaction.
    destruct (createTransactionInputSchema input); [|reflexivity].
    apply writes_createTransaction.
  - unfold appRouter.updateTransaction.
    destruct (updateTransactionInputSchema input); [|reflexivity].
    apply writes_updateTransaction.
Qed.

Lemma writes_serve_all st rs : R st (serve_all st rs).
Proof.
  revert st. induction rs as [|r rs IH]; intros st; [reflexivity|].
  simpl. etrans; [apply writes_serve|apply IH].
Qed.
End Writes.

(** ** The write requests only append *)

#[local] Instance grows_refl : Reflexive grows.
Proof. intros st. by split. Qed.

#[local] Instance grows_trans : Transitive grows.
Proof.
  intros st1 st2 st3 [Hm12 Hi12 Hp12] [Hm23 Hi23 Hp23]. split.
  - by etrans.
  - by etrans.
  - intros j. by rewrite Hp23.
Qed.

Lemma grows_update_product id set :
  (forall p, product_card (set p) = product_card p) ->
  keeps grows (update_product id set).
Proof.
  intros Hset st. split; simpl; [done..|].
  intros j. rewrite lookup_alter. case_decide; [|done]. subst j.
  destruct (productsTable st !! id); simpl; [|done]. by rewrite Hset.
Qed.

Lemma grows_insert_inventory_movement values :
  keeps grows (insert_inventory_movement values).
Proof. intros st. split; simpl; [by apply prefix_app_r|done..]. Qed.

Lemma grows_insert_transaction_item values :
  keeps grows (insert_transaction_item values).
Proof. intros st. split; simpl; [done|by apply prefix_app_r|done]. Qed.

Lemma grows_insert_transaction row : keeps grows (insert_transaction row).
Proof. intros st. by split. Qed.

Lemma grows_update_transaction id set : keeps grows (update_transaction id set).
Proof. intros st. by split. Qed.

Lemma grows_rollback st st' : grows st (rollback st st').
Proof. by split. Qed.

(** X2: no sequence of requests to the four procedures that write stock,
    served or rejected, removes, changes or reorders a ledger row or a
    line item, adds or removes a product, or changes a column of a product
    other than [stock_quantity] and [updated_at]. *)
Theorem requests_only_append rs st :
  inventoryMovementsTable st `prefix_of` inventoryMovementsTable (serve_all st rs)
  /\ transactionItemsTable st `prefix_of` transactionItemsTable (serve_all st rs)
  /\ forall product_id,
       product_card <$> productsTable (serve_all st rs) !! product_id
       = product_card <$> productsTable st !! product_id.
Proof.
  assert (grows st (serve_all st rs)) as [Hm Hi Hp]; [|done].
  apply (writes_serve_all grows).
  - intros id set Hset. by apply grows_update_product.
  - intros values _. apply grows_insert_inventory_movement.
  - intros values _. apply grows_insert_transaction_item.
  - apply grows_insert_transaction.
  - apply grows_update_transaction.
  - intros st1 st2 _. apply grows_rollback.
Qed.

(** ** Ids are never reused *)

#[local] Instance advances_refl : Reflexive advances.
Proof. intros st. by split. Qed.

#[local] Instance advances_trans : Transitive advances.
Proof.
  intros st1 st2 st3 [Ht12 Hi12 Hm12 Hf12] [Ht23 Hi23 Hm23 Hf23].
  split; [lia..|auto].
Qed.

Lemma NoDup_snoc_fresh (ids : list Z) (next : Z) :
  Forall (fun id => id < next) ids -> NoDup ids -> NoDup (ids ++ [next]).
Proof.
  intros Hlt Hnd. apply NoDup_app. split; [done|]. split; [|apply NoDup_singleton].
  intros id Hin ->%list_elem_of_singleton.
  pose proof (proj1 (Forall_forall _ _) Hlt _ Hin) as Hid. simpl in Hid. lia.
Qed.

Lemma advances_update_product id set : keeps advances (update_product id set).
Proof. intros st. split; simpl; [lia..|]. intros [? ? ? ? ?]. by split. Qed.

Lemma advances_insert_inventory_movement values :
  (forall id, InventoryMovement.id (values id) = id) ->
  keeps advances (insert_inventory_movement values).
Proof.
  intros Hid st. split; simpl; [lia..|].
  intros [Ht Hi Hin Hm Hmn]. split; simpl; [done..| |].
  - apply Forall_app. split.
    + eapply Forall_impl; [exact Hm|]. intros m Hlt. simpl in *. lia.
    + repeat constructor. rewrite Hid. lia.
  - rewrite fmap_app. simpl. rewrite Hid. apply NoDup_snoc_fresh; [|done].
    by apply Forall_fmap.
Qed.

Lemma advances_insert_transaction_item values :
  (forall id, TransactionItem.id (values id) = id) ->
  keeps advances (insert_transaction_item values).
Proof.
  intros Hid st. split; simpl; [lia..|].
  intros [Ht Hi Hin Hm Hmn]. split; simpl; [done| | |done..].
  - apply Forall_app. split.
    + eapply Forall_impl; [exact Hi|]. intros it Hlt. simpl in *. lia.
    + repeat constructor. rewrite Hid. lia.
  - rewrite fmap_app. simpl. rewrite Hid. apply NoDup_snoc_fresh; [|done].
    by apply Forall_fmap.
Qed.

Lemma advances_insert_transaction row : keeps advances (insert_transaction row).
Proof.
  intros st. split; simpl; [lia..|].
  intros [Ht Hi Hin Hm Hmn]. split; simpl; [|done..].
  intros id t [[<- _]|[_ Hold]]%lookup_insert_Some; [lia|].
  specialize (Ht _ _ Hold). lia.
Qed.

Lemma advances_update_transaction id set : keeps advances (update_transaction id set).
Proof.
  intros st. split; simpl; [lia..|].
  intros [Ht Hi Hin Hm Hmn]. split; simpl; [|done..].
  intros j t Hj. assert (is_Some (transactionsTable st !! j)) as [t0 Ht0].
  { apply (lookup_alter_is_Some set _ id). by rewrite Hj. }
  by eapply Ht.
Qed.

Lemma advances_rollback st st' : advances st st' -> advances st (rollback st st').
Proof.
  intros [Ht Hi Hm _]. split; simpl; [done..|].
  intros [Hft Hfi Hfin Hfm Hfmn]. split; simpl; [|
    eapply Forall_impl; [exact Hfi|]|done|
    eapply Forall_impl; [exact Hfm|]|done].
  - intros id t Hid. specialize (Hft _ _ Hid). lia.
  - intros it Hlt. simpl in *. lia.
  - intros m Hlt. simpl in *. lia.
Qed.

Lemma opened_fresh stock1 stock2 : fresh (Shop.opened stock1 stock2).
Proof. split; simpl; [done|constructor..]. Qed.

(** X3: in a store whose sequences are ahead of the ids in use, they stay
    ahead through any sequence of requests to the four procedures that
    write stock, served or rejected or rolled back; so no line item and no
    ledger row ever gets the id of another. *)
Theorem ids_stay_fresh rs st : fresh st -> fresh (serve_all st rs).
Proof.
  apply (writes_serve_all advances).
  - intros id set _. apply advances_update_product.
  - apply advances_insert_inventory_movement.
  - apply advances_insert_transaction_item.
  - apply advances_insert_transaction.
  - apply advances_update_transaction.
  - apply advances_rollback.
Qed.

(** X3 over a day with a sale that is rolled back. *)
Lemma ids_stay_fresh_witness : fresh Day.evening.
Proof. apply (ids_stay_fresh Day.requests Day.morning). apply opened_fresh. Defined.

(** ** Sales that are accepted *)

Lemma ordered_nonneg product_id items :
  Forall (fun item => 0 <= cti_quantity item) items -> 0 <= ordered product_id items.
Proof. induction 1 as [|item rest Hq _ IH]; simpl; [done|]. case_decide; lia. Qed.

Lemma ordered_absent product_id items :
  (forall item, item ∈ items -> cti_product_id item <> product_id) ->
  ordered product_id items = 0.
Proof.
  induction items as [|item rest IH]; intros Habs; simpl; [done|].
  rewrite decide_False by (apply Habs; by left).
  rewrite IH; [done|]. intros other Hin. apply Habs. by right.
Qed.

(** One line of a sale that is accepted. *)
Lemma sell_item_Ok now transaction item st st' :
  sell_item now transaction item st = (Ok tt, st') ->
  exists product row m,
    productsTable st !! cti_product_id item = Some product
    /\ cti_quantity item <= Product.stock_quantity product
    /\ productsTable st'
       = alter (Product.set_stock (Product.stock_quantity product - cti_quantity item) now)
               (cti_product_id item) (productsTable st)
    /\ transactionItemsTable st' = transactionItemsTable st ++ [row]
    /\ line_of (fst transaction) now item row
    /\ inventoryMovementsTable st' = inventoryMovementsTable st ++ [m]
    /\ sold_row_of (fst transaction) now item m
    /\ transactionsTable st' = transactionsTable st.
Proof.
  unfold sell_item, bind, select_product; simpl.
  destruct (productsTable st !! cti_product_id item) as [product|] eqn:Hp;
    simpl; [|discriminate].
  destruct (Product.stock_quantity product <? cti_quantity item) eqn:Hlt;
    simpl; [discriminate|].
  apply Z.ltb_ge in Hlt. intros [= <-]. simpl.
  eexists product, _, _. split_and!; try done.
  split_and!; try done. simpl. apply numeric_10_2_times.
Qed.

Lemma sell_item_accepts now transaction item st product :
  productsTable st !! cti_product_id item = Some product ->
  cti_quantity item <= Product.stock_quantity product ->
  exists st', sell_item now transaction item st = (Ok tt, st').
Proof.
  intros Hp Hle. unfold sell_item, bind, select_product; simpl.
  rewrite Hp. simpl. rewrite (proj2 (Z.ltb_ge _ _)) by done. simpl. eauto.
Qed.

Lemma stock_of_sold st st' item product now :
  productsTable st !! cti_product_id item = Some product ->
  productsTable st'
  = alter (Product.set_stock (Product.stock_quantity product - cti_quantity item) now)
          (cti_product_id item) (productsTable st) ->
  forall j,
    stock_of st' j
    = (fun s => s - (if decide (cti_product_id item = j) then cti_quantity item else 0))
        <$> stock_of st j.
Proof.
  intros Hp Hps j. unfold stock_of at 1. rewrite Hps, stock_of_alter.
  case_decide.
  - subst j. unfold stock_of. rewrite Hp. done.
  - destruct (stock_of st j); simpl; f_equal; lia.
Qed.


(** A sale is accepted exactly when it is covered. *)
Lemma sell_loop_accepts now transaction items st :
  Forall (fun item => 0 <= cti_quantity item) items ->
  (exists st', for_of items (sell_item now transaction) st = (Ok tt, st'))
  <-> covered st items.
Proof.
  revert st. induction items as [|item rest IH]; intros st Hq.
  { split; [intros _ item Hin; by apply elem_of_nil in Hin|]. simpl. eauto. }
  apply Forall_cons in Hq as [Hq Hqs].
  pose proof (ordered_nonneg (cti_product_id item) rest Hqs) as Hrest.
  simpl. unfold bind at 1. split.
  - intros [st' Hrun].
    destruct (sell_item now transaction item st) as [[[]|e] st1] eqn:Hitem;
      [|discriminate].
    apply sell_item_Ok in Hitem
      as (product & row & m & Hp & Hle & Hps & _).
    pose proof (stock_of_sold st st1 item product now Hp Hps) as Hst1.
    assert (covered st1 rest) as Hcov by (apply IH; eauto).
    assert (forall other, other ∈ item :: rest ->
              cti_product_id other = cti_product_id item ->
              ordered (cti_product_id item) rest + cti_quantity item
              <= Product.stock_quantity product) as Hsame.
    { destruct (decide (Exists (fun o => cti_product_id o = cti_product_id item) rest))
        as [Hex|Hnex].
      - apply Exists_exists in Hex as (o & Hin & Ho).
        destruct (Hcov o Hin) as (s & Hs & Hle'). rewrite Ho in Hs, Hle'.
        rewrite Hst1 in Hs. unfold stock_of in Hs. rewrite Hp in Hs. simpl in Hs.
        rewrite decide_True in Hs by done. injection Hs as <-. intros. lia.
      - intros _ _ _. rewrite ordered_absent; [lia|].
        intros o Hin Ho. apply Hnex, Exists_exists. eauto. }
    intros other Hin. simpl.
    destruct (decide (cti_product_id other = cti_product_id item)) as [Heq|Hne].
    + rewrite Heq. exists (Product.stock_quantity product).
      unfold stock_of. rewrite Hp. split; [done|].
      rewrite decide_True by done. specialize (Hsame other Hin Heq). lia.
    + apply elem_of_cons in Hin as [->|Hin]; [done|].
      destruct (Hcov other Hin) as (s & Hs & Hle').
      rewrite Hst1 in Hs. rewrite decide_False in Hs by done.
      destruct (stock_of st (cti_product_id other)) as [s0|] eqn:Hs0; [|done].
      simpl in Hs. injection Hs as <-. exists s0. split; [done|].
      rewrite decide_False by done. lia.
  - intros Hcov.
    destruct (Hcov item ltac:(left)) as (s & Hs & Hle). simpl in Hle.
    rewrite decide_True in Hle by done.
    unfold stock_of in Hs.
    destruct (productsTable st !! cti_product_id item) as [product|] eqn:Hp; [|done].
    injection Hs as <-.
    destruct (sell_item_accepts now transaction item st product Hp) as [st1 Hitem];
      [lia|].
    rewrite Hitem.
    apply sell_item_Ok in Hitem as Hparts.
    destruct Hparts as (product' & row & m & Hp' & _ & Hps & _).
    rewrite Hp in Hp'. injection Hp' as <-.
    pose proof (stock_of_sold st st1 item product now Hp Hps) as Hst1.
    apply IH; [done|].
    intros other Hin. destruct (Hcov other ltac:(by right)) as (s & Hs & Hle').
    simpl in Hle'. rewrite Hst1, Hs. simpl.
    eexists. split; [done|]. case_decide; lia.
Qed.

Lemma createTransaction_runs_loop now input st :
  createTransaction now input st
  = match for_of (ct_items input)
            (sell_item now (transactions_id_seq st, Shop.sale_row input now))
            (snd (insert_transaction (Shop.sale_row input now) st)) with
    | (Ok _, st') => (Ok (transactions_id_seq st, Shop.sale_row input now), st')
    | (Throw e, st') => (Throw e, rollback st st')
    end.
Proof.
  unfold createTransaction, db_transaction, createTransaction_body.
  unfold bind at 1. simpl. unfold bind.
  by destruct (for_of _ _ _) as [[[]|e] st'].
Qed.

Lemma createTransaction_accepts now input st :
  createTransactionInputSchema input = true ->
  (exists t st', appRouter.createTransaction now input st = (Ok t, st'))
  <-> covered st (ct_items input).
Proof.
  intros Hschema. unfold appRouter.createTransaction. rewrite Hschema.
  assert (Forall (fun item => 0 <= cti_quantity item) (ct_items input)) as Hq.
  { apply andb_prop in Hschema as [_ Hitems].
    apply Forall_forall. intros item Hin%list_elem_of_In.
    rewrite forallb_forall in Hitems.
    apply Hitems, andb_prop in Hin as [Hin _]. lia. }
  rewrite createTransaction_runs_loop.
  rewrite <- (sell_loop_accepts now (transactions_id_seq st, Shop.sale_row input now)
                (ct_items input) (snd (insert_transaction (Shop.sale_row input now) st)) Hq).
  destruct (for_of _ _ _) as [[[]|e] st1]; split.
  - eauto.
  - eauto.
  - by intros (t & st' & [=]).
  - by intros (st' & [=]).
Qed.

Lemma appRouter_createTransaction_Throw now input st e st' :
  appRouter.createTransaction now input st = (Throw e, st') -> same_rows st st'.
Proof.
  unfold appRouter.createTransaction.
  destruct (createTransactionInputSchema input).
  - unfold createTransaction, db_transaction.
    destruct (createTransaction_body now input st) as [[r|e0] st1]; [discriminate|].
    intros [= _ <-]. apply rollback_same_rows.
  - intros [= _ <-]. apply same_rows_refl.
Qed.

(** X4: a sale is accepted only if every line is of a product of the
    store whose stock covers the total quantity of the lines of that
    product; a sale for which this fails is refused, and no row of it is
    left. *)
Theorem sale_accepted_only_if_covered now input st :
  (forall r st',
     appRouter.createTransaction now input st = (Ok r, st') ->
     covered st (ct_items input))
  /\ (~ covered st (ct_items input) ->
      exists e st',
        appRouter.createTransaction now input st = (Throw e, st')
        /\ same_rows st st').
Proof.
  assert (forall r st',
            appRouter.createTransaction now input st = (Ok r, st') ->
            covered st (ct_items input)) as Haccepted.
  { intros r st' Hrun.
    destruct (createTransactionInputSchema input) eqn:Hschema.
    - apply (createTransaction_accepts now input st Hschema). eauto.
    - unfold appRouter.createTransaction in Hrun. by rewrite Hschema in Hrun. }
  split; [done|]. intros Hshort.
  destruct (appRouter.createTransaction now input st) as [[r|e] st'] eqn:Hrun.
  - destruct Hshort. by eapply Haccepted.
  - exists e, st'. split; [done|]. by eapply appRouter_createTransaction_Throw.
Qed.



(** X6: a sale without lines passes the schema whenever its total is
    positive and its discount is not negative, and the handler has no
    test of stock to make for it: when the call returns, a completed
    transaction is stored under the next id, and no line item, no ledger
    row and no change of a product comes with it. *)
Theorem sale_without_lines_is_stored now input st :
  ct_items input = [] ->
  positive_number (ct_total_amount input) = true ->
  nonnegative_number (ct_discount_amount input) = true ->
  createTransactionInputSchema input = true
  /\ covered st (ct_items input)
  /\ forall r st',
       appRouter.createTransaction now input st = (Ok r, st') ->
       fst r = transactions_id_seq st
       /\ Transaction.status (snd r) = completed
       /\ transactionsTable st' = <[fst r := snd r]> (transactionsTable st)
       /\ transactionItemsTable st' = transactionItemsTable st
       /\ inventoryMovementsTable st' = inventoryMovementsTable st
       /\ productsTable st' = productsTable st.
Proof.
  intros Hitems Htotal Hdiscount.
  assert (createTransactionInputSchema input = true) as Hschema.
  { unfold createTransactionInputSchema. by rewrite Hitems, Htotal, Hdiscount. }
  split; [done|]. split.
  { rewrite Hitems. intros item Hin. by apply elem_of_nil in Hin. }
  intros r st'. unfold appRouter.createTransaction. rewrite Hschema.
  rewrite createTransaction_runs_loop, Hitems. simpl.
  intros [= <- <-]. by repeat split.
Qed.

(** X6 on a sale of 60.00 without lines, which is served. *)
Lemma sale_without_lines_is_stored_witness :
  (createTransactionInputSchema Counter.nothing = true
   /\ covered Counter.before (ct_items Counter.nothing)
   /\ forall r st',
        appRouter.createTransaction 1 Counter.nothing Counter.before = (Ok r, st') ->
        fst r = transactions_id_seq Counter.before
        /\ Transaction.status (snd r) = completed
        /\ transactionsTable st' = <[fst r := snd r]> (transactionsTable Counter.before)
        /\ transactionItemsTable st' = transactionItemsTable Counter.before
        /\ inventoryMovementsTable st' = inventoryMovementsTable Counter.before
        /\ productsTable st' = productsTable Counter.before)
  /\ fst (appRouter.createTransaction 1 Counter.nothing Counter.before)
     = Ok (1, Shop.sale_row Counter.nothing 1).
Proof.
  split.
  - apply (sale_without_lines_is_stored 1 Counter.nothing Counter.before);
      reflexivity.
  - vm_compute. reflexivity.
Defined.

(** ** Adjustments *)

Lemma createInventoryMovement_row now input st m st' :
  createInventoryMovement now input st = (Ok m, st') ->
  m = {| InventoryMovement.id := inventory_movements_id_seq st;
         InventoryMovement.product_id := cim_product_id input;
         InventoryMovement.movement_type := cim_movement_type input;
         InventoryMovement.quantity := cim_quantity input;
         InventoryMovement.reference_type := cim_reference_type input;
         InventoryMovement.reference_id := cim_reference_id input;
         InventoryMovement.notes := cim_notes input;
         InventoryMovement.created_at := now |}.
Proof.
  unfold createInventoryMovement, db_transaction, bind, select_product; simpl.
  destruct (productsTable st !! cim_product_id input) as [product|];
    simpl; [|discriminate].
  destruct (_ <? 0); simpl; [discriminate|]. by intros [= <- <-].
Qed.

Lemma adjustInventory_Ok now productId quantity notes st m st' :
  adjustInventory now productId quantity notes st = (Ok m, st') ->
  InventoryMovement.movement_type m = mv_adjustment
  /\ InventoryMovement.quantity m = quantity
  /\ InventoryMovement.reference_type m = Some "manual"
  /\ InventoryMovement.reference_id m = None
  /\ inventoryMovementsTable st' = inventoryMovementsTable st ++ [m]
  /\ forall j,
       stock_of st' j
       = if decide (productId = j) then (fun s => s + quantity) <$> stock_of st j
         else stock_of st j.
Proof.
  unfold adjustInventory. intros Hrun.
  pose proof (createInventoryMovement_row _ _ _ _ _ Hrun) as ->. simpl.
  apply createInventoryMovement_Ok in Hrun
    as (product & Hp & _ & _ & _ & _ & Hm & Hps & _). simpl in *.
  repeat split; [done|].
  intros j. unfold stock_of at 1. rewrite Hps, stock_of_alter.
  case_decide; [|done]. subst j. unfold stock_of. by rewrite Hp.
Qed.

(** X7: an adjustment is undone by the opposite adjustment.  When both
    calls return, the stock of every product is what it was, and the
    ledger has two more rows, of type ['adjustment'] and reference
    ['manual'], with the quantity and its opposite. *)
Theorem adjustment_is_undone
    now1 now2 productId quantity notes1 notes2 st m1 st1 m2 st2 :
  adjustInventory now1 productId quantity notes1 st = (Ok m1, st1) ->
  adjustInventory now2 productId (- quantity) notes2 st1 = (Ok m2, st2) ->
  (forall j, stock_of st2 j = stock_of st j)
  /\ inventoryMovementsTable st2 = inventoryMovementsTable st ++ [m1; m2]
  /\ InventoryMovement.quantity m1 = quantity
  /\ InventoryMovement.quantity m2 = - quantity
  /\ Forall (fun m => InventoryMovement.movement_type m = mv_adjustment
                      /\ InventoryMovement.reference_type m = Some "manual")
            [m1; m2].
Proof.
  intros Hrun1 Hrun2.
  pose proof (adjustInventory_Ok _ _ _ _ _ _ _ Hrun1)
    as (Hty1 & Hq1 & Hr1 & _ & Hm1 & Hst1).
  pose proof (adjustInventory_Ok _ _ _ _ _ _ _ Hrun2)
    as (Hty2 & Hq2 & Hr2 & _ & Hm2 & Hst2).
  split_and!; try done.
  - intros j. rewrite Hst2, Hst1. case_decide; [|done].
    destruct (stock_of st j); simpl; f_equal; lia.
  - by rewrite Hm2, Hm1, <- app_assoc.
  - by repeat constructor.
Qed.

(** X7 on 15 units taken off a stock of 70 and put back. *)
Lemma adjustment_is_undone_witness :
  (forall j, stock_of Undo.after j = stock_of Undo.before j)
  /\ inventoryMovementsTable Undo.after
     = inventoryMovementsTable Undo.before ++ [Undo.row 1 (-15) (Some "damage") 1;
                                               Undo.row 2 (- -15) None 2]
  /\ InventoryMovement.quantity (Undo.row 1 (-15) (Some "damage") 1) = -15
  /\ InventoryMovement.quantity (Undo.row 2 (- -15) None 2) = - -15
  /\ Forall (fun m => InventoryMovement.movement_type m = mv_adjustment
                      /\ InventoryMovement.reference_type m = Some "manual")
            [Undo.row 1 (-15) (Some "damage") 1; Undo.row 2 (- -15) None 2].
Proof.
  apply (adjustment_is_undone 1 2 1 (-15) (Some "damage") None Undo.before
           (Undo.row 1 (-15) (Some "damage") 1) Undo.between
           (Undo.row 2 (- -15) None 2) Undo.after).
  - vm_compute. reflexivity.
  - vm_compute. reflexivity.
Defined.

(** ** When a status change fails *)

Lemma reduce_item_Throw now transactionId item st e st' :
  reduce_item now transactionId item st = (Throw e, st') ->
  e = ProductNotFound (TransactionItem.product_id item)
  \/ exists available,
       available < TransactionItem.quantity item
       /\ e = InsufficientStock available (TransactionItem.quantity item).
Proof.
  unfold reduce_item, bind, select_product; simpl.
  destruct (productsTable st !! TransactionItem.product_id item) as [product|]; simpl.
  - destruct (Product.stock_quantity product <? TransactionItem.quantity item) eqn:Hlt;
      simpl; [|discriminate].
    intros [= <- <-]. right. exists (Product.stock_quantity product).
    split; [by apply Z.ltb_lt|done].
  - intros [= <- <-]. by left.
Qed.

Lemma handleStatusChange_Throw now transactionId currentStatus newStatus st e st' :
  handleStatusChange now transactionId currentStatus newStatus st = (Throw e, st') ->
  currentStatus = cancelled
  /\ newStatus = completed
  /\ exists item,
       item ∈ items_of st transactionId
       /\ (e = ProductNotFound (TransactionItem.product_id item)
           \/ exists available,
                available < TransactionItem.quantity item
                /\ e = InsufficientStock available (TransactionItem.quantity item)).
Proof.
  destruct (crosses_boundary currentStatus (Some newStatus)) eqn:Hcross.
  - apply crosses_boundary_spec in Hcross as [[-> ->]|[-> ->]].
    + rewrite handleStatusChange_restore.
      destruct (restore_loop now transactionId (items_of st transactionId) st)
        as (st1 & rows & -> & _). discriminate.
    + rewrite handleStatusChange_reduce.
      intros (item & st0 & Hin & Hitem)%for_of_Throw.
      repeat split. exists item. split; [done|]. by eapply reduce_item_Throw.
  - rewrite handleStatusChange_other by done. discriminate.
Qed.

Lemma updateTransaction_Throw_cases now input st e st' :
  updateTransaction now input st = (Throw e, st') ->
  (transactionsTable st !! ut_id input = None
   /\ e = TransactionNotFound (ut_id input)
   /\ st' = st)
  \/ (exists current item,
        transactionsTable st !! ut_id input = Some current
        /\ Transaction.status current = cancelled
        /\ ut_status input = Some completed
        /\ item ∈ items_of st (ut_id input)
        /\ (e = ProductNotFound (TransactionItem.product_id item)
            \/ exists available,
                 available < TransactionItem.quantity item
                 /\ e = InsufficientStock available (TransactionItem.quantity item))).
Proof.
  unfold updateTransaction. rewrite bind_select_transaction.
  destruct (transactionsTable st !! ut_id input) as [current|] eqn:Hcur;
    [|intros [= <- <-]; by left].
  intros Hrun. right. exists current. revert Hrun.
  unfold bind at 1.
  destruct (ut_status input) as [status|] eqn:Hstatus; simpl.
  - case_decide as Hne.
    + destruct (handleStatusChange now (ut_id input) (Transaction.status current)
                  status st) as [[[]|e0] st1] eqn:Hchange.
      * pose proof (handleStatusChange_frame now (ut_id input)
                      (Transaction.status current) status st) as [Ht _].
        rewrite Hchange in Ht. simpl in Ht.
        unfold bind, update_transaction. simpl.
        rewrite lookup_alter_eq, Ht, Hcur. simpl. discriminate.
      * intros [= <- <-].
        apply handleStatusChange_Throw in Hchange as (Hfrom & -> & item & Hin & He).
        by exists item.
    + unfold bind, update_transaction. simpl.
      rewrite lookup_alter_eq, Hcur. simpl. discriminate.
  - unfold bind, update_transaction. simpl.
    rewrite lookup_alter_eq, Hcur. simpl. discriminate.
Qed.

(** X8: the errors that [updateTransaction] raises itself.  When it
    throws that the transaction is not found, no transaction has the id
    and the store is as it was.  When it throws that a product is not
    found or that the stock is insufficient, the stored status is
    cancelled, the patch sets completed, and the error is of one of the
    line items, of a missing product or of more units than the stock at
    its turn. *)
Theorem updateTransaction_own_errors now input st st' :
  (forall id,
     updateTransaction now input st = (Throw (TransactionNotFound id), st') ->
     id = ut_id input
     /\ transactionsTable st !! ut_id input = None
     /\ st' = st)
  /\ (forall product_id,
        updateTransaction now input st = (Throw (ProductNotFound product_id), st') ->
        exists current item,
          transactionsTable st !! ut_id input = Some current
          /\ Transaction.status current = cancelled
          /\ ut_status input = Some completed
          /\ item ∈ items_of st (ut_id input)
          /\ product_id = TransactionItem.product_id item)
  /\ (forall available required,
        updateTransaction now input st
        = (Throw (InsufficientStock available required), st') ->
        exists current item,
          transactionsTable st !! ut_id input = Some current
          /\ Transaction.status current = cancelled
          /\ ut_status input = Some completed
          /\ item ∈ items_of st (ut_id input)
          /\ required = TransactionItem.quantity item
          /\ available < required).
Proof.
  split_and!.
  - intros id Hrun.
    apply updateTransaction_Throw_cases in Hrun
      as [(Hnone & [= ->] & ->)|(current & item & _ & _ & _ & _ & [?|(a & _ & ?)])];
      done.
  - intros product_id Hrun.
    apply updateTransaction_Throw_cases in Hrun
      as [(_ & ? & _)|(current & item & Hcur & Hfrom & Hto & Hin & [He|(a & _ & ?)])];
      [done| |done].
    injection He as ->. by exists current, item.
  - intros available required Hrun.
    apply updateTransaction_Throw_cases in Hrun
      as [(_ & ? & _)|(current & item & Hcur & Hfrom & Hto & Hin & [?|(a & Hlt & He)])];
      [done|done|].
    injection He as -> ->. by exists current, item.
Qed.

(** ** Paths of status changes *)

Lemma reduce_item_Ok_stock now transactionId item st st' :
  reduce_item now transactionId item st = (Ok tt, st') ->
  forall j,
    stock_of st' j
    = (fun s => s - (if decide (TransactionItem.product_id item = j)
                     then TransactionItem.quantity item else 0))
        <$> stock_of st j.
Proof.
  unfold reduce_item, bind, select_product; simpl.
  destruct (productsTable st !! TransactionItem.product_id item) as [product|] eqn:Hp;
    simpl; [|discriminate].
  destruct (_ <? _); simpl; [discriminate|].
  intros [= <-] j. unfold stock_of at 1. simpl. rewrite stock_of_alter.
  case_decide.
  - subst j. unfold stock_of. by rewrite Hp.
  - destruct (stock_of st j); simpl; f_equal; lia.
Qed.

Lemma reduce_loop_Ok_stock now transactionId items st st' :
  for_of items (reduce_item now transactionId) st = (Ok tt, st') ->
  forall j, stock_of st' j = (fun s => s - units_of j items) <$> stock_of st j.
Proof.
  revert st. induction items as [|item rest IH]; intros st; simpl.
  - intros [= <-] j. destruct (stock_of st j); simpl; f_equal; lia.
  - unfold bind at 1.
    destruct (reduce_item now transactionId item st) as [[[]|e] st1] eqn:Hitem;
      [|discriminate].
    intros Hrest j. rewrite (IH _ Hrest), (reduce_item_Ok_stock _ _ _ _ _ Hitem).
    destruct (stock_of st j); simpl; f_equal; lia.
Qed.

(** What one status change that succeeds does to the stock. *)
Lemma handleStatusChange_Ok_stock now transactionId currentStatus newStatus st st' :
  handleStatusChange now transactionId currentStatus newStatus st = (Ok tt, st') ->
  forall j,
    stock_of st' j
    = (fun s => s + restocked currentStatus newStatus
                    * units_of j (items_of st transactionId))
        <$> stock_of st j.
Proof.
  destruct (crosses_boundary currentStatus (Some newStatus)) eqn:Hcross.
  - apply crosses_boundary_spec in Hcross as [[-> ->]|[-> ->]]; simpl.
    + rewrite handleStatusChange_restore.
      destruct (restore_loop now transactionId (items_of st transactionId) st)
        as (st1 & rows & -> & Hstock & _).
      intros [= <-] j. rewrite Hstock.
      destruct (stock_of st j); simpl; f_equal; lia.
    + rewrite handleStatusChange_reduce.
      intros Hrun j. rewrite (reduce_loop_Ok_stock _ _ _ _ _ Hrun).
      destruct (stock_of st j); simpl; f_equal; lia.
  - rewrite handleStatusChange_other by done.
    intros [= <-] j.
    replace (restocked currentStatus newStatus) with 0
      by by destruct currentStatus, newStatus.
    destruct (stock_of st j); simpl; f_equal; lia.
Qed.

Lemma restocked_same status : restocked status status = 0.
Proof. by destruct status. Qed.

Lemma updateTransaction_Ok_stock now input st r st' current :
  updateTransaction now input st = (Ok r, st') ->
  transactionsTable st !! ut_id input = Some current ->
  (forall j,
     stock_of st' j
     = (fun s => s + restocked (Transaction.status current)
                       (default (Transaction.status current) (ut_status input))
                     * units_of j (items_of st (ut_id input)))
         <$> stock_of st j)
  /\ transactionsTable st' !! ut_id input = Some (snd r)
  /\ Transaction.status (snd r) = default (Transaction.status current) (ut_status input)
  /\ transactionItemsTable st' = transactionItemsTable st.
Proof.
  intros Hrun Hcur.
  pose proof (updateTransaction_Ok _ _ _ _ _ Hrun) as (current' & Hcur' & Hr & Ht & Hi).
  rewrite Hcur in Hcur'. injection Hcur' as <-.
  split; [|split; [by rewrite Ht, lookup_insert_eq|split; [by rewrite Hr|done]]].
  clear Hr Ht Hi. revert Hrun.
  unfold updateTransaction. rewrite bind_select_transaction, Hcur.
  unfold bind at 1.
  assert (forall st1 : Store,
            (forall j, stock_of st1 j = stock_of st j) ->
            forall j,
              stock_of st1 j
              = (fun s => s + 0 * units_of j (items_of st (ut_id input)))
                  <$> stock_of st j) as Hnone.
  { intros st1 Hsame j. rewrite Hsame.
    destruct (stock_of st j); simpl; f_equal; lia. }
  destruct (ut_status input) as [status|] eqn:Hstatus; simpl.
  - case_decide as Hne.
    + destruct (handleStatusChange now (ut_id input) (Transaction.status current)
                  status st) as [[[]|e0] st1] eqn:Hchange; [|discriminate].
      unfold bind, update_transaction. simpl.
      destruct (alter _ _ _ !! _); simpl; [|discriminate].
      intros [= <- <-] j.
      by rewrite <- (handleStatusChange_Ok_stock _ _ _ _ _ _ Hchange j).
    + unfold bind, update_transaction. simpl.
      destruct (alter _ _ _ !! _); simpl; [|discriminate].
      intros [= <- <-]. subst status.
      rewrite restocked_same. by apply Hnone.
  - unfold bind, update_transaction. simpl.
    destruct (alter _ _ _ !! _); simpl; [|discriminate].
    intros [= <- <-]. rewrite restocked_same. by apply Hnone.
Qed.

(** X9: along any list of patches of one transaction on which
    [updateTransaction] returns each time, the stock of every product ends
    at its start plus the units of the product on the lines of the
    transaction, times the number of changes from completed to cancelled
    less the number of changes from cancelled to completed.  Changes to
    and from pending do not count, so a sale that is cancelled, set to
    pending and then to completed keeps the stock it gave back. *)
Theorem status_path_net_effect patches st st' id current :
  transactionsTable st !! id = Some current ->
  Forall (fun step => ut_id (snd step) = id) patches ->
  updated_by patches st st' ->
  forall j,
    stock_of st' j
    = (fun s => s + net_restocked (Transaction.status current) (snd <$> patches)
                    * units_of j (items_of st id))
        <$> stock_of st j.
Proof.
  revert st current. induction patches as [|[now input] rest IH];
    intros st current Hcur Hids Hrun j; simpl in *.
  - subst st'. destruct (stock_of st j); simpl; f_equal; lia.
  - apply Forall_cons in Hids as [Hid Hids]. simpl in Hid. subst id.
    destruct Hrun as (r & st1 & Hstep & Hrest).
    pose proof (updateTransaction_Ok_stock _ _ _ _ _ _ Hstep Hcur)
      as (Hstock & Hcur1 & Hstatus1 & Hitems1).
    rewrite (IH st1 (snd r) Hcur1 Hids Hrest j), Hstock, Hstatus1.
    unfold items_of. rewrite Hitems1.
    destruct (stock_of st j); simpl; f_equal.
    rewrite Z.mul_add_distr_r, Z.add_assoc. reflexivity.
Qed.

(** X9 on a sale of 30 units out of 100 that is cancelled, set to pending
    and set to completed: the stock of product 1 ends at 70 + 30. *)
Lemma status_path_net_effect_witness :
  stock_of Reopen.after 1
  = (fun s => s + net_restocked completed (snd <$> Reopen.patches)
                  * units_of 1 (items_of RoundTrip.before 1))
      <$> stock_of RoundTrip.before 1.
Proof.
  apply (status_path_net_effect Reopen.patches RoundTrip.before Reopen.after 1
           (Shop.sale_row (Shop.sale [Shop.item 1 30]) 1)).
  - vm_compute. reflexivity.
  - repeat constructor.
  - simpl. eexists _, _. split; [vm_compute; reflexivity|].
    eexists _, _. split; [vm_compute; reflexivity|].
    eexists _, _. split; [vm_compute; reflexivity|].
    vm_compute. reflexivity.
Defined.

(** * Properties of the product handlers and of the read side *)

(** ** Selecting products *)

Lemma select_products_elem (cond : Z * Product.t -> Prop)
    `{!forall row, Decision (cond row)} st id p :
  (id, p) ∈ select_products cond st
  <-> cond (id, p) /\ productsTable st !! id = Some p.
Proof.
  unfold select_products. by rewrite list_elem_of_filter, elem_of_map_to_list.
Qed.

Lemma select_products_NoDup (cond : Z * Product.t -> Prop)
    `{!forall row, Decision (cond row)} st :
  NoDup (select_products cond st).
Proof. apply NoDup_filter, NoDup_map_to_list. Qed.

Lemma NoDup_all_eq {A} (l : list A) (a : A) :
  NoDup l -> a ∈ l -> (forall x, x ∈ l -> x = a) -> l = [a].
Proof.
  intros Hnodup Hin Hall. destruct l as [|x [|y l]].
  - by apply not_elem_of_nil in Hin.
  - f_equal. apply Hall. left.
  - exfalso. apply NoDup_cons in Hnodup as [Hx _]. apply Hx.
    rewrite (Hall x), <- (Hall y); [left|right; left|left].
Qed.

Lemma nil_no_elem {A} (l : list A) : (forall x, x ∉ l) -> l = [].
Proof. destruct l as [|x l]; [done|]. intros H. destruct (H x). left. Qed.

(** A select by primary key has the row of the key, or no row. *)
Lemma select_products_by_id (cond : Z * Product.t -> Prop)
    `{!forall row, Decision (cond row)} st id :
  (forall row, cond row -> row.1 = id) ->
  select_products cond st
  = match productsTable st !! id with
    | Some p => if decide (cond (id, p)) then [(id, p)] else []
    | None => []
    end.
Proof.
  intros Hkey.
  assert (forall row, row ∈ select_products cond st ->
                      cond row /\ productsTable st !! id = Some row.2) as Hrows.
  { intros [i q] Hin. apply select_products_elem in Hin as [Hc Hq].
    split; [done|]. by rewrite <- (Hkey _ Hc). }
  destruct (productsTable st !! id) as [p|] eqn:Hp.
  - case_decide as Hc.
    + apply NoDup_all_eq.
      * apply select_products_NoDup.
      * by apply select_products_elem.
      * intros [i q] Hin. pose proof (Hrows _ Hin) as [Hc' Hq].
        simpl in Hq. injection Hq as ->. by rewrite <- (Hkey _ Hc').
    + apply nil_no_elem. intros [i q] Hin.
      pose proof (Hrows _ Hin) as [Hc' Hq]. simpl in Hq. injection Hq as ->.
      apply Hc. by rewrite <- (Hkey _ Hc').
  - apply nil_no_elem. intros row Hin. by destruct (Hrows _ Hin).
Qed.

Lemma select_product_by_id st id :
  select_products (fun row => row.1 = id) st
  = match productsTable st !! id with Some p => [(id, p)] | None => [] end.
Proof.
  rewrite (select_products_by_id _ st id) by done.
  destruct (productsTable st !! id); [|done]. by rewrite decide_True.
Qed.

(** ** update_product.ts *)

Lemma sku_conflict_spec input st sku :
  up_sku input = Some (Some sku) ->
  (0 < length (select_products
                 (fun row => Product.sku row.2 = Some sku /\ row.1 <> up_id input) st))%nat
  <-> sku_taken input st.
Proof.
  intros Hsku. split.
  - destruct (select_products _ st) as [|[i p] l] eqn:Hsel; simpl; [lia|].
    intros _.
    assert ((i, p) ∈ select_products
              (fun row => Product.sku row.2 = Some sku /\ row.1 <> up_id input) st)
      as Hin by (rewrite Hsel; left).
    apply select_products_elem in Hin as [[Hp Hi] Hlook].
    by exists sku, i, p.
  - intros (sku' & i & p & Hsku' & Hi & Hlook & Hp).
    rewrite Hsku in Hsku'. injection Hsku' as <-.
    assert ((i, p) ∈ select_products
              (fun row => Product.sku row.2 = Some sku /\ row.1 <> up_id input) st)
      as Hin by by apply select_products_elem.
    destruct (select_products _ st); [by apply not_elem_of_nil in Hin|simpl; lia].
Qed.

(** The three ways of [updateProduct]. *)
Lemma updateProduct_not_found now input st :
  productsTable st !! up_id input = None ->
  updateProduct now input st = (inl (ProductIdNotFound (up_id input)), st).
Proof.
  intros Hnone. unfold updateProduct. cbv zeta.
  by rewrite select_product_by_id, Hnone.
Qed.

Lemma updateProduct_conflict now input st p :
  productsTable st !! up_id input = Some p ->
  sku_taken input st ->
  exists sku,
    up_sku input = Some (Some sku)
    /\ updateProduct now input st = (inl (SkuExists sku), st).
Proof.
  intros Hp Htaken. pose proof Htaken as (sku & _ & _ & Hsku & _).
  exists sku. split; [done|].
  unfold updateProduct. cbv zeta. rewrite select_product_by_id, Hp, Hsku. simpl.
  rewrite decide_True; [done|]. by apply sku_conflict_spec.
Qed.

Lemma updateProduct_updates now input st p :
  productsTable st !! up_id input = Some p ->
  ~ sku_taken input st ->
  updateProduct now input st
  = (inr (up_id input, productUpdateData now input p),
     snd (update_product (up_id input) (productUpdateData now input) st)).
Proof.
  intros Hp Hfree. unfold updateProduct. cbv zeta.
  rewrite select_product_by_id, Hp. simpl.
  assert (match up_sku input with
          | Some (Some sku) =>
            if decide (0 < length (select_products
                                     (fun row => Product.sku row.2 = Some sku
                                                 /\ row.1 <> up_id input) st))%nat
            then Some sku else None
          | _ => None
          end = None) as ->.
  { destruct (up_sku input) as [[sku|]|] eqn:Hsku; [|done..].
    rewrite decide_False; [done|]. by rewrite sku_conflict_spec. }
  by rewrite lookup_alter_eq, Hp.
Qed.

Lemma update_product_insert id set st p :
  productsTable st !! id = Some p ->
  productsTable (snd (update_product id set st)) = <[id := set p]> (productsTable st).
Proof.
  intros Hp. simpl. apply map_eq. intros i.
  destruct (decide (i = id)) as [->|Hne].
  - by rewrite lookup_alter_eq, lookup_insert_eq, Hp.
  - by rewrite lookup_alter_ne, lookup_insert_ne.
Qed.

Lemma same_but_products_update_product id set st :
  same_but_products st (snd (update_product id set st)).
Proof. by repeat split. Qed.

#[local] Instance sku_taken_dec input st : Decision (sku_taken input st).
Proof.
  destruct (up_sku input) as [[sku|]|] eqn:Hsku.
  - destruct (decide (0 < length (select_products
                                    (fun row => Product.sku row.2 = Some sku
                                                /\ row.1 <> up_id input) st))%nat).
    + left. by apply (sku_conflict_spec input st sku).
    + right. by rewrite <- (sku_conflict_spec input st sku).
  - right. intros (sku & _ & _ & ? & _). congruence.
  - right. intros (sku & _ & _ & ? & _). congruence.
Defined.

(** X10: what [updateProduct] has done when it ends.  When it throws
    that the product is not found, no product has the id; when it throws
    that the SKU exists, another product has the SKU that the input sets;
    nothing is written in either case.  When it returns, the product was
    there and the SKU was free, the row returned is the row stored, which
    is the row before with [updated_at] and the provided fields replaced,
    the price rounded to hundredths, and no other product, no other table
    and no sequence is touched. *)
Theorem updateProduct_outcome now input st st' :
  (forall id,
     updateProduct now input st = (inl (ProductIdNotFound id), st') ->
     id = up_id input
     /\ productsTable st !! up_id input = None
     /\ st' = st)
  /\ (forall sku,
        updateProduct now input st = (inl (SkuExists sku), st') ->
        up_sku input = Some (Some sku)
        /\ is_Some (productsTable st !! up_id input)
        /\ sku_taken input st
        /\ st' = st)
  /\ (forall r,
        updateProduct now input st = (inr r, st') ->
        exists p,
          productsTable st !! up_id input = Some p
          /\ ~ sku_taken input st
          /\ r = (up_id input, productUpdateData now input p)
          /\ Product.price (snd r)
             = default (Product.price p) (numeric_10_2 <$> up_price input)
          /\ productsTable st'
             = <[up_id input := productUpdateData now input p]> (productsTable st)
          /\ same_but_products st st').
Proof.
  destruct (productsTable st !! up_id input) as [p|] eqn:Hp.
  - destruct (decide (sku_taken input st)) as [Htaken|Hfree].
    + destruct (updateProduct_conflict now input st p Hp Htaken) as (sku & Hsku & ->).
      split_and!; [discriminate| |discriminate].
      intros sku' [= <- <-]. split_and!; eauto.
    + rewrite (updateProduct_updates now input st p Hp Hfree).
      split_and!; [discriminate..|].
      intros r [= <- <-]. exists p. split_and!; [done..| |].
      * by apply update_product_insert.
      * apply same_but_products_update_product.
  - rewrite (updateProduct_not_found now input st Hp).
    split_and!; [|discriminate..]. by intros id [= <- <-].
Qed.

Lemma updateProduct_returns now input st r st' :
  updateProduct now input st = (inr r, st') ->
  exists p,
    productsTable st !! up_id input = Some p
    /\ ~ sku_taken input st
    /\ r = (up_id input, productUpdateData now input p)
    /\ st' = snd (update_product (up_id input) (productUpdateData now input) st).
Proof.
  destruct (productsTable st !! up_id input) as [p|] eqn:Hp.
  - destruct (decide (sku_taken input st)) as [Htaken|Hfree].
    + destruct (updateProduct_conflict now input st p Hp Htaken) as (sku & _ & ->).
      discriminate.
    + rewrite (updateProduct_updates now input st p Hp Hfree).
      intros [= <- <-]. by exists p.
  - rewrite (updateProduct_not_found now input st Hp). discriminate.
Qed.

Lemma updateProduct_throws now input st e st' :
  updateProduct now input st = (inl e, st') -> st' = st.
Proof.
  destruct (productsTable st !! up_id input) as [p|] eqn:Hp.
  - destruct (decide (sku_taken input st)) as [Htaken|Hfree].
    + destruct (updateProduct_conflict now input st p Hp Htaken) as (sku & _ & ->).
      by intros [= _ <-].
    + rewrite (updateProduct_updates now input st p Hp Hfree). discriminate.
  - rewrite (updateProduct_not_found now input st Hp). by intros [= _ <-].
Qed.

(** X11: [updateProduct] with a [stock_quantity] sets the stock of the
    product to it and writes no ledger row: the stock moves away from the
    ledger by the difference to the stock before. *)
Theorem updateProduct_bypasses_ledger now input st r st' q :
  updateProduct now input st = (inr r, st') ->
  up_stock_quantity input = Some q ->
  inventoryMovementsTable st' = inventoryMovementsTable st
  /\ stock_of st' (up_id input) = Some q
  /\ exists s,
       stock_of st (up_id input) = Some s
       /\ unledgered st' (up_id input)
          = (fun u => u + (q - s)) <$> unledgered st (up_id input).
Proof.
  intros Hrun Hq.
  apply updateProduct_returns in Hrun as (p & Hp & _ & _ & ->).
  assert (stock_of (snd (update_product (up_id input) (productUpdateData now input) st))
            (up_id input) = Some q) as Hstock.
  { unfold stock_of. simpl. rewrite lookup_alter_eq, Hp. simpl. by rewrite Hq. }
  split; [done|]. split; [done|].
  exists (Product.stock_quantity p). unfold unledgered. rewrite Hstock.
  unfold stock_of. rewrite Hp. simpl. split; [done|]. f_equal. lia.
Qed.

(** X11 on a stock count of 7 for the sugar, which was out of stock. *)
Lemma updateProduct_bypasses_ledger_witness :
  inventoryMovementsTable
    (snd (updateProduct 5 (Catalogue.set_stock 2 7) Catalogue.shelf))
  = inventoryMovementsTable Catalogue.shelf
  /\ stock_of (snd (updateProduct 5 (Catalogue.set_stock 2 7) Catalogue.shelf)) 2
     = Some 7
  /\ exists s,
       stock_of Catalogue.shelf 2 = Some s
       /\ unledgered (snd (updateProduct 5 (Catalogue.set_stock 2 7) Catalogue.shelf)) 2
          = (fun u => u + (7 - s)) <$> unledgered Catalogue.shelf 2.
Proof.
  apply (updateProduct_bypasses_ledger 5 (Catalogue.set_stock 2 7) Catalogue.shelf
           (2, productUpdateData 5 (Catalogue.set_stock 2 7)
                 (Catalogue.product "Sugar" (Some "SG-2") 0 3 true))).
  - vm_compute. reflexivity.
  - reflexivity.
Defined.

(** ** delete_product.ts *)

Lemma deleteProduct_cases now id st :
  deleteProduct now id st
  = match productsTable st !! id with
    | None => (inl (ProductIdNotFound id), st)
    | Some p =>
      if Product.is_active p
      then (inr {| success := true |}, snd (update_product id (set_inactive now) st))
      else (inr {| success := true |}, st)
    end.
Proof.
  unfold deleteProduct. rewrite select_product_by_id.
  destruct (productsTable st !! id) as [p|]; [|done].
  by destruct (Product.is_active p).
Qed.

(** ** What every write keeps *)

Lemma consistent_update_product id set st :
  (forall p, 0 <= Product.stock_quantity p -> 0 <= Product.stock_quantity (set p)) ->
  consistent st ->
  consistent (snd (update_product id set st)).
Proof.
  intros Hset [Hstock Hpos Hprod]. split; simpl.
  - intros i p. rewrite lookup_alter. case_decide; [|apply Hstock]. subst i.
    destruct (productsTable st !! id) as [q|] eqn:Hq; simpl; [|done].
    intros [= <-]. eapply Hset, Hstock, Hq.
  - done.
  - eapply Forall_impl; [exact Hprod|]. simpl. intros it.
    by rewrite lookup_alter_is_Some.
Qed.

Lemma consistent_updateProduct now input st :
  updateProductInputSchema input = true ->
  consistent st ->
  consistent (snd (updateProduct now input st)).
Proof.
  intros Hschema Hc.
  destruct (updateProduct now input st) as [[e|r] st'] eqn:Hrun; simpl.
  - by rewrite (updateProduct_throws _ _ _ _ _ Hrun).
  - apply updateProduct_returns in Hrun as (p & _ & _ & _ & ->).
    apply consistent_update_product; [|done].
    intros q Hq. simpl. unfold updateProductInputSchema in Hschema.
    destruct (up_stock_quantity input) as [s|]; simpl in *; [|done].
    apply andb_prop in Hschema as [Hschema _].
    apply andb_prop in Hschema as [_ Hs]. lia.
Qed.

Lemma consistent_deleteProduct now id st :
  consistent st -> consistent (snd (deleteProduct now id st)).
Proof.
  intros Hc. rewrite deleteProduct_cases.
  destruct (productsTable st !! id) as [p|]; [|done].
  destruct (Product.is_active p); [|done].
  by apply consistent_update_product.
Qed.

Lemma consistent_write st w : consistent st -> consistent (write st w).
Proof.
  intros Hc. destruct w as [r|now input|now id]; simpl.
  - by apply consistent_serve.
  - unfold appRouter_updateProduct.
    destruct (updateProductInputSchema input) eqn:Hschema; [|done].
    by apply consistent_updateProduct.
  - by apply consistent_deleteProduct.
Qed.

(** X12: through any sequence of requests to the six procedures that
    write a product, its stock or a transaction, served or rejected, no
    stock becomes negative, no line item has a quantity that is not
    positive and no line item is of a product that is not in the store. *)
Theorem writes_keep_consistent ws st :
  consistent st -> consistent (write_all st ws).
Proof.
  revert st. induction ws as [|w ws IH]; intros st Hc; [done|].
  simpl. by apply IH, consistent_write.
Qed.

Lemma shelf_consistent : consistent Catalogue.shelf.
Proof.
  split; simpl.
  - intros id p Hp.
    repeat (apply lookup_insert_Some in Hp as [[_ <-]|[_ Hp]]; [simpl; lia|]).
    apply lookup_singleton_Some in Hp as [_ <-]. simpl. lia.
  - constructor.
  - constructor.
Qed.

(** X12 on the day of the catalogue, which has a stock count of -1 that
    the schema refuses. *)
Lemma writes_keep_consistent_witness : consistent Catalogue.closed.
Proof.
  apply (writes_keep_consistent Catalogue.writes Catalogue.shelf).
  apply shelf_consistent.
Defined.

Lemma grows_serve st r : grows st (serve st r).
Proof.
  apply (writes_serve grows).
  - intros id set Hset. by apply grows_update_product.
  - intros values _. apply grows_insert_inventory_movement.
  - intros values _. apply grows_insert_transaction_item.
  - apply grows_insert_transaction.
  - apply grows_update_transaction.
  - intros st1 st2 _. apply grows_rollback.
Qed.

Lemma sku_unique_by_sku st st' :
  (forall id p', productsTable st' !! id = Some p' ->
                 Product.sku p' <> None ->
                 exists p, productsTable st !! id = Some p
                           /\ Product.sku p = Product.sku p') ->
  sku_unique st -> sku_unique st'.
Proof.
  intros Hsame Hu id1 id2 p1 p2 sku H1 H2 Hs1 Hs2.
  destruct (Hsame id1 p1 H1) as (q1 & Hq1 & Hq1s); [congruence|].
  destruct (Hsame id2 p2 H2) as (q2 & Hq2 & Hq2s); [congruence|].
  apply (Hu id1 id2 q1 q2 sku); congruence.
Qed.

Lemma sku_unique_update_product id set st :
  (forall p, Product.sku (set p) = Product.sku p) ->
  sku_unique st -> sku_unique (snd (update_product id set st)).
Proof.
  intros Hset. apply sku_unique_by_sku. simpl. intros i p'.
  rewrite lookup_alter. case_decide; [|eauto]. subst i.
  destruct (productsTable st !! id) as [p|]; simpl; [|done].
  intros [= <-] _. eauto.
Qed.

Lemma sku_unique_serve st r : sku_unique st -> sku_unique (serve st r).
Proof.
  apply sku_unique_by_sku. intros id p' Hp' _.
  destruct (grows_serve st r) as [_ _ Hcard]. specialize (Hcard id).
  rewrite Hp' in Hcard. destruct (productsTable st !! id) as [p|]; [|done].
  exists p. split; [done|]. simpl in Hcard. unfold product_card in Hcard. congruence.
Qed.

Lemma sku_unique_updateProduct now input st :
  sku_unique st -> sku_unique (snd (updateProduct now input st)).
Proof.
  intros Hu.
  destruct (updateProduct now input st) as [[e|r] st'] eqn:Hrun; simpl.
  - by rewrite (updateProduct_throws _ _ _ _ _ Hrun).
  - apply updateProduct_returns in Hrun as (p & Hp & Hfree & _ & ->).
    intros id1 id2 p1 p2 sku. simpl. rewrite !lookup_alter.
    assert (forall i q, i <> up_id input -> productsTable st !! i = Some q ->
                        Product.sku q = Some sku ->
                        Product.sku (productUpdateData now input p) = Some sku ->
                        False) as Hother.
    { intros i q Hi Hq Hqs. simpl.
      destruct (up_sku input) as [new|] eqn:Hnew; simpl.
      - intros ->. apply Hfree. by exists sku, i, q.
      - intros Hps. apply Hi. by apply (Hu i (up_id input) q p sku). }
    repeat case_decide; subst; rewrite ?Hp; simpl.
    + done.
    + intros [= <-] H2 Hs1 Hs2. destruct (Hother id2 p2); done.
    + intros H1 [= <-] Hs1 Hs2. destruct (Hother id1 p1); done.
    + apply Hu.
Qed.

Lemma sku_unique_write st w : sku_unique st -> sku_unique (write st w).
Proof.
  intros Hu. destruct w as [r|now input|now id]; simpl.
  - by apply sku_unique_serve.
  - unfold appRouter_updateProduct.
    destruct (updateProductInputSchema input); [|done].
    by apply sku_unique_updateProduct.
  - rewrite deleteProduct_cases.
    destruct (productsTable st !! id) as [p|]; [|done].
    destruct (Product.is_active p); [|done].
    by apply sku_unique_update_product.
Qed.

(** X13: if no two products have the same SKU, this stays so through any
    sequence of requests to the six procedures, served or rejected: the
    test of [updateProduct] is enough, and the unique constraint of the
    column is never what refuses a write. *)
Theorem writes_keep_sku_unique ws st :
  sku_unique st -> sku_unique (write_all st ws).
Proof.
  revert st. induction ws as [|w ws IH]; intros st Hu; [done|].
  simpl. by apply IH, sku_unique_write.
Qed.

Lemma shelf_sku_unique : sku_unique Catalogue.shelf.
Proof.
  intros id1 id2 p1 p2 sku H1 H2. simpl in H1, H2.
  repeat (apply lookup_insert_Some in H1 as [[<- <-]|[_ H1]];
          [repeat (apply lookup_insert_Some in H2 as [[<- <-]|[_ H2]];
                   [simpl; congruence|]);
           apply lookup_singleton_Some in H2 as [<- <-]; simpl; congruence|]).
  apply lookup_singleton_Some in H1 as [<- <-]. simpl. congruence.
Qed.

(** X13 on the day of the catalogue, which asks for a SKU that is taken
    and for one that is free. *)
Lemma writes_keep_sku_unique_witness : sku_unique Catalogue.closed.
Proof.
  apply (writes_keep_sku_unique Catalogue.writes Catalogue.shelf).
  apply shelf_sku_unique.
Defined.

(** X14: [deleteProduct] throws only when the product is not there, and
    writes nothing then.  Otherwise it answers with success and removes no
    row: an active product is kept with [is_active] false and a new
    [updated_at], every other column and every other row as before; a
    product that is inactive already is left as it is. *)
Theorem deleteProduct_outcome now id st :
  match deleteProduct now id st with
  | (inl e, st') =>
    e = ProductIdNotFound id /\ productsTable st !! id = None /\ st' = st
  | (inr r, st') =>
    success r = true
    /\ exists p,
         productsTable st !! id = Some p
         /\ if Product.is_active p
            then productsTable st' = <[id := set_inactive now p]> (productsTable st)
                 /\ same_but_products st st'
            else st' = st
  end.
Proof.
  rewrite deleteProduct_cases.
  destruct (productsTable st !! id) as [p|] eqn:Hp; [|done].
  destruct (Product.is_active p) eqn:Hactive.
  - split; [done|]. exists p. rewrite Hactive. split; [done|]. split.
    + by apply update_product_insert.
    + apply same_but_products_update_product.
  - split; [done|]. exists p. by rewrite Hactive.
Qed.

(** X15: a product that has been deleted can be deleted again: the call
    answers with success as before and changes nothing, not even
    [updated_at]. *)
Theorem deleteProduct_again now now' id st r st' :
  deleteProduct now id st = (inr r, st') ->
  deleteProduct now' id st' = (inr r, st').
Proof.
  rewrite !deleteProduct_cases.
  destruct (productsTable st !! id) as [p|] eqn:Hp; [|discriminate].
  destruct (Product.is_active p) eqn:Hactive.
  - intros [= <- <-]. simpl. by rewrite lookup_alter_eq, Hp.
  - intros [= <- <-]. by rewrite Hp, Hactive.
Qed.

(** X15 on the rice of the catalogue. *)
Lemma deleteProduct_again_witness :
  deleteProduct 9 1 (snd (deleteProduct 6 1 Catalogue.shelf))
  = (inr {| success := true |}, snd (deleteProduct 6 1 Catalogue.shelf)).
Proof.
  apply (deleteProduct_again 6 9 1 Catalogue.shelf).
  vm_compute. reflexivity.
Defined.

(** ** get_products.ts *)

Lemma getProductById_lookup id st :
  getProductById id st
  = match productsTable st !! id with
    | Some p => if Product.is_active p then Some (id, p) else None
    | None => None
    end.
Proof.
  unfold getProductById.
  rewrite (select_products_by_id _ st id) by by intros row [? _].
  destruct (productsTable st !! id) as [p|]; [|done].
  destruct (Product.is_active p) eqn:Hactive.
  - by rewrite decide_True.
  - rewrite decide_False; [done|]. simpl. intros [_ ?]. congruence.
Qed.

(** X16: after [deleteProduct] has answered, the product is in none of
    the product lists and [getProductById] gives [null] for it, while its
    row and its stock are still there; the other products are listed as
    before. *)
Theorem deleted_product_is_hidden now id st r st' :
  deleteProduct now id st = (inr r, st') ->
  getProductById id st' = None
  /\ (id ∉ fst <$> getProducts st')
  /\ (id ∉ fst <$> getLowStockProducts st')
  /\ is_Some (productsTable st' !! id)
  /\ (forall j, stock_of st' j = stock_of st j)
  /\ (forall j p, j <> id -> (j, p) ∈ getProducts st' <-> (j, p) ∈ getProducts st)
  /\ (forall j, j <> id -> getProductById j st' = getProductById j st).
Proof.
  rewrite deleteProduct_cases.
  destruct (productsTable st !! id) as [p|] eqn:Hp; [|discriminate].
  intros H.
  assert (exists p', productsTable st' !! id = Some p'
                     /\ Product.is_active p' = false
                     /\ Product.stock_quantity p' = Product.stock_quantity p
                     /\ forall j, j <> id -> productsTable st' !! j = productsTable st !! j)
    as (p' & Hp' & Hinactive & Hstock & Hothers).
  { destruct (Product.is_active p) eqn:Hactive; injection H as _ <-.
    - exists (set_inactive now p). simpl. rewrite lookup_alter_eq, Hp.
      split_and!; [done..|]. intros j Hj. by rewrite lookup_alter_ne.
    - by exists p. }
  clear H. split_and!.
  - by rewrite getProductById_lookup, Hp', Hinactive.
  - intros ([j q] & -> & Hin)%list_elem_of_fmap.
    apply select_products_elem in Hin as [Hactive Hq]. simpl in *. congruence.
  - intros ([j q] & -> & Hin)%list_elem_of_fmap.
    apply select_products_elem in Hin as [[_ Hactive] Hq]. simpl in *. congruence.
  - by rewrite Hp'.
  - intros j. unfold stock_of. destruct (decide (j = id)) as [->|Hj].
    + rewrite Hp', Hp. simpl. by rewrite Hstock.
    + by rewrite Hothers.
  - intros j q Hj. unfold getProducts. rewrite !select_products_elem.
    by rewrite Hothers.
  - intros j Hj. rewrite !getProductById_lookup. by rewrite Hothers.
Qed.

(** X16 on the rice of the catalogue. *)
Lemma deleted_product_is_hidden_witness :
  getProductById 1 (snd (deleteProduct 6 1 Catalogue.shelf)) = None
  /\ (1 ∉ fst <$> getProducts (snd (deleteProduct 6 1 Catalogue.shelf)))
  /\ (1 ∉ fst <$> getLowStockProducts (snd (deleteProduct 6 1 Catalogue.shelf)))
  /\ is_Some (productsTable (snd (deleteProduct 6 1 Catalogue.shelf)) !! 1)
  /\ (forall j, stock_of (snd (deleteProduct 6 1 Catalogue.shelf)) j
                = stock_of Catalogue.shelf j)
  /\ (forall j p, j <> 1 ->
                  (j, p) ∈ getProducts (snd (deleteProduct 6 1 Catalogue.shelf))
                  <-> (j, p) ∈ getProducts Catalogue.shelf)
  /\ (forall j, j <> 1 ->
                getProductById j (snd (deleteProduct 6 1 Catalogue.shelf))
                = getProductById j Catalogue.shelf).
Proof.
  apply (deleted_product_is_hidden 6 1 Catalogue.shelf {| success := true |}).
  vm_compute. reflexivity.
Defined.

Lemma deleteProduct_stock now id st j :
  stock_of (snd (deleteProduct now id st)) j = stock_of st j.
Proof.
  rewrite deleteProduct_cases.
  destruct (productsTable st !! id) as [p|] eqn:Hp; [|done].
  destruct (Product.is_active p); [|done].
  unfold stock_of. simpl. rewrite lookup_alter. case_decide; [|done]. subst j.
  by rewrite Hp.
Qed.

(** X17: a product that has been deleted is sold as before: a sale that
    passes the schema is accepted after [deleteProduct] exactly when it
    was accepted before, as [createTransaction] does not read
    [is_active]. *)
Theorem deleted_product_is_still_sold now now' id st r st' input :
  deleteProduct now id st = (inr r, st') ->
  createTransactionInputSchema input = true ->
  (exists t st1, appRouter.createTransaction now' input st' = (Ok t, st1))
  <-> (exists t st1, appRouter.createTransaction now' input st = (Ok t, st1)).
Proof.
  intros Hdelete Hschema. rewrite !createTransaction_accepts by done.
  assert (forall j, stock_of st' j = stock_of st j) as Hstock.
  { intros j. by rewrite <- (deleteProduct_stock now id st j), Hdelete. }
  unfold covered. by setoid_rewrite Hstock.
Qed.

(** X17 on the rice of the catalogue, of which 3 units are sold after it
    has been deleted. *)
Lemma deleted_product_is_still_sold_witness :
  ((exists t st1,
      appRouter.createTransaction 7 (Shop.sale [Shop.item 1 3])
        (snd (deleteProduct 6 1 Catalogue.shelf)) = (Ok t, st1))
   <-> (exists t st1,
          appRouter.createTransaction 7 (Shop.sale [Shop.item 1 3]) Catalogue.shelf
          = (Ok t, st1)))
  /\ fst (appRouter.createTransaction 7 (Shop.sale [Shop.item 1 3])
            (snd (deleteProduct 6 1 Catalogue.shelf)))
     = Ok (1, Shop.sale_row (Shop.sale [Shop.item 1 3]) 7).
Proof.
  split.
  - apply (deleted_product_is_still_sold 6 7 1 Catalogue.shelf {| success := true |}).
    + vm_compute. reflexivity.
    + reflexivity.
  - vm_compute. reflexivity.
Defined.

(** ** generate_inventory_report.ts *)

Lemma select_products_ids (cond : Z * Product.t -> Prop)
    `{!forall row, Decision (cond row)} st id :
  id ∈ fst <$> select_products cond st
  <-> exists p, productsTable st !! id = Some p /\ cond (id, p).
Proof.
  rewrite list_elem_of_fmap. split.
  - intros ([j p] & -> & Hin). apply select_products_elem in Hin as [Hc Hp]. eauto.
  - intros (p & Hp & Hc). exists (id, p). split; [done|].
    by apply select_products_elem.
Qed.

Lemma low_stock_products_ids st id :
  id ∈ LowStockProduct.product_id
         <$> InventoryReport.low_stock_products (generateInventoryReport st)
  <-> exists p,
        productsTable st !! id = Some p
        /\ Product.is_active p = true
        /\ Product.stock_quantity p <= Product.min_stock_level p
        /\ 0 < Product.stock_quantity p.
Proof.
  simpl. rewrite <- list_fmap_compose, list_elem_of_fmap. split.
  - intros ([j p] & -> & Hin). simpl.
    apply list_elem_of_filter in Hin as [[Hlow Hpos] Hin].
    apply select_products_elem in Hin as [Hactive Hp]. eauto.
  - intros (p & Hp & Hactive & Hlow & Hpos). exists (id, p). split; [done|].
    apply list_elem_of_filter. split; [done|]. by apply select_products_elem.
Qed.

Lemma out_of_stock_products_ids st id :
  id ∈ OutOfStockProduct.product_id
         <$> InventoryReport.out_of_stock_products (generateInventoryReport st)
  <-> exists p,
        productsTable st !! id = Some p
        /\ Product.is_active p = true
        /\ Product.stock_quantity p = 0.
Proof.
  simpl. rewrite <- list_fmap_compose, list_elem_of_fmap. split.
  - intros ([j p] & -> & Hin). simpl.
    apply list_elem_of_filter in Hin as [Hzero Hin].
    apply select_products_elem in Hin as [Hactive Hp]. eauto.
  - intros (p & Hp & Hactive & Hzero). exists (id, p). split; [done|].
    apply list_elem_of_filter. split; [done|]. by apply select_products_elem.
Qed.

(** X18: no product is both in the low-stock list and in the
    out-of-stock list of the inventory report; when no stock and no
    minimum level of the store is negative, the products of
    [getLowStockProducts] are those of the two lists together; every
    product of [getLowStockProducts] is one of [getProducts]; and
    [total_products] is the number of products of [getProducts]. *)
Theorem low_stock_is_low_or_out st :
  (forall id,
     ~ (id ∈ LowStockProduct.product_id
               <$> InventoryReport.low_stock_products (generateInventoryReport st)
        /\ id ∈ OutOfStockProduct.product_id
                  <$> InventoryReport.out_of_stock_products (generateInventoryReport st)))
  /\ (levels_nonneg st ->
      forall id,
        id ∈ fst <$> getLowStockProducts st
        <-> id ∈ LowStockProduct.product_id
                   <$> InventoryReport.low_stock_products (generateInventoryReport st)
            \/ id ∈ OutOfStockProduct.product_id
                      <$> InventoryReport.out_of_stock_products
                            (generateInventoryReport st))
  /\ (forall id,
        id ∈ fst <$> getLowStockProducts st -> id ∈ fst <$> getProducts st)
  /\ InventoryReport.total_products (generateInventoryReport st)
     = Z.of_nat (length (getProducts st)).
Proof.
  split_and!.
  - intros id [Hlow Hout].
    apply low_stock_products_ids in Hlow as (p & Hp & _ & _ & Hpos).
    apply out_of_stock_products_ids in Hout as (q & Hq & _ & Hzero).
    rewrite Hp in Hq. injection Hq as <-. lia.
  - intros Hlevels id. unfold getLowStockProducts.
    rewrite select_products_ids, low_stock_products_ids, out_of_stock_products_ids.
    simpl. split.
    + intros (p & Hp & Hlow & Hactive).
      destruct (Hlevels id p Hp) as [Hstock _].
      destruct (decide (Product.stock_quantity p = 0)); [right|left];
        exists p; split_and!; [done..|lia].
    + intros [(p & Hp & Hactive & Hlow & _)|(p & Hp & Hactive & Hzero)].
      * by exists p.
      * destruct (Hlevels id p Hp) as [_ Hmin]. exists p. split_and!; [done|lia|done].
  - intros id. unfold getLowStockProducts, getProducts.
    rewrite !select_products_ids. intros (p & Hp & _ & Hactive). eauto.
  - done.
Qed.

Lemma shelf_levels_nonneg : levels_nonneg Catalogue.shelf.
Proof.
  intros id p Hp. simpl in Hp.
  repeat (apply lookup_insert_Some in Hp as [[_ <-]|[_ Hp]]; [simpl; lia|]).
  apply lookup_singleton_Some in Hp as [_ <-]. simpl. lia.
Qed.

(** X18 on the catalogue, where the sugar is out of stock and the oil is
    at its minimum level. *)
Lemma low_stock_is_low_or_out_witness :
  (forall id,
     id ∈ fst <$> getLowStockProducts Catalogue.shelf
     <-> id ∈ LowStockProduct.product_id
                <$> InventoryReport.low_stock_products
                      (generateInventoryReport Catalogue.shelf)
         \/ id ∈ OutOfStockProduct.product_id
                   <$> InventoryReport.out_of_stock_products
                         (generateInventoryReport Catalogue.shelf))
  /\ fst <$> getLowStockProducts Catalogue.shelf = [4; 2].
Proof.
  split; [|by vm_compute].
  apply (proj1 (proj2 (low_stock_is_low_or_out Catalogue.shelf))).
  apply shelf_levels_nonneg.
Defined.

Lemma low_stock_alerts_ids st id :
  id ∈ LowStockAlert.id <$> StockAlerts.low_stock (getStockAlerts st)
  <-> exists p,
        productsTable st !! id = Some p
        /\ Product.is_active p = true
        /\ Product.stock_quantity p <= Product.min_stock_level p
        /\ 0 < Product.stock_quantity p.
Proof.
  simpl. rewrite <- list_fmap_compose, list_elem_of_fmap. split.
  - intros ([j p] & -> & Hin). simpl.
    apply list_elem_of_filter in Hin as [[Hlow Hpos] Hin].
    apply select_products_elem in Hin as [Hactive Hp]. eauto.
  - intros (p & Hp & Hactive & Hlow & Hpos). exists (id, p). split; [done|].
    apply list_elem_of_filter. split; [done|]. by apply select_products_elem.
Qed.

Lemma out_of_stock_alerts_ids st id :
  id ∈ OutOfStockAlert.id <$> StockAlerts.out_of_stock (getStockAlerts st)
  <-> exists p,
        productsTable st !! id = Some p
        /\ Product.is_active p = true
        /\ Product.stock_quantity p = 0.
Proof.
  simpl. rewrite <- list_fmap_compose, list_elem_of_fmap. split.
  - intros ([j p] & -> & Hin). simpl.
    apply list_elem_of_filter in Hin as [Hzero Hin].
    apply select_products_elem in Hin as [Hactive Hp]. eauto.
  - intros (p & Hp & Hactive & Hzero). exists (id, p). split; [done|].
    apply list_elem_of_filter. split; [done|]. by apply select_products_elem.
Qed.

(** X21: [getStockAlerts] and [generateInventoryReport] name the same
    products as low on stock and the same products as out of stock, and
    every alert is of a product that [getProductById] finds, with the
    stock and the minimum level that are stored: above zero and at most
    the minimum level for a low-stock alert. *)
Theorem stock_alerts_agree_with_report st :
  (forall id,
     id ∈ LowStockAlert.id <$> StockAlerts.low_stock (getStockAlerts st)
     <-> id ∈ LowStockProduct.product_id
                <$> InventoryReport.low_stock_products (generateInventoryReport st))
  /\ (forall id,
        id ∈ OutOfStockAlert.id <$> StockAlerts.out_of_stock (getStockAlerts st)
        <-> id ∈ OutOfStockProduct.product_id
                   <$> InventoryReport.out_of_stock_products (generateInventoryReport st))
  /\ Forall (fun a =>
               exists p,
                 getProductById (LowStockAlert.id a) st = Some (LowStockAlert.id a, p)
                 /\ LowStockAlert.current_stock a = Product.stock_quantity p
                 /\ LowStockAlert.min_stock_level a = Product.min_stock_level p
                 /\ 0 < LowStockAlert.current_stock a <= LowStockAlert.min_stock_level a)
            (StockAlerts.low_stock (getStockAlerts st))
  /\ Forall (fun a =>
               exists p,
                 getProductById (OutOfStockAlert.id a) st = Some (OutOfStockAlert.id a, p)
                 /\ Product.stock_quantity p = 0)
            (StockAlerts.out_of_stock (getStockAlerts st)).
Proof.
  split_and!.
  - intros id. by rewrite low_stock_alerts_ids, low_stock_products_ids.
  - intros id. by rewrite out_of_stock_alerts_ids, out_of_stock_products_ids.
  - apply Forall_forall. intros a. simpl. rewrite list_elem_of_fmap.
    intros ([j p] & -> & Hin). simpl.
    apply list_elem_of_filter in Hin as [[Hlow Hpos] Hin].
    apply select_products_elem in Hin as [Hactive Hp]. simpl in *.
    exists p. rewrite getProductById_lookup, Hp, Hactive. split_and!; [done..|lia].
  - apply Forall_forall. intros a. simpl. rewrite list_elem_of_fmap.
    intros ([j p] & -> & Hin). simpl.
    apply list_elem_of_filter in Hin as [Hzero Hin].
    apply select_products_elem in Hin as [Hactive Hp]. simpl in *.
    exists p. by rewrite getProductById_lookup, Hp, Hactive.
Qed.

(** ** get_inventory_movements.ts *)

#[local] Instance ordered_by_total order_by direction :
  Total (ordered_by order_by direction).
Proof. intros a b. destruct direction; simpl; lia. Qed.

#[local] Instance ordered_by_trans order_by direction :
  Transitive (ordered_by order_by direction).
Proof. intros a b c. destruct direction; simpl; lia. Qed.

Lemma ledger_total_Permutation product_id rows rows' :
  rows ≡ₚ rows' -> ledger_total product_id rows = ledger_total product_id rows'.
Proof.
  induction 1 as [|m rows rows' _ IH|m1 m2 rows|rows1 rows2 rows3 _ IH1 _ IH2]; simpl.
  - done.
  - by rewrite IH.
  - lia.
  - by rewrite IH1.
Qed.

Lemma ledger_total_filter product_id rows :
  ledger_total product_id
    (filter (fun m => InventoryMovement.product_id m = product_id) rows)
  = ledger_total product_id rows.
Proof.
  induction rows as [|m rows IH]; [done|].
  rewrite filter_cons. simpl. case_decide; simpl; [|done].
  rewrite decide_True by done. by rewrite IH.
Qed.

(** X19: [getInventoryMovementsByProduct] gives every ledger row of the
    product once and no other row, the latest first, so that the stock of
    the product less the changes that the rows stand for is the stock
    that the ledger does not account for. *)
Theorem product_ledger_is_complete productId st :
  getInventoryMovementsByProduct productId st
    ≡ₚ filter (fun m => InventoryMovement.product_id m = productId)
         (inventoryMovementsTable st)
  /\ Sorted (fun a b => InventoryMovement.created_at b <= InventoryMovement.created_at a)
       (getInventoryMovementsByProduct productId st)
  /\ unledgered st productId
     = (fun s => s - ledger_total productId (getInventoryMovementsByProduct productId st))
         <$> stock_of st productId.
Proof.
  split_and!.
  - apply merge_sort_Permutation.
  - apply (Sorted_merge_sort (ordered_by order_by_created_at desc)).
  - unfold unledgered, getInventoryMovementsByProduct.
    by rewrite (ledger_total_Permutation _ _ _ (merge_sort_Permutation _ _)),
      ledger_total_filter.
Qed.

Lemma getInventoryMovements_Some input st rows :
  getInventoryMovements input st = Some rows ->
  rows
  = take (Z.to_nat (default 100 (gim_limit input)))
      (drop (Z.to_nat (default 0 (gim_offset input)))
         (merge_sort
            (ordered_by (default order_by_created_at (gim_order_by input))
                        (default desc (gim_order_direction input)))
            (filter (fun m => conditions input m) (inventoryMovementsTable st)))).
Proof.
  unfold getInventoryMovements. cbv zeta. case_decide; [|discriminate]. by intros [= <-].
Qed.

Lemma Sorted_take_drop {A} (R : relation A) `{!Transitive R} n k (l : list A) :
  Sorted R l -> Sorted R (take n (drop k l)).
Proof.
  intros Hsorted. apply Sorted_StronglySorted in Hsorted; [|done].
  apply StronglySorted_Sorted.
  rewrite <- (take_drop k l) in Hsorted. apply StronglySorted_app_1_r in Hsorted.
  rewrite <- (take_drop n (drop k l)) in Hsorted.
  by apply StronglySorted_app_1_l in Hsorted.
Qed.

(** X20: the rows that [getInventoryMovements] returns are no more than
    the limit (100 when none is given), are rows of the ledger that meet
    every condition of the parameters, and are in the order asked for
    (the latest first when none is given); without an offset, every row
    that meets the conditions and is left out comes no earlier in that
    order than every row that is returned. *)
Theorem getInventoryMovements_page input st rows :
  getInventoryMovements input st = Some rows ->
  (length rows <= Z.to_nat (default 100%Z (gim_limit input)))%nat
  /\ Forall (fun m => m ∈ inventoryMovementsTable st /\ conditions input m = true) rows
  /\ Sorted (ordered_by (default order_by_created_at (gim_order_by input))
                        (default desc (gim_order_direction input))) rows
  /\ (default 0 (gim_offset input) = 0 ->
      forall m r,
        m ∈ inventoryMovementsTable st ->
        conditions input m = true ->
        m ∉ rows ->
        r ∈ rows ->
        ordered_by (default order_by_created_at (gim_order_by input))
                   (default desc (gim_order_direction input)) r m).
Proof.
  intros ->%getInventoryMovements_Some.
  set (R := ordered_by _ _).
  set (matching := filter _ _).
  assert (forall m, m ∈ merge_sort R matching
                    <-> m ∈ inventoryMovementsTable st /\ conditions input m = true)
    as Hin.
  { intros m. rewrite merge_sort_Permutation. unfold matching.
    rewrite list_elem_of_filter. rewrite Is_true_true. tauto. }
  split_and!.
  - rewrite length_take. lia.
  - apply Forall_forall. intros m Hm. apply Hin.
    by eapply subseteq_drop, subseteq_take.
  - apply Sorted_take_drop; [apply _|]. apply Sorted_merge_sort. apply _.
  - intros -> m r Hm Hc Hout Hr. simpl in *. rewrite drop_0 in Hout, Hr.
    assert (m ∈ merge_sort R matching) as Hsorted by by apply Hin.
    rewrite <- (take_drop (Z.to_nat (default 100 (gim_limit input)))
                  (merge_sort R matching)) in Hsorted.
    apply elem_of_app in Hsorted as [?|Hdrop]; [done|].
    pose proof (StronglySorted_merge_sort R matching) as Hstrong.
    rewrite <- (take_drop (Z.to_nat (default 100 (gim_limit input)))
                  (merge_sort R matching)) in Hstrong.
    by apply (StronglySorted_app_1_elem_of _ _ _ _ _ Hstrong).
Qed.

(** X20 on the two latest ['out'] rows of the day in the shop. *)
Lemma getInventoryMovements_page_witness :
  (length Page.rows <= Z.to_nat (default 100%Z (gim_limit Page.params)))%nat
  /\ Forall (fun m => m ∈ inventoryMovementsTable Day.evening
                      /\ conditions Page.params m = true) Page.rows
  /\ Sorted (ordered_by (default order_by_created_at (gim_order_by Page.params))
                        (default desc (gim_order_direction Page.params))) Page.rows
  /\ (default 0 (gim_offset Page.params) = 0 ->
      forall m r,
        m ∈ inventoryMovementsTable Day.evening ->
        conditions Page.params m = true ->
        m ∉ Page.rows ->
        r ∈ Page.rows ->
        ordered_by (default order_by_created_at (gim_order_by Page.params))
                   (default desc (gim_order_direction Page.params)) r m).
Proof.
  apply (getInventoryMovements_page Page.params Day.evening Page.rows).
  vm_compute. reflexivity.
Defined.
